(** * Upload trigger and Athena pipeline: a shallow embedding

    Two Python scripts are modelled here:

    - [lambda/start_ec2_on_upload.py] (module [Lambda]): a handler that
      filters a storage notification and brings an EC2 instance up;
    - [lambda/ec2/athena_pipeline.py] (module [Pipeline]): a linear script
      that runs Athena statements, copies the result and terminates the
      instance it runs on.

    The SDK calls of the scripts are effects.  Each module has a [World]
    holding what the services answer and a [trace] of the requests the
    script has issued so far, oldest first; the scripts are written in a
    state-and-exception monad over that world. *)

From Stdlib Require Import Ascii String QArith Lqa.
From stdpp Require Import gmap strings list.

Set Warnings "-register-all".

Local Open Scope string_scope.
Local Open Scope list_scope.

(** ** Python values, exceptions and the string methods the scripts use *)

Module Py.

(** JSON-shaped Python values: what a notification event or an SDK
    response is made of.  A dict is kept as its list of items in insertion
    order; a lookup takes the first item with the key. *)
Inductive PyVal : Type :=
| PNone
| PBool (b : bool)
| PInt (z : Z)
| PFloat (mantissa exponent : Z)
| PStr (s : string)
| PList (xs : list PyVal)
| PDict (items : list (string * PyVal)).

(** The exception classes that occur.  [KeyboardInterrupt] and [SystemExit]
    derive from [BaseException] only; all others derive from [Exception]. *)
Inductive ExcClass : Type :=
| AttributeError | KeyError | IndexError | TypeError
| RuntimeError | TimeoutError | URLError | UnicodeDecodeError
| ClientError | WaiterError | EndpointConnectionError
| KeyboardInterrupt | SystemExit.

(** An exception object: its class and what [str(e)] gives. *)
Record PyExc : Type := mkExc { exc_class : ExcClass; exc_msg : string }.

Definition is_Exception (e : PyExc) : bool :=
  match exc_class e with
  | KeyboardInterrupt | SystemExit => false
  | _ => true
  end.

Definition is_ClientError (e : PyExc) : bool :=
  match exc_class e with
  | ClientError => true
  | _ => false
  end.

(** The outcome of evaluating an expression: a value or a raised exception. *)
Inductive result (A : Type) : Type :=
| Ok (a : A)
| Err (e : PyExc).
Arguments Ok {A} a.
Arguments Err {A} e.

Definition rbind {A B : Type} (r : result A) (k : A -> result B) : result B :=
  match r with
  | Ok a => k a
  | Err e => Err e
  end.

Declare Scope result_scope.
Delimit Scope result_scope with result.
Notation "'let?' x ':=' r 'in' k" := (rbind r (fun x => k))
  (at level 10, x name, r at level 100, k at level 200) : result_scope.

(** *** Strings *)

Definition startswith (s p : string) : bool := String.prefix p s.

(** [s.endswith(suf)]: [s] is long enough and its last [len(suf)]
    characters are [suf]. *)
Definition endswith (s suf : string) : bool :=
  (String.length suf <=? String.length s)%nat &&
  String.eqb
    (String.substring (String.length s - String.length suf)
                      (String.length suf) s)
    suf.

Definition lower_ascii (c : ascii) : ascii :=
  let n := nat_of_ascii c in
  if ((65 <=? n) && (n <=? 90))%nat then ascii_of_nat (n + 32) else c.

(** [s.lower()] on the UTF-8 bytes of [s].  Bytes above 127 are left as
    they are; no character outside ASCII lowers to one of [.json], so
    [s.lower().endswith(".json")] is decided by the ASCII letters alone. *)
Fixpoint lower (s : string) : string :=
  match s with
  | EmptyString => EmptyString
  | String c r => String (lower_ascii c) (lower r)
  end.

(** [pat in s] for strings. *)
Fixpoint contains (pat s : string) : bool :=
  String.prefix pat s ||
  match s with
  | EmptyString => false
  | String _ r => contains pat r
  end.

(** [s.replace(old, new)] for a non-empty [old]: occurrences are taken
    left to right and do not overlap.  [skip] counts the characters of an
    occurrence that are still to be dropped. *)
Fixpoint replace_from (old new : string) (skip : nat) (s : string) : string :=
  match s with
  | EmptyString => EmptyString
  | String c r =>
      match skip with
      | S k => replace_from old new k r
      | O =>
          if String.prefix old s
          then new +:+ replace_from old new (String.length old - 1) r
          else String c (replace_from old new 0 r)
      end
  end.

(** With an empty [old], Python puts [new] before every character and at
    the end. *)
Fixpoint replace_empty (new s : string) : string :=
  match s with
  | EmptyString => new
  | String c r => new +:+ String c (replace_empty new r)
  end.

Definition replace (s old new : string) : string :=
  match old with
  | EmptyString => replace_empty new s
  | String _ _ => replace_from old new 0 s
  end.

(** The last character of [s], if it has one. *)
Fixpoint last_char (s : string) : option ascii :=
  match s with
  | EmptyString => None
  | String c EmptyString => Some c
  | String _ r => last_char r
  end.

(** Truth value of [os.getenv(...)]: [None] and the empty string are false. *)
Definition truthy (o : option string) : bool :=
  match o with
  | Some (String _ _) => true
  | _ => false
  end.

(** [a or b] where [a] comes from [os.getenv]. *)
Definition or_else (o : option string) (d : string) : string :=
  match o with
  | Some (String c r) => String c r
  | _ => d
  end.

(** *** Values *)

Definition type_name (v : PyVal) : string :=
  match v with
  | PNone => "NoneType"
  | PBool _ => "bool"
  | PInt _ => "int"
  | PFloat _ _ => "float"
  | PStr _ => "str"
  | PList _ => "list"
  | PDict _ => "dict"
  end.

Definition no_attribute (v : PyVal) (attr : string) : PyExc :=
  mkExc AttributeError
    ("'" +:+ type_name v +:+ "' object has no attribute '" +:+ attr +:+ "'").

Definition not_subscriptable (v : PyVal) : PyExc :=
  mkExc TypeError ("'" +:+ type_name v +:+ "' object is not subscriptable").

Fixpoint dict_lookup (items : list (string * PyVal)) (k : string) : option PyVal :=
  match items with
  | [] => None
  | (k', v) :: rest => if String.eqb k' k then Some v else dict_lookup rest k
  end.

(** [v == s] for a string literal [s]: only a [str] equals a [str]. *)
Definition eq_str (v : PyVal) (s : string) : bool :=
  match v with
  | PStr s' => String.eqb s' s
  | _ => false
  end.

(** [v.get(k, dflt)]: only a dict has [get]. *)
Definition get (v : PyVal) (k : string) (dflt : PyVal) : result PyVal :=
  match v with
  | PDict items => Ok (default dflt (dict_lookup items k))
  | _ => Err (no_attribute v "get")
  end.

(** [v[k]] for a string literal [k]. *)
Definition getitem_str (v : PyVal) (k : string) : result PyVal :=
  match v with
  | PDict items =>
      match dict_lookup items k with
      | Some x => Ok x
      | None => Err (mkExc KeyError ("'" +:+ k +:+ "'"))
      end
  | PStr _ => Err (mkExc TypeError "string indices must be integers, not 'str'")
  | PList _ => Err (mkExc TypeError "list indices must be integers or slices, not str")
  | _ => Err (not_subscriptable v)
  end.

(** [v[0]]. *)
Definition getitem_0 (v : PyVal) : result PyVal :=
  match v with
  | PList (x :: _) => Ok x
  | PList [] => Err (mkExc IndexError "list index out of range")
  | PStr (String c _) => Ok (PStr (String c EmptyString))
  | PStr EmptyString => Err (mkExc IndexError "string index out of range")
  | PDict _ => Err (mkExc KeyError "0")
  | _ => Err (not_subscriptable v)
  end.

Fixpoint chars (s : string) : list PyVal :=
  match s with
  | EmptyString => []
  | String c r => PStr (String c EmptyString) :: chars r
  end.

(** What [for x in v] walks through: the elements of a list, the keys of a
    dict, the characters of a string; nothing else is iterable. *)
Definition iter (v : PyVal) : result (list PyVal) :=
  match v with
  | PList xs => Ok xs
  | PDict items => Ok (map (fun kv => PStr (fst kv)) items)
  | PStr s => Ok (chars s)
  | _ => Err (mkExc TypeError ("'" +:+ type_name v +:+ "' object is not iterable"))
  end.

(** [v.startswith(p)], [v.lower()], [v.endswith(p)]: methods of [str]. *)
Definition str_startswith (v : PyVal) (p : string) : result bool :=
  match v with
  | PStr s => Ok (startswith s p)
  | _ => Err (no_attribute v "startswith")
  end.

Definition str_lower (v : PyVal) : result PyVal :=
  match v with
  | PStr s => Ok (PStr (lower s))
  | _ => Err (no_attribute v "lower")
  end.

Definition str_endswith (v : PyVal) (p : string) : result bool :=
  match v with
  | PStr s => Ok (endswith s p)
  | _ => Err (no_attribute v "endswith")
  end.

End Py.

(** ** The upload trigger: [lambda/start_ec2_on_upload.py] *)

Module Lambda.
Import Py.
Local Open Scope result_scope.

(** *** Event filtering *)

(** The [for] loop of [_should_process] over the records still to visit.
    [Ok true] is the [return True] inside the loop, [Ok false] is the loop
    running to its end, [Err e] is an exception leaving the loop. *)
Fixpoint scan_records (recs : list PyVal) : result bool :=
  match recs with
  | [] => Ok false
  | rec :: rest =>
      let? src := get rec "eventSource" PNone in
      if eq_str src "aws:s3" then
        let? s3 := getitem_str rec "s3" in
        let? obj := getitem_str s3 "object" in
        let? key := getitem_str obj "key" in
        let? under_raw := str_startswith key "raw/" in
        if under_raw then
          let? low := str_lower key in
          let? is_json := str_endswith low ".json" in
          if is_json then Ok true else scan_records rest
        else scan_records rest
      else scan_records rest
  end.

(** The body of the [try]: [event.get("Records", [])], then the loop. *)
Definition scan_event (event : PyVal) : result bool :=
  let? records := get event "Records" (PList []) in
  let? recs := iter records in
  scan_records recs.

(** [_should_process]: [except Exception: pass] followed by
    [return False]; an exception outside [Exception] is not caught. *)
Definition _should_process (event : PyVal) : result bool :=
  match scan_event event with
  | Ok b => Ok b
  | Err e => if is_Exception e then Ok false else Err e
  end.

(** *** The compute service as the handler sees it *)

Inductive Event : Type :=
| EvPrint (line : string)
| EvDescribeInstances (InstanceIds : list string)
| EvStartInstances (InstanceIds : list string)
| EvDescribeInstanceStatus (InstanceIds : list string)
| EvSleep (secs : Z).

(** How the waiter classifies one [DescribeInstanceStatus] answer: every
    status is ok, not yet, an error answer no acceptor matches, or the
    request itself raising. *)
Inductive StatusPoll : Type :=
| PollSuccess
| PollRetry
| PollFailure (reason : string)
| PollRaise (e : PyExc).

Record World : Type := mkWorld {
  ec2_describe_instances : result PyVal;
  ec2_start_instances : result PyVal;
  ec2_instance_status : nat -> StatusPoll;
  trace : list Event
}.

Definition M (A : Type) : Type := World -> result A * World.

Definition ret {A : Type} (a : A) : M A := fun w => (Ok a, w).
Definition raise {A : Type} (e : PyExc) : M A := fun w => (Err e, w).
Definition bind {A B : Type} (m : M A) (k : A -> M B) : M B :=
  fun w =>
    match m w with
    | (Ok a, w') => k a w'
    | (Err e, w') => (Err e, w')
    end.
Definition lift {A : Type} (r : result A) : M A := fun w => (r, w).

Declare Scope lambda_scope.
Delimit Scope lambda_scope with lam.
Notation "x <- m ;; k" := (bind m (fun x => k))
  (at level 100, m at next level, right associativity) : lambda_scope.
Notation "m ;; k" := (bind m (fun _ => k))
  (at level 100, right associativity) : lambda_scope.
Local Open Scope lambda_scope.

(** The world with the requests [tr] issued; the answers stay. *)
Definition with_trace (w : World) (tr : list Event) : World :=
  mkWorld (ec2_describe_instances w) (ec2_start_instances w)
          (ec2_instance_status w) tr.

Definition emit (ev : Event) : M unit :=
  fun w => (Ok tt, with_trace w (trace w ++ [ev])).

Definition print (line : string) : M unit := emit (EvPrint line).

Definition describe_instances (ids : list string) : M PyVal :=
  emit (EvDescribeInstances ids) ;;
  fun w => (ec2_describe_instances w, w).

Definition start_instances (ids : list string) : M PyVal :=
  emit (EvStartInstances ids) ;;
  fun w => (ec2_start_instances w, w).

Definition describe_instance_status (ids : list string) (attempt : nat) : M StatusPoll :=
  emit (EvDescribeInstanceStatus ids) ;;
  fun w => (Ok (ec2_instance_status w attempt), w).

Definition sleep (secs : Z) : M unit := emit (EvSleep secs).

(** [try: body except ClientError as e: handler(e)]. *)
Definition try_except_ClientError {A : Type} (body : M A) (handler : PyExc -> M A) : M A :=
  fun w =>
    match body w with
    | (Ok a, w') => (Ok a, w')
    | (Err e, w') => if is_ClientError e then handler e w' else (Err e, w')
    end.

(** *** The SDK waiter

    [waiter.wait] belongs to the SDK, not to the repository.  It is
    modelled after its contract: poll, stop on success, raise
    [WaiterError] on a failure answer or once [MaxAttempts] polls were
    made, otherwise sleep [Delay] seconds and poll again. *)

Definition waiter_error (name reason : string) : PyExc :=
  mkExc WaiterError ("Waiter " +:+ name +:+ " failed: " +:+ reason).

(** [remaining] is how many more polls may follow this one; [attempt]
    numbers the polls from 0. *)
Fixpoint waiter_poll (name : string) (ids : list string) (delay : Z)
    (remaining attempt : nat) : M unit :=
  obs <- describe_instance_status ids attempt ;;
  match obs with
  | PollSuccess => ret tt
  | PollFailure reason => raise (waiter_error name reason)
  | PollRaise e => raise e
  | PollRetry =>
      match remaining with
      | O => raise (waiter_error name "Max attempts exceeded")
      | S r => sleep delay ;; waiter_poll name ids delay r (S attempt)
      end
  end.

Definition waiter_wait (name : string) (ids : list string)
    (Delay : Z) (MaxAttempts : nat) : M unit :=
  waiter_poll name ids Delay (MaxAttempts - 1) 0.

(** *** The handler *)

Definition skipped : PyVal := PDict [("ok", PBool true); ("skipped", PBool true)].

Definition started (iid : string) : PyVal :=
  PDict [("ok", PBool true); ("instance", PStr iid)].

(** [desc["Reservations"][0]["Instances"][0]["State"]["Name"]]. *)
Definition instance_state (desc : PyVal) : result PyVal :=
  let? reservations := getitem_str desc "Reservations" in
  let? reservation := getitem_0 reservations in
  let? instances := getitem_str reservation "Instances" in
  let? instance := getitem_0 instances in
  let? st := getitem_str instance "State" in
  getitem_str st "Name".

(** [state in ("stopped", "stopping")]. *)
Definition needs_start (state : PyVal) : bool :=
  eq_str state "stopped" || eq_str state "stopping".

(** The body of the handler's [try]. *)
Definition ensure_running (iid : string) : M PyVal :=
  desc <- describe_instances [iid] ;;
  state <- lift (instance_state desc) ;;
  (if needs_start state
   then start_instances [iid] ;; ret tt
   else ret tt) ;;
  waiter_wait "InstanceStatusOk" [iid] 10 30 ;;
  ret (started iid).

(** [INSTANCE_ID] is [os.getenv("INSTANCE_ID")]. *)
Definition lambda_handler (INSTANCE_ID : option string) (event context : PyVal) : M PyVal :=
  if negb (truthy INSTANCE_ID) then
    raise (mkExc RuntimeError "Missing env var INSTANCE_ID (your EC2 runner id)")
  else
    should <- lift (_should_process event) ;;
    if negb should then ret skipped
    else
      try_except_ClientError
        (ensure_running (default EmptyString INSTANCE_ID))
        (fun e => print ("EC2 error: " +:+ exc_msg e) ;; raise e).

(** The module-level settings, read from the process environment. *)
Definition REGION (environ : gmap string string) : string :=
  default "us-east-1" (environ !! "REGION").
Definition INSTANCE_ID (environ : gmap string string) : option string :=
  environ !! "INSTANCE_ID".

(** *** Vocabulary of the properties *)

(** The records the loop of [_should_process] walks through; none when
    the event has no iterable [Records]. *)
Definition records_of (event : PyVal) : list PyVal :=
  match (let? records := get event "Records" (PList []) in iter records) with
  | Ok recs => recs
  | Err _ => []
  end.

(** The event-source tag of a record, [None] when there is none. *)
Definition event_source (rec : PyVal) : PyVal :=
  match rec with
  | PDict items => default PNone (dict_lookup items "eventSource")
  | _ => PNone
  end.

(** The object key of a record: the string at [s3.object.key]. *)
Definition object_key (rec : PyVal) : option string :=
  match rec with
  | PDict items =>
      match dict_lookup items "s3" with
      | Some (PDict s3) =>
          match dict_lookup s3 "object" with
          | Some (PDict obj) =>
              match dict_lookup obj "key" with
              | Some (PStr key) => Some key
              | _ => None
              end
          | _ => None
          end
      | _ => None
      end
  | _ => None
  end.

(** A qualifying record: a storage put under [raw/] whose lowercased key
    ends with [.json]. *)
Definition qualifies (rec : PyVal) : bool :=
  eq_str (event_source rec) "aws:s3" &&
  match object_key rec with
  | Some key => startswith key "raw/" && endswith (lower key) ".json"
  | None => false
  end.

(** A record the loop can look at without an exception: a dict which,
    when tagged as a storage put, carries a string at [s3.object.key]. *)
Definition well_shaped (rec : PyVal) : bool :=
  match rec with
  | PDict _ =>
      if eq_str (event_source rec) "aws:s3"
      then match object_key rec with Some _ => true | None => false end
      else true
  | _ => false
  end.

Definition is_start (ev : Event) : bool :=
  match ev with EvStartInstances _ => true | _ => false end.

Definition is_poll (ev : Event) : bool :=
  match ev with EvDescribeInstanceStatus _ => true | _ => false end.

Definition is_sleep (ev : Event) : bool :=
  match ev with EvSleep _ => true | _ => false end.

(** The requests that go to the compute service. *)
Definition is_compute_call (ev : Event) : bool :=
  match ev with
  | EvDescribeInstances _ | EvStartInstances _ | EvDescribeInstanceStatus _ => true
  | _ => false
  end.

Definition count_if (f : Event -> bool) (tr : list Event) : nat :=
  length (List.filter f tr).

(** What a wait that polls [k + 1] times leaves in the trace. *)
Fixpoint wait_rounds (ids : list string) (delay : Z) (k : nat) : list Event :=
  match k with
  | O => [EvDescribeInstanceStatus ids]
  | S k' => EvDescribeInstanceStatus ids :: EvSleep delay :: wait_rounds ids delay k'
  end.

End Lambda.

(** ** The pipeline runner: [lambda/ec2/athena_pipeline.py] *)

Module Pipeline.
Import Py.

(** *** Configuration *)

Record Config : Type := mkConfig {
  REGION : string;
  BUCKET : string;
  RAW_PREFIX : string;
  ATHENA_OUTPUT : string;
  PROD_PREFIX : string;
  DATABASE : string;
  TABLE : string;
  WORKGROUP : string;
  CATALOG : string
}.

(** [os.getenv(k, d)]. *)
Definition getenv (environ : gmap string string) (k d : string) : string :=
  default d (environ !! k).

(** The module-level assignments, in the order of the script. *)
Definition load_config (environ : gmap string string) : Config :=
  let bucket := or_else (environ !! "BUCKET") "YOUR_S3_BUCKET" in
  {| REGION := getenv environ "REGION" "us-east-1";
     BUCKET := bucket;
     RAW_PREFIX := getenv environ "RAW_PREFIX" "raw/";
     ATHENA_OUTPUT :=
       or_else (environ !! "ATHENA_OUTPUT") ("s3://" +:+ bucket +:+ "/athena-results/");
     PROD_PREFIX := getenv environ "PROD_PREFIX" "output/prod/";
     DATABASE := getenv environ "DATABASE" "healthcare_db";
     TABLE := getenv environ "TABLE" "facility_data";
     WORKGROUP := getenv environ "WORKGROUP" "primary";
     CATALOG := getenv environ "CATALOG" "AwsDataCatalog" |}.

Definition CREATE_DB_SQL (cfg : Config) : string :=
  "CREATE DATABASE IF NOT EXISTS " +:+ DATABASE cfg +:+ ";".

Definition CREATE_TABLE_SQL (cfg : Config) : string :=
  "
CREATE EXTERNAL TABLE IF NOT EXISTS " +:+ DATABASE cfg +:+ "." +:+ TABLE cfg +:+ " (
  facility_id string,
  facility_name string,
  location struct<
    address:string,
    city:string,
    state:string,
    zip:string>,
  employee_count int,
  services array<string>,
  labs array<struct<lab_name:string, certifications:array<string>>>,
  accreditations array<struct<accreditation_body:string, accreditation_id:string, valid_until:string>>
)
ROW FORMAT SERDE 'org.openx.data.jsonserde.JsonSerDe'
WITH SERDEPROPERTIES ('ignore.malformed.json'='true')
LOCATION 's3://" +:+ BUCKET cfg +:+ "/" +:+ RAW_PREFIX cfg +:+ "'
TBLPROPERTIES ('has_encrypted_data'='false');
".

Definition STAGE3_SQL (cfg : Config) : string :=
  "
SELECT
  location.state AS state,
  COUNT(1)        AS facilities
FROM " +:+ DATABASE cfg +:+ "." +:+ TABLE cfg +:+ "
GROUP BY location.state
ORDER BY facilities DESC;
".

(** *** Requests and answers of the services *)

(** The keyword arguments of [start_query_execution]. *)
Record StartQueryRequest : Type := mkStartQuery {
  QueryString : string;
  OutputLocation : string;
  WorkGroup : string;
  Catalog : string;
  Database : option string
}.

(** SDK answers, as the dicts the SDK builds from the service's output
    shapes: every member is a string or a nested structure, and may be
    absent. *)
Record StartQueryExecutionOutput : Type := mkStartOutput {
  QueryExecutionId : option string
}.

Record QueryStatus : Type := mkStatus {
  State : option string;
  StateChangeReason : option string
}.

Record QueryExecutionInfo : Type := mkInfo {
  Query : option string;
  Status : option QueryStatus
}.

Record GetQueryExecutionOutput : Type := mkGetOutput {
  QueryExecution : option QueryExecutionInfo
}.

(** [d[k]] on such an answer: [KeyError] when the member is absent. *)
Definition member {A : Type} (k : string) (o : option A) : result A :=
  match o with
  | Some a => Ok a
  | None => Err (mkExc KeyError ("'" +:+ k +:+ "'"))
  end.

(** A naive UTC date and time, as [datetime.utcnow()] returns it. *)
Record datetime : Type := mkDatetime {
  year : Z; month : Z; day : Z;
  hour : Z; minute : Z; second : Z
}.

(** The ranges of the fields of a [datetime]. *)
Definition valid_datetime (d : datetime) : bool :=
  ((1 <=? year d) && (year d <=? 9999) &&
   (1 <=? month d) && (month d <=? 12) &&
   (1 <=? day d) && (day d <=? 31) &&
   (0 <=? hour d) && (hour d <=? 23) &&
   (0 <=? minute d) && (minute d <=? 59) &&
   (0 <=? second d) && (second d <=? 59))%Z.

(** The last decimal digit of [n], as a character. *)
Definition digit (n : Z) : ascii := ascii_of_nat (Z.to_nat (48 + n mod 10)).

(** Two and four decimal digits, padded with zeros: [%m], [%d], [%H],
    [%M], [%S] and [%Y]. *)
Definition pad2 (n : Z) : string :=
  String (digit (n / 10)) (String (digit n) EmptyString).

Definition pad4 (n : Z) : string :=
  String (digit (n / 1000)) (String (digit (n / 100)) (pad2 n)).

(** [d.strftime("%Y%m%d_%H%M%S")]. *)
Definition strftime_Ymd_HMS (d : datetime) : string :=
  pad4 (year d) +:+ pad2 (month d) +:+ pad2 (day d) +:+ "_" +:+
  pad2 (hour d) +:+ pad2 (minute d) +:+ pad2 (second d).

Inductive Event : Type :=
| EvPrint (line : string)
| EvTimeTime
| EvSleep (secs : Z)
| EvUtcNow
| EvStartQueryExecution (req : StartQueryRequest)
| EvGetQueryExecution (qid : string)
| EvCopyObject (Bucket : string) (CopySourceBucket CopySourceKey : string) (Key : string)
| EvUrlOpen (url : string) (timeout : Z)
| EvTerminateInstances (InstanceIds : list string).

(** What the surroundings answer.  Answers of calls made repeatedly are
    given per call, numbered from 0. *)
Record Env : Type := mkEnv {
  time_readings : nat -> Q;
  athena_start_answers : nat -> result StartQueryExecutionOutput;
  athena_get_answers : nat -> result GetQueryExecutionOutput;
  utc_clock : datetime;
  s3_fault : option PyExc;
  metadata_answer : result string;
  ec2_terminate_answer : result unit
}.

(** The world of one run: the surroundings, the objects of the store by
    (bucket, key), how often each numbered call was made, and the
    requests issued so far. *)
Record World : Type := mkWorld {
  env : Env;
  s3_objects : gmap (string * string) string;
  n_time : nat;
  n_start : nat;
  n_get : nat;
  trace : list Event
}.

(** *** The monad: state, exceptions, and [None] when the fuel of a loop
    ran out *)

Definition M (A : Type) : Type := World -> option (result A * World).

Definition ret {A : Type} (a : A) : M A := fun w => Some (Ok a, w).
Definition raise {A : Type} (e : PyExc) : M A := fun w => Some (Err e, w).
Definition out_of_fuel {A : Type} : M A := fun _ => None.
Definition bind {A B : Type} (m : M A) (k : A -> M B) : M B :=
  fun w =>
    match m w with
    | Some (Ok a, w') => k a w'
    | Some (Err e, w') => Some (Err e, w')
    | None => None
    end.
Definition lift {A : Type} (r : result A) : M A := fun w => Some (r, w).

Declare Scope pipeline_scope.
Delimit Scope pipeline_scope with pipe.
Notation "x <- m ;; k" := (bind m (fun x => k))
  (at level 100, m at next level, right associativity) : pipeline_scope.
Notation "m ;; k" := (bind m (fun _ => k))
  (at level 100, right associativity) : pipeline_scope.
Local Open Scope pipeline_scope.

(** [try: body except Exception as e: handler(e)]. *)
Definition try_except_Exception {A : Type} (body : M A) (handler : PyExc -> M A) : M A :=
  fun w =>
    match body w with
    | Some (Ok a, w') => Some (Ok a, w')
    | Some (Err e, w') => if is_Exception e then handler e w' else Some (Err e, w')
    | None => None
    end.

(** The world with the requests [evs] added to the trace. *)
Definition log (w : World) (evs : list Event) : World :=
  mkWorld (env w) (s3_objects w) (n_time w) (n_start w) (n_get w)
          (trace w ++ evs).

Definition emit (ev : Event) : M unit := fun w => Some (Ok tt, log w [ev]).

Definition print (line : string) : M unit := emit (EvPrint line).

Definition time_time : M Q :=
  emit EvTimeTime ;;
  fun w =>
    Some (Ok (time_readings (env w) (n_time w)),
          mkWorld (env w) (s3_objects w) (S (n_time w)) (n_start w) (n_get w) (trace w)).

Definition time_sleep (secs : Z) : M unit := emit (EvSleep secs).

Definition utcnow : M datetime :=
  emit EvUtcNow ;;
  fun w => Some (Ok (utc_clock (env w)), w).

Definition start_query_execution (req : StartQueryRequest) : M StartQueryExecutionOutput :=
  emit (EvStartQueryExecution req) ;;
  fun w =>
    Some (athena_start_answers (env w) (n_start w),
          mkWorld (env w) (s3_objects w) (n_time w) (S (n_start w)) (n_get w) (trace w)).

Definition get_query_execution (qid : string) : M GetQueryExecutionOutput :=
  emit (EvGetQueryExecution qid) ;;
  fun w =>
    Some (athena_get_answers (env w) (n_get w),
          mkWorld (env w) (s3_objects w) (n_time w) (n_start w) (S (n_get w)) (trace w)).

Definition no_such_key : PyExc :=
  mkExc ClientError
    "An error occurred (NoSuchKey) when calling the CopyObject operation: The specified key does not exist.".

(** Server-side copy: the object at the source is written under the
    destination key; the source is only read. *)
Definition copy_object (Bucket CopySourceBucket CopySourceKey Key : string) : M unit :=
  emit (EvCopyObject Bucket CopySourceBucket CopySourceKey Key) ;;
  fun w =>
    match s3_fault (env w) with
    | Some e => Some (Err e, w)
    | None =>
        match s3_objects w !! (CopySourceBucket, CopySourceKey) with
        | None => Some (Err no_such_key, w)
        | Some body =>
            Some (Ok tt,
                  mkWorld (env w) (<[(Bucket, Key) := body]> (s3_objects w))
                          (n_time w) (n_start w) (n_get w) (trace w))
        end
    end.

(** [urllib.request.urlopen(url, timeout=t).read().decode()]. *)
Definition urlopen_read_decode (url : string) (timeout : Z) : M string :=
  emit (EvUrlOpen url timeout) ;;
  fun w => Some (metadata_answer (env w), w).

Definition terminate_instances (ids : list string) : M unit :=
  emit (EvTerminateInstances ids) ;;
  fun w => Some (ec2_terminate_answer (env w), w).

(** *** The script *)

(** [state in ("SUCCEEDED", "FAILED", "CANCELLED")]. *)
Definition is_terminal (state : string) : bool :=
  String.eqb state "SUCCEEDED" || String.eqb state "FAILED" || String.eqb state "CANCELLED".

Definition query_failed (qid state reason : string) : PyExc :=
  mkExc RuntimeError ("Athena query " +:+ qid +:+ " " +:+ state +:+ ": " +:+ reason).

Definition query_timed_out (qid : string) : PyExc :=
  mkExc TimeoutError ("Athena query " +:+ qid +:+ " timed out").

(** The [while True] loop of [wait_for_query]; one unit of [fuel] per
    round. *)
Fixpoint wait_loop (fuel : nat) (qid : string) (timeout_sec : Z) (start : Q)
    : M GetQueryExecutionOutput :=
  match fuel with
  | O => out_of_fuel
  | S fuel' =>
      res <- get_query_execution qid ;;
      info <- lift (member "QueryExecution" (QueryExecution res)) ;;
      status <- lift (member "Status" (Status info)) ;;
      state <- lift (member "State" (State status)) ;;
      if is_terminal state then
        if negb (String.eqb state "SUCCEEDED") then
          let reason := default "Unknown" (StateChangeReason status) in
          raise (query_failed qid state reason)
        else ret res
      else
        now <- time_time ;;
        if Qlt_le_dec (inject_Z timeout_sec) (now - start) then
          raise (query_timed_out qid)
        else
          time_sleep 2 ;;
          wait_loop fuel' qid timeout_sec start
  end.

Definition wait_for_query (fuel : nat) (qid : string) (timeout_sec : Z)
    : M GetQueryExecutionOutput :=
  start <- time_time ;;
  wait_loop fuel qid timeout_sec start.

Definition default_timeout_sec : Z := 300.

(** [database] is included only when it is given and not empty. *)
Definition run_query (fuel : nat) (cfg : Config) (sql : string) (database : option string)
    : M string :=
  let kwargs :=
    {| QueryString := sql;
       OutputLocation := ATHENA_OUTPUT cfg;
       WorkGroup := WORKGROUP cfg;
       Catalog := CATALOG cfg;
       Database := if truthy database then database else None |} in
  q <- start_query_execution kwargs ;;
  qid <- lift (member "QueryExecutionId" (QueryExecutionId q)) ;;
  wait_for_query fuel qid default_timeout_sec ;;
  ret qid.

Definition src_key (cfg : Config) (qid : string) : string :=
  replace ("athena-results/" +:+ qid +:+ ".csv") ("s3://" +:+ BUCKET cfg +:+ "/") EmptyString.

Definition copy_athena_csv_to_prod (cfg : Config) (qid dest_key : string) : M unit :=
  copy_object (BUCKET cfg) (BUCKET cfg) (src_key cfg qid) dest_key.

Definition metadata_url : string :=
  "http://169.254.169.254/latest/meta-data/instance-id".

Definition terminate_self : M unit :=
  try_except_Exception
    (iid <- urlopen_read_decode metadata_url 2 ;;
     terminate_instances [iid])
    (fun e => print ("[WARN] Could not terminate instance automatically: " +:+ exc_msg e)).

Definition dest_key (cfg : Config) (now : datetime) : string :=
  PROD_PREFIX cfg +:+ "state_counts_" +:+ strftime_Ymd_HMS now +:+ ".csv".

Definition sentinel : string := "YOUR_S3_BUCKET".

(** Steps 1 to 5 of [main]: everything before the self-termination. *)
Definition produce (fuel : nat) (cfg : Config) : M unit :=
  print ("[INFO] Starting Athena pipeline in " +:+ REGION cfg) ;;
  print ("[INFO] Bucket=" +:+ BUCKET cfg +:+ ", RAW=s3://" +:+ BUCKET cfg +:+ "/"
         +:+ RAW_PREFIX cfg +:+ ", Output=" +:+ PROD_PREFIX cfg) ;;
  if String.eqb (BUCKET cfg) sentinel then
    raise (mkExc RuntimeError
             "Set BUCKET env var (or hardcode your bucket name) before running.")
  else
    print "[STEP] Ensuring DB exists…" ;;
    run_query fuel cfg (CREATE_DB_SQL cfg) None ;;
    print "[STEP] Ensuring external table exists…" ;;
    run_query fuel cfg (CREATE_TABLE_SQL cfg) (Some (DATABASE cfg)) ;;
    print "[STEP] Running Stage-3 query…" ;;
    qid <- run_query fuel cfg (STAGE3_SQL cfg) (Some (DATABASE cfg)) ;;
    print ("[OK] Query ID: " +:+ qid) ;;
    now <- utcnow ;;
    let key := dest_key cfg now in
    print "[STEP] Copying results to prod…" ;;
    copy_athena_csv_to_prod cfg qid key ;;
    print ("[OK] Prod CSV: s3://" +:+ BUCKET cfg +:+ "/" +:+ key) ;;
    print "[STEP] Terminating instance…".

Definition main (fuel : nat) (cfg : Config) : M unit :=
  produce fuel cfg ;;
  terminate_self.

(** *** Vocabulary of the properties *)

(** The requests that leave the process: to the query engine, the object
    store, the metadata endpoint and the compute service. *)
Definition is_service_call (ev : Event) : bool :=
  match ev with
  | EvStartQueryExecution _ | EvGetQueryExecution _ | EvCopyObject _ _ _ _
  | EvUrlOpen _ _ | EvTerminateInstances _ => true
  | EvPrint _ | EvTimeTime | EvSleep _ | EvUtcNow => false
  end.

(** [res["QueryExecution"]["Status"]], when both members are there. *)
Definition status_of (res : GetQueryExecutionOutput) : option QueryStatus :=
  match QueryExecution res with
  | Some info => Status info
  | None => None
  end.

(** What the next poll in world [w] shows: the answer, its status and its
    state. *)
Definition shows (w : World) (res : GetQueryExecutionOutput) (status : QueryStatus)
    (state : string) : Prop :=
  athena_get_answers (env w) (n_get w) = Ok res /\
  status_of res = Some status /\
  State status = Some state.

(** An answer that shows a state which is not terminal. *)
Definition is_pending (answer : result GetQueryExecutionOutput) : bool :=
  match answer with
  | Ok res =>
      match status_of res with
      | Some status =>
          match State status with
          | Some state => negb (is_terminal state)
          | None => false
          end
      | None => false
      end
  | Err _ => false
  end.

(** One round of the loop that neither ends nor times out: a poll, a look
    at the clock, a sleep of two seconds. *)
Definition one_round (qid : string) (w : World) : World :=
  mkWorld (env w) (s3_objects w) (S (n_time w)) (n_start w) (S (n_get w))
          (trace w ++ [EvGetQueryExecution qid; EvTimeTime; EvSleep 2]).

(** The world after [n] such rounds. *)
Fixpoint after_rounds (qid : string) (n : nat) (w : World) : World :=
  match n with
  | O => w
  | S k => after_rounds qid k (one_round qid w)
  end.

Fixpoint rounds (qid : string) (n : nat) : list Event :=
  match n with
  | O => []
  | S k => EvGetQueryExecution qid :: EvTimeTime :: EvSleep 2 :: rounds qid k
  end.

Definition is_poll (ev : Event) : bool :=
  match ev with EvGetQueryExecution _ => true | _ => false end.

(** Reading a timestamp back. *)
Definition is_digit (c : ascii) : bool :=
  let n := nat_of_ascii c in ((48 <=? n) && (n <=? 57))%nat.

Definition digit_value (c : ascii) : Z := Z.of_nat (nat_of_ascii c) - 48.

Fixpoint number_from (acc : Z) (s : string) : Z :=
  match s with
  | EmptyString => acc
  | String c r => number_from (acc * 10 + digit_value c) r
  end.

Definition number (s : string) : Z := number_from 0 s.

Fixpoint all_digits (s : string) : bool :=
  match s with
  | EmptyString => true
  | String c r => is_digit c && all_digits r
  end.

(** The shape [YYYYMMDD_HHMMSS]: eight digits, an underscore, six digits. *)
Definition is_timestamp (s : string) : bool :=
  (String.length s =? 15)%nat &&
  all_digits (String.substring 0 8 s) &&
  String.eqb (String.substring 8 1 s) "_" &&
  all_digits (String.substring 9 6 s).

(** The line [terminate_self] logs when it gives up on [e]. *)
Definition warning (e : PyExc) : Event :=
  EvPrint ("[WARN] Could not terminate instance automatically: " +:+ exc_msg e).

(** The configuration with another output location for the query engine. *)
Definition with_output (cfg : Config) (output : string) : Config :=
  {| REGION := REGION cfg;
     BUCKET := BUCKET cfg;
     RAW_PREFIX := RAW_PREFIX cfg;
     ATHENA_OUTPUT := output;
     PROD_PREFIX := PROD_PREFIX cfg;
     DATABASE := DATABASE cfg;
     TABLE := TABLE cfg;
     WORKGROUP := WORKGROUP cfg;
     CATALOG := CATALOG cfg |}.

(** A computation started in surroundings [e] keeps them, adds to the
    trace only requests that satisfy [P], and returns only values that
    satisfy [Q]. *)
Definition triple {A : Type} (e : Env) (P : Event -> Prop) (m : M A) (Q : A -> Prop)
    : Prop :=
  forall w r w',
    env w = e -> m w = Some (r, w') ->
    env w' = e /\
    (exists tr, trace w' = trace w ++ tr /\ Forall P tr) /\
    (forall a, r = Ok a -> Q a).

(** What every request of a run with configuration [cfg] looks like when
    the UTC clock shows [now]: a query is submitted with the configured
    output location; a copy stays within the configured bucket, reads the
    source key of some execution id and writes the destination key of
    [now]. *)
Definition request_ok (cfg : Config) (now : datetime) (ev : Event) : Prop :=
  match ev with
  | EvStartQueryExecution req => OutputLocation req = ATHENA_OUTPUT cfg
  | EvCopyObject b sb sk k =>
      b = BUCKET cfg /\ sb = BUCKET cfg /\ k = dest_key cfg now /\
      exists qid, sk = src_key cfg qid
  | _ => True
  end.


(** The keyword arguments [run_query] hands to [start_query_execution]. *)
Definition query_request (cfg : Config) (sql : string) (database : option string)
    : StartQueryRequest :=
  {| QueryString := sql;
     OutputLocation := ATHENA_OUTPUT cfg;
     WorkGroup := WORKGROUP cfg;
     Catalog := CATALOG cfg;
     Database := if truthy database then database else None |}.

(** The three queries of a run, in the order of [main]. *)
Definition statements (cfg : Config) : list StartQueryRequest :=
  [query_request cfg (CREATE_DB_SQL cfg) None;
   query_request cfg (CREATE_TABLE_SQL cfg) (Some (DATABASE cfg));
   query_request cfg (STAGE3_SQL cfg) (Some (DATABASE cfg))].

(** The queries submitted in a trace, in their order. *)
Fixpoint submitted (tr : list Event) : list StartQueryRequest :=
  match tr with
  | [] => []
  | EvStartQueryExecution req :: rest => req :: submitted rest
  | _ :: rest => submitted rest
  end.

(** A computation submits the queries [l], in that order, when it returns
    a value, and a first part of [l] when it raises. *)
Definition submits {A : Type} (m : M A) (l : list StartQueryRequest) : Prop :=
  forall w r w',
    m w = Some (r, w') ->
    exists tr,
      trace w' = trace w ++ tr /\
      (exists rest, l = submitted tr ++ rest) /\
      (forall a, r = Ok a -> submitted tr = l).

(** The requests of the self-termination: the read of the metadata
    endpoint and the terminate request. *)
Definition is_shutdown (ev : Event) : bool :=
  match ev with
  | EvUrlOpen _ _ | EvTerminateInstances _ => true
  | _ => false
  end.

(** The requests a wait for execution [qid] may issue: polls of [qid],
    readings of the clock and sleeps of two seconds. *)
Definition is_wait_for (qid : string) (ev : Event) : Prop :=
  match ev with
  | EvGetQueryExecution q => q = qid
  | EvTimeTime => True
  | EvSleep secs => secs = 2%Z
  | _ => False
  end.

(** The world after one poll of [qid]. *)
Definition polled (qid : string) (w : World) : World :=
  mkWorld (env w) (s3_objects w) (n_time w) (n_start w) (S (n_get w))
          (trace w ++ [EvGetQueryExecution qid]).

(** The world after a query was submitted. *)
Definition submitted_world (req : StartQueryRequest) (w : World) : World :=
  mkWorld (env w) (s3_objects w) (n_time w) (S (n_start w)) (n_get w)
          (trace w ++ [EvStartQueryExecution req]).


(** The world after a query that was submitted and found [SUCCEEDED] at
    its first poll. *)
Definition answered_at_once (req : StartQueryRequest) (qid : string) (w : World) : World :=
  mkWorld (env w) (s3_objects w) (S (n_time w)) (S (n_start w)) (S (n_get w))
          (trace w ++ [EvStartQueryExecution req; EvTimeTime; EvGetQueryExecution qid]).

(** An answer of the status request that shows [SUCCEEDED]. *)
Definition shows_succeeded (answer : result GetQueryExecutionOutput) : Prop :=
  exists res status,
    answer = Ok res /\ status_of res = Some status /\ State status = Some "SUCCEEDED".

(** The world after a copy that the store took. *)
Definition copied (b sk k body : string) (w : World) : World :=
  mkWorld (env w) (<[(b, k) := body]> (s3_objects w)) (n_time w) (n_start w) (n_get w)
          (trace w ++ [EvCopyObject b b sk k]).

End Pipeline.

(** ** Facts about the string methods *)

Module PyFacts.
Import Py.

Lemma append_nil (s : string) : EmptyString +:+ s = s.
Proof. reflexivity. Qed.

Lemma append_cons (c : ascii) (a b : string) :
  String c a +:+ b = String c (a +:+ b).
Proof. reflexivity. Qed.

Lemma append_assoc (a b c : string) : (a +:+ b) +:+ c = a +:+ (b +:+ c).
Proof.
  induction a as [|x a IH]; [reflexivity|].
  rewrite !append_cons, IH. reflexivity.
Qed.

Lemma length_append (a b : string) :
  String.length (a +:+ b) = (String.length a + String.length b)%nat.
Proof.
  induction a as [|x a IH]; [reflexivity|].
  rewrite append_cons. simpl. rewrite IH. reflexivity.
Qed.

Lemma append_inv_tail (a b c : string) : a +:+ c = b +:+ c -> a = b.
Proof.
  revert b. induction a as [|x a IH]; intros [|y b] H.
  - reflexivity.
  - apply (f_equal String.length) in H.
    rewrite append_nil, append_cons in H. simpl in H.
    rewrite length_append in H. lia.
  - apply (f_equal String.length) in H.
    rewrite append_nil, append_cons in H. simpl in H.
    rewrite length_append in H. lia.
  - rewrite !append_cons in H. injection H as Hx H.
    subst y. f_equal. apply IH. exact H.
Qed.

Lemma prefix_cons (c d : ascii) (p s : string) :
  String.prefix (String c p) (String d s) =
  if ascii_dec c d then String.prefix p s else false.
Proof. reflexivity. Qed.

Lemma prefix_append (p s : string) : String.prefix p (p +:+ s) = true.
Proof.
  induction p as [|c p IH].
  - destruct s; reflexivity.
  - rewrite append_cons, prefix_cons.
    destruct (ascii_dec c c); [exact IH|congruence].
Qed.

Lemma contains_cons (p : string) (c : ascii) (r : string) :
  contains p (String c r) = String.prefix p (String c r) || contains p r.
Proof. reflexivity. Qed.




Lemma replace_from_cons (old new : string) (c : ascii) (r : string) :
  replace_from old new 0 (String c r) =
  if String.prefix old (String c r)
  then new +:+ replace_from old new (String.length old - 1) r
  else String c (replace_from old new 0 r).
Proof. reflexivity. Qed.

(** Without an occurrence, [replace] changes nothing. *)
Lemma replace_from_absent (old new s : string) :
  contains old s = false -> replace_from old new 0 s = s.
Proof.
  induction s as [|c r IH]; [reflexivity|].
  rewrite contains_cons. intros H.
  apply orb_false_elim in H as [Hp Hr].
  rewrite replace_from_cons, Hp, (IH Hr). reflexivity.
Qed.

Lemma replace_absent (s old new : string) :
  old <> EmptyString -> contains old s = false -> replace s old new = s.
Proof.
  intros Hne H. unfold replace.
  destruct old; [congruence|]. apply replace_from_absent. exact H.
Qed.

Lemma last_char_append (a p : string) :
  p <> EmptyString -> last_char (a +:+ p) = last_char p.
Proof.
  intros Hp. induction a as [|c a IH]; [reflexivity|].
  rewrite append_cons. simpl.
  destruct (a +:+ p) as [|d r] eqn:E; [|exact IH].
  destruct a; [|discriminate].
  rewrite append_nil in E. congruence.
Qed.

(** An occurrence of [p] that begins in [s] and is not inside [s] runs
    over into [t] with a non-empty end of [p]. *)
Lemma prefix_append_false (p s t : string) :
  String.prefix p s = false ->
  (forall a q, p = a +:+ q -> q <> EmptyString -> String.prefix q t = false) ->
  String.prefix p (s +:+ t) = false.
Proof.
  revert p. induction s as [|d s IH]; intros p Hp Hover.
  - rewrite append_nil. apply (Hover EmptyString p); [reflexivity|].
    intros ->. discriminate.
  - destruct p as [|c p]; [discriminate|].
    rewrite append_cons, prefix_cons. rewrite prefix_cons in Hp.
    destruct (ascii_dec c d); [|reflexivity].
    apply IH; [exact Hp|].
    intros a q -> Hq. apply (Hover (String c a) q); [reflexivity|exact Hq].
Qed.

Lemma contains_append_false (p s t : string) :
  contains p s = false ->
  contains p t = false ->
  (forall a q, p = a +:+ q -> q <> EmptyString -> String.prefix q t = false) ->
  contains p (s +:+ t) = false.
Proof.
  intros Hs Ht Hover. induction s as [|c s IH]; [exact Ht|].
  rewrite contains_cons in Hs. apply orb_false_elim in Hs as [Hp Hr].
  rewrite append_cons, contains_cons, (IH Hr), orb_false_r.
  rewrite <- append_cons. apply prefix_append_false; assumption.
Qed.

(** No prefix of [.csv] ends with a slash. *)
Lemma prefix_of_csv (q : string) :
  q <> EmptyString -> String.prefix q ".csv" = true -> last_char q <> Some "/"%char.
Proof.
  intros Hq H. apply String.prefix_correct in H.
  remember (String.length q) as n eqn:Hn. clear Hn.
  do 5 (destruct n as [|n]; [simpl in H; subst q; try congruence; discriminate|]).
  simpl in H. subst q. discriminate.
Qed.

End PyFacts.

(** ** Properties of the upload trigger *)

Module LambdaSpec.
Import Py Lambda.
Local Open Scope result_scope.
Local Open Scope lambda_scope.

(** *** One record of the loop *)

Lemma scan_qualifying (rec : PyVal) (rest : list PyVal) :
  qualifies rec = true -> scan_records (rec :: rest) = Ok true.
Proof.
  unfold qualifies, event_source, object_key.
  destruct rec as [| | | | |xs|items]; simpl; try discriminate.
  intros H. apply andb_prop in H as [Hsrc Hkey]. rewrite Hsrc.
  destruct (dict_lookup items "s3") as [[| | | | | |s3]|]; try discriminate.
  simpl.
  destruct (dict_lookup s3 "object") as [[| | | | | |obj]|]; try discriminate.
  simpl.
  destruct (dict_lookup obj "key") as [[| | | |key| |]|]; try discriminate.
  simpl. apply andb_prop in Hkey as [Hraw Hjson].
  rewrite Hraw. simpl. rewrite Hjson. reflexivity.
Qed.

Lemma scan_skips (rec : PyVal) (rest : list PyVal) :
  well_shaped rec = true -> qualifies rec = false ->
  scan_records (rec :: rest) = scan_records rest.
Proof.
  unfold well_shaped, qualifies, event_source, object_key.
  destruct rec as [| | | | |xs|items]; simpl; try discriminate.
  destruct (eq_str (default PNone (dict_lookup items "eventSource")) "aws:s3");
    [|reflexivity].
  destruct (dict_lookup items "s3") as [[| | | | | |s3]|]; try discriminate.
  simpl.
  destruct (dict_lookup s3 "object") as [[| | | | | |obj]|]; try discriminate.
  simpl.
  destruct (dict_lookup obj "key") as [[| | | |key| |]|]; try discriminate.
  simpl. intros _ H.
  destruct (startswith key "raw/"); simpl in *; [|reflexivity].
  rewrite H. reflexivity.
Qed.

Lemma scan_malformed (rec : PyVal) (rest : list PyVal) :
  well_shaped rec = false ->
  exists e, scan_records (rec :: rest) = Err e /\ is_Exception e = true.
Proof.
  unfold well_shaped, event_source, object_key.
  destruct rec as [| | | | |xs|items]; simpl; try (eexists; split; reflexivity).
  destruct (eq_str (default PNone (dict_lookup items "eventSource")) "aws:s3");
    [|discriminate].
  intros H.
  destruct (dict_lookup items "s3") as [[| | | | | |s3]|]; simpl;
    try (eexists; split; reflexivity).
  destruct (dict_lookup s3 "object") as [[| | | | | |obj]|]; simpl;
    try (eexists; split; reflexivity).
  destruct (dict_lookup obj "key") as [[| | | |key| |]|]; simpl;
    try (eexists; split; reflexivity).
  discriminate.
Qed.

Lemma malformed_not_qualifying (rec : PyVal) :
  well_shaped rec = false -> qualifies rec = false.
Proof.
  unfold well_shaped, qualifies.
  destruct rec as [| | | | |xs|items]; try reflexivity.
  destruct (eq_str (event_source (PDict items)) "aws:s3"); [|reflexivity].
  destruct (object_key (PDict items)); [discriminate|reflexivity].
Qed.

(** *** The whole loop *)

(** The loop returns [True], or runs to its end, or stops on an exception
    of class [Exception]; it returns [True] only at a qualifying record. *)
Lemma scan_records_cases (recs : list PyVal) :
  (scan_records recs = Ok true /\ exists r, In r recs /\ qualifies r = true) \/
  scan_records recs = Ok false \/
  (exists e, scan_records recs = Err e /\ is_Exception e = true).
Proof.
  induction recs as [|rec rest IH].
  - right. left. reflexivity.
  - destruct (qualifies rec) eqn:Hq.
    + left. split; [apply scan_qualifying; assumption|].
      exists rec. split; [left; reflexivity|assumption].
    + destruct (well_shaped rec) eqn:Hw.
      * rewrite (scan_skips rec rest Hw Hq).
        destruct IH as [[H [r [Hin Hr]]]|[H|H]].
        -- left. split; [assumption|]. exists r. split; [right|]; assumption.
        -- right. left. assumption.
        -- right. right. assumption.
      * right. right. apply scan_malformed. assumption.
Qed.

Lemma records_of_scan (event : PyVal) (recs : list PyVal) :
  (let? records := get event "Records" (PList []) in iter records) = Ok recs ->
  records_of event = recs /\ scan_event event = scan_records recs.
Proof.
  intros H. unfold records_of, scan_event. rewrite H.
  split; [reflexivity|].
  destruct (get event "Records" (PList [])) as [records|e]; simpl in *;
    [|discriminate].
  rewrite H. reflexivity.
Qed.

Lemma scan_event_error_class (event : PyVal) (e : PyExc) :
  scan_event event = Err e -> is_Exception e = true.
Proof.
  unfold scan_event. intros H.
  destruct (get event "Records" (PList [])) as [records|e0] eqn:Hg; simpl in H.
  - destruct (iter records) as [recs|e1] eqn:Hi; simpl in H.
    + destruct (scan_records_cases recs) as [[H1 _]|[H1|[e2 [H1 H2]]]];
        congruence.
    + destruct records; simpl in Hi; try discriminate;
        inversion Hi; subst; inversion H; reflexivity.
  - destruct event; simpl in Hg; try discriminate;
      inversion Hg; subst; inversion H; reflexivity.
Qed.

Lemma should_process_true (event : PyVal) :
  _should_process event = Ok true ->
  exists r, In r (records_of event) /\ qualifies r = true.
Proof.
  unfold _should_process. intros H.
  destruct (let? records := get event "Records" (PList []) in iter records)
    as [recs|e] eqn:Hrecs.
  - destruct (records_of_scan event recs Hrecs) as [Hr Hs].
    rewrite Hs in H. rewrite Hr.
    destruct (scan_records_cases recs) as [[_ Hex]|[H1|[e2 [H1 H2]]]].
    + exact Hex.
    + rewrite H1 in H. discriminate.
    + rewrite H1, H2 in H. discriminate.
  - unfold scan_event in H.
    destruct (get event "Records" (PList [])) as [records|e0]; simpl in *.
    + rewrite Hrecs in H. simpl in H.
      destruct (is_Exception e); discriminate.
    + destruct (is_Exception e0); discriminate.
Qed.

(** *** The waiter and the handler's [try] *)

Lemma with_trace_trace (w : World) (tr : list Event) : trace (with_trace w tr) = tr.
Proof. reflexivity. Qed.

Lemma with_trace_twice (w : World) (tr tr' : list Event) :
  with_trace (with_trace w tr) tr' = with_trace w tr'.
Proof. reflexivity. Qed.

(** One poll of the waiter. *)
Lemma waiter_poll_step (name : string) (ids : list string) (delay : Z)
    (remaining attempt : nat) (w : World) :
  waiter_poll name ids delay remaining attempt w =
    let w1 := with_trace w (trace w ++ [EvDescribeInstanceStatus ids]) in
    match ec2_instance_status w attempt with
    | PollSuccess => (Ok tt, w1)
    | PollFailure reason => (Err (waiter_error name reason), w1)
    | PollRaise e => (Err e, w1)
    | PollRetry =>
        match remaining with
        | O => (Err (waiter_error name "Max attempts exceeded"), w1)
        | S r =>
            waiter_poll name ids delay r (S attempt)
              (with_trace w (trace w ++ [EvDescribeInstanceStatus ids; EvSleep delay]))
        end
    end.
Proof.
  destruct remaining as [|r]; simpl;
    unfold bind, describe_instance_status, emit, sleep, ret, raise; simpl;
    destruct (ec2_instance_status w attempt); try reflexivity.
  rewrite with_trace_twice, with_trace_trace, <- app_assoc. reflexivity.
Qed.

(** The waiter polls [k + 1] times for some [k <= remaining], sleeping
    [delay] seconds between two polls; when every poll says "not yet" it
    uses all its attempts and raises. *)
Lemma waiter_poll_spec (name : string) (ids : list string) (delay : Z)
    (remaining : nat) :
  forall (attempt : nat) (w : World),
  exists k, (k <= remaining)%nat /\
    snd (waiter_poll name ids delay remaining attempt w) =
      with_trace w (trace w ++ wait_rounds ids delay k) /\
    ((forall j, (j <= remaining)%nat -> ec2_instance_status w (attempt + j) = PollRetry) ->
     k = remaining /\
     fst (waiter_poll name ids delay remaining attempt w) =
       Err (waiter_error name "Max attempts exceeded")).
Proof.
  induction remaining as [|r IH]; intros attempt w;
    rewrite waiter_poll_step; cbv zeta;
    destruct (ec2_instance_status w attempt) eqn:Hobs;
    try (exists 0%nat; split; [lia|]; split; [reflexivity|];
         intros H; specialize (H 0%nat (Nat.le_0_l _));
         rewrite Nat.add_0_r in H; congruence).
  - exists 0%nat. split; [lia|]. split; [reflexivity|].
    intros _. split; reflexivity.
  - destruct (IH (S attempt)
                (with_trace w (trace w ++ [EvDescribeInstanceStatus ids; EvSleep delay])))
      as [k [Hk [Hw Hall]]].
    exists (S k). split; [lia|]. split.
    + rewrite Hw. simpl. unfold with_trace. simpl.
      rewrite <- app_assoc. reflexivity.
    + intros H.
      destruct Hall as [Hk' Hres].
      { intros j Hj. simpl. specialize (H (S j)).
        rewrite Nat.add_succ_r in H. apply H. lia. }
      split; [lia|exact Hres].
Qed.

Lemma count_if_app (f : Event -> bool) (tr tr' : list Event) :
  count_if f (tr ++ tr') = (count_if f tr + count_if f tr')%nat.
Proof. unfold count_if. rewrite List.filter_app, length_app. reflexivity. Qed.

Lemma wait_rounds_counts (ids : list string) (delay : Z) (k : nat) :
  count_if is_poll (wait_rounds ids delay k) = S k /\
  count_if is_sleep (wait_rounds ids delay k) = k /\
  List.filter is_start (wait_rounds ids delay k) = [] /\
  (forall secs, In (EvSleep secs) (wait_rounds ids delay k) -> secs = delay).
Proof.
  induction k as [|k [IH1 [IH2 [IH3 IH4]]]]; simpl.
  - repeat split; try reflexivity.
    intros secs [H|[]]. discriminate.
  - unfold count_if in *. simpl. rewrite IH1, IH2, IH3.
    repeat split; try reflexivity.
    intros secs [H|[H|H]]; [discriminate|congruence|auto].
Qed.

(** The body of the [try], once the state of the instance was read. *)
Lemma ensure_running_eq (id : string) (w : World) (desc state : PyVal) :
  ec2_describe_instances w = Ok desc ->
  instance_state desc = Ok state ->
  ensure_running id w =
    if needs_start state then
      match ec2_start_instances w with
      | Ok _ =>
          (waiter_wait "InstanceStatusOk" [id] 10 30 ;; ret (started id))
            (with_trace w (trace w ++ [EvDescribeInstances [id]; EvStartInstances [id]]))
      | Err e =>
          (Err e,
           with_trace w (trace w ++ [EvDescribeInstances [id]; EvStartInstances [id]]))
      end
    else
      (waiter_wait "InstanceStatusOk" [id] 10 30 ;; ret (started id))
        (with_trace w (trace w ++ [EvDescribeInstances [id]])).
Proof.
  intros Hd Hs.
  unfold ensure_running, describe_instances.
  unfold bind at 1. unfold bind at 1. unfold emit at 1. simpl.
  rewrite Hd. unfold bind at 1. unfold lift at 1. rewrite Hs.
  destruct (needs_start state).
  - unfold bind at 1. unfold bind at 1. unfold start_instances at 1.
    unfold bind at 1. unfold emit at 1. simpl.
    rewrite <- app_assoc. simpl.
    destruct (ec2_start_instances w); reflexivity.
  - unfold bind at 1. unfold bind at 1. unfold ret at 1. reflexivity.
Qed.

(** Whatever the services answer, the [try] first asks for the state of
    the instance; after that it issues at most one start request and at
    most one wait. *)
Lemma ensure_running_trace (id : string) (w : World) :
  exists starts waits,
    snd (ensure_running id w) =
      with_trace w (trace w ++ EvDescribeInstances [id] :: starts ++ waits) /\
    (starts = [] \/ starts = [EvStartInstances [id]]) /\
    (waits = [] \/ exists k, (k <= 29)%nat /\ waits = wait_rounds [id] 10 k) /\
    (forall desc state,
       ec2_describe_instances w = Ok desc -> instance_state desc = Ok state ->
       starts = if needs_start state then [EvStartInstances [id]] else []).
Proof.
  destruct (ec2_describe_instances w) as [desc|e] eqn:Hd.
  - destruct (instance_state desc) as [state|e] eqn:Hs.
    + rewrite (ensure_running_eq id w desc state Hd Hs).
      assert (Hwait : forall w0,
                 exists k, (k <= 29)%nat /\
                   snd ((waiter_wait "InstanceStatusOk" [id] 10 30 ;; ret (started id)) w0)
                   = with_trace w0 (trace w0 ++ wait_rounds [id] 10 k)).
      { intros w0.
        destruct (waiter_poll_spec "InstanceStatusOk" [id] 10 29 0 w0)
          as [k [Hk [Hw _]]].
        exists k. split; [exact Hk|].
        unfold bind, waiter_wait. simpl Nat.sub.
        destruct (waiter_poll "InstanceStatusOk" [id] 10 29 0 w0) as [[[]|e] w1];
          simpl in *; exact Hw. }
      destruct (needs_start state) eqn:Hn.
      * destruct (ec2_start_instances w) as [v|e].
        -- destruct (Hwait (with_trace w (trace w ++ [EvDescribeInstances [id];
                                                      EvStartInstances [id]])))
             as [k [Hk Hw]].
           exists [EvStartInstances [id]], (wait_rounds [id] 10 k).
           split; [|split; [right; reflexivity|split]].
           ++ rewrite Hw. simpl. unfold with_trace. simpl.
              rewrite <- app_assoc. reflexivity.
           ++ right. exists k. split; [exact Hk|reflexivity].
           ++ intros d s Hd' Hs'.
              assert (d = desc) by congruence. subst d.
              assert (s = state) by congruence. subst s.
              rewrite Hn. reflexivity.
        -- exists [EvStartInstances [id]], [].
           split; [reflexivity|split; [right; reflexivity|split]].
           ++ left. reflexivity.
           ++ intros d s Hd' Hs'.
              assert (d = desc) by congruence. subst d.
              assert (s = state) by congruence. subst s.
              rewrite Hn. reflexivity.
      * destruct (Hwait (with_trace w (trace w ++ [EvDescribeInstances [id]])))
          as [k [Hk Hw]].
        exists [], (wait_rounds [id] 10 k).
        split; [|split; [left; reflexivity|split]].
        -- rewrite Hw. simpl. unfold with_trace. simpl.
           rewrite <- app_assoc. reflexivity.
        -- right. exists k. split; [exact Hk|reflexivity].
        -- intros d s Hd' Hs'.
           assert (d = desc) by congruence. subst d.
           assert (s = state) by congruence. subst s.
           rewrite Hn. reflexivity.
    + exists [], []. split; [|split; [left; reflexivity|split]].
      * unfold ensure_running, describe_instances.
        unfold bind at 1. unfold bind at 1. unfold emit at 1. simpl.
        rewrite Hd. unfold bind at 1. unfold lift at 1. rewrite Hs. reflexivity.
      * left. reflexivity.
      * intros d s Hd' Hs'. congruence.
  - exists [], []. split; [|split; [left; reflexivity|split]].
    + unfold ensure_running, describe_instances.
      unfold bind at 1. unfold bind at 1. unfold emit at 1. simpl.
      rewrite Hd. reflexivity.
    + left. reflexivity.
    + intros d s Hd' Hs'. congruence.
Qed.

(** The [except ClientError] clause logs one line and raises again: the
    outcome is that of the body. *)
Lemma logged_reraise (body : M PyVal) (w : World) :
  let handled :=
    try_except_ClientError body
      (fun e => print ("EC2 error: " +:+ exc_msg e) ;; raise e) w in
  fst handled = fst (body w) /\
  exists log,
    snd handled = with_trace (snd (body w)) (trace (snd (body w)) ++ log) /\
    (log = [] \/ exists line, log = [EvPrint line]).
Proof.
  unfold try_except_ClientError.
  destruct (body w) as [[a|e] w1]; simpl.
  - split; [reflexivity|]. exists []. rewrite app_nil_r.
    split; [destruct w1; reflexivity|left; reflexivity].
  - destruct (is_ClientError e); simpl.
    + split; [reflexivity|]. eexists. split; [reflexivity|].
      right. eexists. reflexivity.
    + split; [reflexivity|]. exists []. rewrite app_nil_r.
      split; [destruct w1; reflexivity|left; reflexivity].
Qed.

(** The handler on an actionable event, with the instance configured. *)
Lemma handler_actionable (id : string) (event context : PyVal) (w : World) :
  id <> EmptyString ->
  _should_process event = Ok true ->
  lambda_handler (Some id) event context w =
    try_except_ClientError (ensure_running id)
      (fun e => print ("EC2 error: " +:+ exc_msg e) ;; raise e) w.
Proof.
  intros Hid Hp. unfold lambda_handler.
  destruct id as [|c r]; [congruence|]. simpl.
  unfold bind at 1. unfold lift at 1. rewrite Hp. reflexivity.
Qed.

Lemma scan_well_shaped_prefix (pre : list PyVal) (r : PyVal) (post : list PyVal) :
  Forall (fun x => well_shaped x = true) pre ->
  qualifies r = true ->
  scan_records (pre ++ r :: post) = Ok true.
Proof.
  intros Hpre Hr. induction Hpre as [|x pre Hx _ IH].
  - apply scan_qualifying. exact Hr.
  - simpl app. destruct (qualifies x) eqn:Hq.
    + apply scan_qualifying. exact Hq.
    + rewrite (scan_skips x _ Hx Hq). exact IH.
Qed.


(** When the event has records, the filter is the loop over them. *)
Lemma scan_event_records (event : PyVal) (r : PyVal) (recs : list PyVal) :
  records_of event = r :: recs -> scan_event event = scan_records (r :: recs).
Proof.
  intros H.
  destruct (let? records := get event "Records" (PList []) in iter records)
    as [recs0|e] eqn:Hrecs.
  - destruct (records_of_scan event recs0 Hrecs) as [Hr Hs]. congruence.
  - unfold records_of in H. rewrite Hrecs in H. discriminate.
Qed.

Lemma needs_start_iff (state : PyVal) :
  needs_start state = true <-> state = PStr "stopped" \/ state = PStr "stopping".
Proof.
  unfold needs_start, eq_str. split.
  - intros H. apply orb_prop in H.
    destruct state; try (destruct H; discriminate).
    destruct H as [H|H]; apply String.eqb_eq in H; subst; auto.
  - intros [H|H]; subst; reflexivity.
Qed.

Lemma should_process_returns (event : PyVal) :
  exists b, _should_process event = Ok b.
Proof.
  unfold _should_process.
  destruct (scan_event event) as [b|e] eqn:H; [eauto|].
  rewrite (scan_event_error_class _ _ H). eauto.
Qed.

(** *** The claims *)




(** C3.  With the instance configured, an event without a qualifying
    record is answered with [{"ok": True, "skipped": True}] and leaves the
    world as it was: no request is issued, to the compute service or
    otherwise. *)
Theorem no_qualifying_record_is_skipped
    (id : string) (event context : PyVal) (w : World) :
  id <> EmptyString ->
  (forall r, In r (records_of event) -> qualifies r = false) ->
  lambda_handler (Some id) event context w
  = (Ok (PDict [("ok", PBool true); ("skipped", PBool true)]), w) /\
  count_if is_compute_call (trace (snd (lambda_handler (Some id) event context w)))
  = count_if is_compute_call (trace w).
Proof.
  intros Hid Hnone.
  assert (Hp : _should_process event = Ok false).
  { destruct (should_process_returns event) as [b Hb].
    destruct b; [|exact Hb].
    destruct (should_process_true event Hb) as [r [Hin Hq]].
    rewrite (Hnone r Hin) in Hq. discriminate. }
  assert (Hh : lambda_handler (Some id) event context w
               = (Ok (PDict [("ok", PBool true); ("skipped", PBool true)]), w)).
  { unfold lambda_handler. destruct id as [|c r]; [congruence|]. simpl.
    unfold bind, lift. rewrite Hp. reflexivity. }
  split; [exact Hh|]. rewrite Hh. reflexivity.
Qed.

Lemma no_qualifying_record_is_skipped_witness :
  let event :=
    PDict [("Records",
            PList [PDict [("eventSource", PStr "aws:s3");
                          ("s3", PDict [("object", PDict [("key", PStr "logs/a.json")])])]])] in
  let w := mkWorld (Ok PNone) (Ok PNone) (fun _ => PollRetry) [] in
  lambda_handler (Some "i-0abc") event PNone w
  = (Ok (PDict [("ok", PBool true); ("skipped", PBool true)]), w).
Proof.
  intros event w.
  apply (no_qualifying_record_is_skipped "i-0abc" event PNone w).
  - discriminate.
  - intros r [H|[]]. subst r. reflexivity.
Defined.

(** C2, as stated, fails: a qualifying record does not help when a
    malformed record comes before it.  Here the first record is tagged as
    a storage put but has no [s3] member; the second one qualifies; the
    event is skipped and nothing is asked of the compute service. *)
Lemma qualifying_record_after_malformed_is_skipped :
  let malformed := PDict [("eventSource", PStr "aws:s3")] in
  let good :=
    PDict [("eventSource", PStr "aws:s3");
           ("s3", PDict [("object", PDict [("key", PStr "raw/data.json")])])] in
  let event := PDict [("Records", PList [malformed; good])] in
  let w := mkWorld (Ok PNone) (Ok PNone) (fun _ => PollSuccess) [] in
  (In good (records_of event) /\ qualifies good = true) /\
  lambda_handler (Some "i-0abc") event PNone w = (Ok skipped, w) /\
  ~ In (EvDescribeInstances ["i-0abc"])
       (trace (snd (lambda_handler (Some "i-0abc") event PNone w))).
Proof.
  cbv zeta. split; [split|split].
  - right. left. reflexivity.
  - reflexivity.
  - reflexivity.
  - intros [].
Qed.

(** C2, amended.  When a record of the event qualifies and every record
    before it is well shaped, the handler goes on to the readiness check:
    the first request it issues asks for the state of the instance.
    Well-shaped records that do not qualify are passed over. *)
Theorem qualifying_record_reaches_readiness_check
    (id : string) (event context : PyVal) (w : World)
    (pre : list PyVal) (r : PyVal) (post : list PyVal) :
  id <> EmptyString ->
  records_of event = pre ++ r :: post ->
  Forall (fun x => well_shaped x = true) pre ->
  qualifies r = true ->
  _should_process event = Ok true /\
  exists rest,
    trace (snd (lambda_handler (Some id) event context w))
    = trace w ++ EvDescribeInstances [id] :: rest.
Proof.
  intros Hid Hrecs Hpre Hr.
  assert (Hp : _should_process event = Ok true).
  { unfold _should_process.
    assert (Hs : scan_event event = scan_records (pre ++ r :: post)).
    { destruct pre; apply scan_event_records; exact Hrecs. }
    rewrite Hs, (scan_well_shaped_prefix pre r post Hpre Hr). reflexivity. }
  split; [exact Hp|].
  rewrite (handler_actionable id event context w Hid Hp).
  destruct (logged_reraise (ensure_running id) w) as [_ [log [Hw _]]].
  destruct (ensure_running_trace id w) as [starts [waits [Ht _]]].
  rewrite Hw, Ht. simpl.
  exists ((starts ++ waits) ++ log).
  rewrite <- app_assoc. reflexivity.
Qed.

Lemma qualifying_record_reaches_readiness_check_witness :
  let skippedrec := PDict [("eventSource", PStr "aws:sns")] in
  let good :=
    PDict [("eventSource", PStr "aws:s3");
           ("s3", PDict [("object", PDict [("key", PStr "raw/data.JSON")])])] in
  let event := PDict [("Records", PList [skippedrec; good])] in
  let w := mkWorld (Ok PNone) (Ok PNone) (fun _ => PollSuccess) [] in
  _should_process event = Ok true /\
  exists rest,
    trace (snd (lambda_handler (Some "i-0abc") event PNone w))
    = trace w ++ EvDescribeInstances ["i-0abc"] :: rest.
Proof.
  intros skippedrec good event w.
  apply (qualifying_record_reaches_readiness_check
           "i-0abc" event PNone w [skippedrec] good []).
  - discriminate.
  - reflexivity.
  - repeat constructor.
  - reflexivity.
Defined.

(** C4.  On an actionable event, with the instance configured and its
    state read, the handler issues exactly one start request, for that
    instance, when the state is [stopped] or [stopping], and none for any
    other state. *)
Theorem start_request_iff_stopped
    (id : string) (event context : PyVal) (w : World) (desc state : PyVal) :
  id <> EmptyString ->
  _should_process event = Ok true ->
  ec2_describe_instances w = Ok desc ->
  instance_state desc = Ok state ->
  exists tr,
    trace (snd (lambda_handler (Some id) event context w)) = trace w ++ tr /\
    (state = PStr "stopped" \/ state = PStr "stopping" ->
     List.filter is_start tr = [EvStartInstances [id]]) /\
    (state <> PStr "stopped" -> state <> PStr "stopping" ->
     List.filter is_start tr = []).
Proof.
  intros Hid Hp Hd Hs.
  rewrite (handler_actionable id event context w Hid Hp).
  destruct (logged_reraise (ensure_running id) w) as [_ [log [Hw Hlog]]].
  destruct (ensure_running_trace id w) as [starts [waits [Ht [_ [Hwaits Hstarts]]]]].
  specialize (Hstarts desc state Hd Hs).
  rewrite Hw, Ht. simpl.
  exists ((EvDescribeInstances [id] :: starts ++ waits) ++ log).
  split; [rewrite <- app_assoc; reflexivity|].
  assert (Hf : List.filter is_start ((EvDescribeInstances [id] :: starts ++ waits) ++ log)
               = starts).
  { rewrite List.filter_app. simpl. rewrite List.filter_app.
    assert (Hfw : List.filter is_start waits = []).
    { destruct Hwaits as [->|[k [_ ->]]]; [reflexivity|].
      apply wait_rounds_counts. }
    assert (Hfl : List.filter is_start log = []).
    { destruct Hlog as [->|[line ->]]; reflexivity. }
    rewrite Hfw, Hfl, !app_nil_r.
    rewrite Hstarts. destruct (needs_start state); reflexivity. }
  rewrite Hf, Hstarts. split.
  - intros H. apply needs_start_iff in H. rewrite H. reflexivity.
  - intros H1 H2. destruct (needs_start state) eqn:Hn; [|reflexivity].
    apply needs_start_iff in Hn. tauto.
Qed.

Lemma start_request_iff_stopped_witness :
  let event :=
    PDict [("Records",
            PList [PDict [("eventSource", PStr "aws:s3");
                          ("s3", PDict [("object", PDict [("key", PStr "raw/data.json")])])]])] in
  let desc :=
    PDict [("Reservations",
            PList [PDict [("Instances",
                           PList [PDict [("State", PDict [("Name", PStr "stopping")])]])]])] in
  let w := mkWorld (Ok desc) (Ok (PDict [])) (fun _ => PollSuccess) [] in
  exists tr,
    trace (snd (lambda_handler (Some "i-0abc") event PNone w)) = trace w ++ tr /\
    (PStr "stopping" = PStr "stopped" \/ PStr "stopping" = PStr "stopping" ->
     List.filter is_start tr = [EvStartInstances ["i-0abc"]]) /\
    (PStr "stopping" <> PStr "stopped" -> PStr "stopping" <> PStr "stopping" ->
     List.filter is_start tr = []).
Proof.
  intros event desc w.
  apply (start_request_iff_stopped "i-0abc" event PNone w desc (PStr "stopping")).
  - discriminate.
  - reflexivity.
  - reflexivity.
  - reflexivity.
Defined.

(** C9, as stated, fails in one point: the error of an exhausted wait
    does not name the instance.  The handler raises no error of its own
    there; what reaches the caller is the waiter's error, whose text has
    the waiter's name and the reason only. *)
Lemma exhausted_wait_error_omits_instance_id :
  let id := "i-0abc1234def567890" in
  let event :=
    PDict [("Records",
            PList [PDict [("eventSource", PStr "aws:s3");
                          ("s3", PDict [("object", PDict [("key", PStr "raw/data.json")])])]])] in
  let desc :=
    PDict [("Reservations",
            PList [PDict [("Instances",
                           PList [PDict [("State", PDict [("Name", PStr "running")])]])]])] in
  let w := mkWorld (Ok desc) (Ok (PDict [])) (fun _ => PollRetry) [] in
  _should_process event = Ok true /\
  exists e,
    fst (lambda_handler (Some id) event PNone w) = Err e /\
    exc_msg e = "Waiter InstanceStatusOk failed: Max attempts exceeded" /\
    contains id (exc_msg e) = false.
Proof.
  cbv zeta. split; [reflexivity|].
  eexists. split; [vm_compute; reflexivity|]. split; reflexivity.
Qed.

(** C9, amended.  The health wait after the (possible) start request
    polls at most 30 times, with a sleep of 10 seconds between two polls
    and so at most 29 sleeps.  When the instance is never healthy within
    those 30 polls, the handler fails with the waiter's own error, which
    reaches the caller as it is: the wait is not started again and the
    trace ends with the thirtieth poll. *)
Theorem health_wait_is_bounded
    (id : string) (event context : PyVal) (w : World) :
  id <> EmptyString ->
  _should_process event = Ok true ->
  (exists tr,
     trace (snd (lambda_handler (Some id) event context w)) = trace w ++ tr /\
     (count_if is_poll tr <= 30)%nat /\
     (count_if is_sleep tr <= 29)%nat /\
     (forall secs, In (EvSleep secs) tr -> secs = 10%Z)) /\
  (forall desc state,
     ec2_describe_instances w = Ok desc ->
     instance_state desc = Ok state ->
     (needs_start state = true -> exists v, ec2_start_instances w = Ok v) ->
     (forall k, (k < 30)%nat -> ec2_instance_status w k = PollRetry) ->
     fst (lambda_handler (Some id) event context w)
     = Err (waiter_error "InstanceStatusOk" "Max attempts exceeded") /\
     exists before,
       trace (snd (lambda_handler (Some id) event context w))
       = trace w ++ before ++ wait_rounds [id] 10 29).
Proof.
  intros Hid Hp.
  rewrite (handler_actionable id event context w Hid Hp).
  destruct (logged_reraise (ensure_running id) w) as [Hfst [log [Hw Hlog]]].
  split.
  - destruct (ensure_running_trace id w)
      as [starts [waits [Ht [Hstarts [Hwaits _]]]]].
    rewrite Hw, Ht. simpl.
    exists ((EvDescribeInstances [id] :: starts ++ waits) ++ log).
    split; [rewrite <- app_assoc; reflexivity|].
    assert (Hlogc : count_if is_poll log = 0%nat /\ count_if is_sleep log = 0%nat /\
                    forall secs, ~ In (EvSleep secs) log).
    { destruct Hlog as [->|[line ->]]; repeat split; try reflexivity.
      - intros secs [].
      - intros secs [H|[]]. discriminate. }
    assert (Hstartc : count_if is_poll starts = 0%nat /\ count_if is_sleep starts = 0%nat /\
                      forall secs, ~ In (EvSleep secs) starts).
    { destruct Hstarts as [->| ->]; repeat split; try reflexivity.
      - intros secs [].
      - intros secs [H|[]]. discriminate. }
    assert (Hwaitc : (count_if is_poll waits <= 30)%nat /\
                     (count_if is_sleep waits <= 29)%nat /\
                     forall secs, In (EvSleep secs) waits -> secs = 10%Z).
    { destruct Hwaits as [->|[k [Hk ->]]].
      - repeat split; unfold count_if; simpl; try lia.
      - destruct (wait_rounds_counts [id] 10 k) as [H1 [H2 [_ H4]]].
        rewrite H1, H2. repeat split; try lia. exact H4. }
    destruct Hlogc as [L1 [L2 L3]], Hstartc as [S1 [S2 S3]], Hwaitc as [W1 [W2 W3]].
    change (EvDescribeInstances [id] :: starts ++ waits)
      with ([EvDescribeInstances [id]] ++ starts ++ waits).
    rewrite !count_if_app, L1, L2, S1, S2.
    change (count_if is_poll [EvDescribeInstances [id]]) with 0%nat.
    change (count_if is_sleep [EvDescribeInstances [id]]) with 0%nat.
    repeat split; try lia.
    intros secs Hin.
    rewrite !in_app_iff in Hin.
    destruct Hin as [[[H|[]]|[H|H]]|H].
    + discriminate.
    + exfalso. exact (S3 secs H).
    + exact (W3 secs H).
    + exfalso. exact (L3 secs H).
  - intros desc state Hd Hs Hstart Hnever.
    assert (Hwait : forall w0,
               ec2_instance_status w0 = ec2_instance_status w ->
               (waiter_wait "InstanceStatusOk" [id] 10 30 ;; ret (started id)) w0
               = (Err (waiter_error "InstanceStatusOk" "Max attempts exceeded"),
                  with_trace w0 (trace w0 ++ wait_rounds [id] 10 29))).
    { intros w0 Hw0.
      destruct (waiter_poll_spec "InstanceStatusOk" [id] 10 29 0 w0)
        as [k [_ [Hsnd Hall]]].
      destruct Hall as [Hk Hres].
      { intros j Hj. rewrite Hw0. apply Hnever. simpl. lia. }
      subst k. unfold bind, waiter_wait. simpl Nat.sub.
      destruct (waiter_poll "InstanceStatusOk" [id] 10 29 0 w0) as [r w1].
      simpl in Hsnd, Hres. subst r w1. reflexivity. }
    assert (Hbody : exists before,
               ensure_running id w
               = (Err (waiter_error "InstanceStatusOk" "Max attempts exceeded"),
                  with_trace w (trace w ++ before ++ wait_rounds [id] 10 29))).
    { rewrite (ensure_running_eq id w desc state Hd Hs).
      destruct (needs_start state).
      - destruct (Hstart eq_refl) as [v Hv]. rewrite Hv.
        rewrite Hwait by reflexivity.
        exists [EvDescribeInstances [id]; EvStartInstances [id]].
        simpl. unfold with_trace. simpl. rewrite <- app_assoc. reflexivity.
      - rewrite Hwait by reflexivity.
        exists [EvDescribeInstances [id]].
        simpl. unfold with_trace. simpl. rewrite <- app_assoc. reflexivity. }
    destruct Hbody as [before Hbody].
    unfold try_except_ClientError. rewrite Hbody. simpl.
    split; [reflexivity|]. exists before. reflexivity.
Qed.

Lemma health_wait_is_bounded_witness :
  let event :=
    PDict [("Records",
            PList [PDict [("eventSource", PStr "aws:s3");
                          ("s3", PDict [("object", PDict [("key", PStr "raw/data.json")])])]])] in
  let desc :=
    PDict [("Reservations",
            PList [PDict [("Instances",
                           PList [PDict [("State", PDict [("Name", PStr "stopped")])]])]])] in
  let w := mkWorld (Ok desc) (Ok (PDict [])) (fun _ => PollRetry) [] in
  fst (lambda_handler (Some "i-0abc") event PNone w)
  = Err (waiter_error "InstanceStatusOk" "Max attempts exceeded") /\
  exists before,
    trace (snd (lambda_handler (Some "i-0abc") event PNone w))
    = trace w ++ before ++ wait_rounds ["i-0abc"] 10 29.
Proof.
  intros event desc w.
  refine (proj2 (health_wait_is_bounded "i-0abc" event PNone w _ _)
                desc (PStr "stopped") _ _ _ _).
  - discriminate.
  - reflexivity.
  - reflexivity.
  - reflexivity.
  - intros _. eexists. reflexivity.
  - intros k _. reflexivity.
Defined.

(** *** Further properties of the handler *)

Lemma wait_rounds_events (ids : list string) (delay : Z) (k : nat) (ev : Event) :
  In ev (wait_rounds ids delay k) ->
  ev = EvDescribeInstanceStatus ids \/ ev = EvSleep delay.
Proof.
  induction k as [|k IH]; simpl.
  - intros [H|[]]. auto.
  - intros [H|[H|H]]; auto.
Qed.

(** X1.  Whatever the event, the settings and the answers of the
    service, every request of one invocation names the configured
    instance and no other, the sleeps are of ten seconds, and at most one
    start request is made.  Without an instance id, be it unset or empty,
    or without a qualifying record nothing is requested at all. *)
Theorem handler_touches_only_the_configured_instance
    (iid : option string) (event context : PyVal) (w : World) :
  exists tr,
    trace (snd (lambda_handler iid event context w)) = trace w ++ tr /\
    (forall ev, In ev tr ->
       match ev with
       | EvDescribeInstances ids | EvStartInstances ids | EvDescribeInstanceStatus ids =>
           truthy iid = true /\ iid = Some (default EmptyString iid) /\
           ids = [default EmptyString iid]
       | EvSleep secs => secs = 10%Z
       | EvPrint _ => True
       end) /\
    (length (List.filter is_start tr) <= 1)%nat /\
    (truthy iid = false \/ _should_process event <> Ok true -> tr = []).
Proof.
  destruct (truthy iid) eqn:Hid.
  - destruct iid as [[|c r]|]; try discriminate.
    set (id := String c r).
    destruct (should_process_returns event) as [[|] Hp].
    + rewrite (handler_actionable id event context w ltac:(discriminate) Hp).
      destruct (logged_reraise (ensure_running id) w) as [_ [log [Hw Hlog]]].
      destruct (ensure_running_trace id w)
        as [starts [waits [Ht [Hstarts [Hwaits _]]]]].
      rewrite Hw, Ht. simpl.
      exists ((EvDescribeInstances [id] :: starts ++ waits) ++ log).
      split; [rewrite <- app_assoc; reflexivity|]. split; [|split].
      * intros ev Hin. rewrite in_app_iff in Hin. simpl in Hin.
        rewrite in_app_iff in Hin.
        destruct Hin as [[<-|[Hin|Hin]]|Hin].
        -- simpl. auto.
        -- destruct Hstarts as [->| ->]; [destruct Hin|].
           destruct Hin as [<-|[]]. simpl. auto.
        -- destruct Hwaits as [->|[k [_ ->]]]; [destruct Hin|].
           destruct (wait_rounds_events _ _ _ _ Hin) as [-> | ->]; simpl; auto.
        -- destruct Hlog as [->|[line ->]]; [destruct Hin|].
           destruct Hin as [<-|[]]. exact I.
      * rewrite List.filter_app. simpl. rewrite List.filter_app.
        assert (Hfw : List.filter is_start waits = []).
        { destruct Hwaits as [->|[k [_ ->]]]; [reflexivity|].
          apply wait_rounds_counts. }
        assert (Hfl : List.filter is_start log = []).
        { destruct Hlog as [->|[line ->]]; reflexivity. }
        rewrite Hfw, Hfl, !app_nil_r.
        destruct Hstarts as [->| ->]; simpl; lia.
      * intros [H|H]; [discriminate|congruence].
    + exists []. rewrite app_nil_r.
      assert (Hh : lambda_handler (Some id) event context w = (Ok skipped, w)).
      { unfold lambda_handler. simpl. unfold bind, lift. rewrite Hp. reflexivity. }
      rewrite Hh. split; [reflexivity|]. split; [intros ev []|].
      split; [simpl; lia|reflexivity].
  - exists []. rewrite app_nil_r. unfold lambda_handler. rewrite Hid. simpl.
    split; [reflexivity|]. split; [intros ev []|].
    split; [simpl; lia|reflexivity].
Qed.

Lemma scan_true_split (recs : list PyVal) :
  scan_records recs = Ok true ->
  exists pre r post,
    recs = pre ++ r :: post /\
    Forall (fun x => well_shaped x = true) pre /\ qualifies r = true.
Proof.
  induction recs as [|x rest IH]; [discriminate|].
  intros H. destruct (qualifies x) eqn:Hq.
  - exists [], x, rest. repeat split; [constructor|exact Hq].
  - destruct (well_shaped x) eqn:Hw.
    + rewrite (scan_skips x rest Hw Hq) in H.
      destruct (IH H) as [pre [r [post [-> [Hpre Hr]]]]].
      exists (x :: pre), r, post. repeat split; [constructor; assumption|exact Hr].
    + destruct (scan_malformed x rest Hw) as [e [He _]]. congruence.
Qed.

(** X2.  [_should_process] answers [True] exactly when some record
    qualifies and every record before it is well shaped. *)
Theorem should_process_true_iff (event : PyVal) :
  _should_process event = Ok true <->
  exists pre r post,
    records_of event = pre ++ r :: post /\
    Forall (fun x => well_shaped x = true) pre /\ qualifies r = true.
Proof.
  split.
  - intros H. unfold _should_process in H.
    destruct (let? records := get event "Records" (PList []) in iter records)%result
      as [recs|e] eqn:Hrecs.
    + destruct (records_of_scan event recs Hrecs) as [Hr Hs].
      rewrite Hs in H. rewrite Hr.
      destruct (scan_records recs) as [[|]|e] eqn:Hscan.
      * apply scan_true_split. exact Hscan.
      * discriminate.
      * destruct (is_Exception e); discriminate.
    + exfalso. unfold scan_event in H.
      destruct (get event "Records" (PList [])) as [records|e0]; simpl in *.
      * rewrite Hrecs in H. simpl in H. destruct (is_Exception e); discriminate.
      * destruct (is_Exception e0); discriminate.
  - intros [pre [r [post [Hrecs [Hpre Hr]]]]]. unfold _should_process.
    assert (Hs : scan_event event = scan_records (pre ++ r :: post)).
    { destruct pre; apply scan_event_records; exact Hrecs. }
    rewrite Hs, (scan_well_shaped_prefix pre r post Hpre Hr). reflexivity.
Qed.

Lemma lower_append (a b : string) : lower (a +:+ b) = lower a +:+ lower b.
Proof.
  induction a as [|c a IH]; [reflexivity|].
  change (String c a +:+ b) with (String c (a +:+ b)).
  simpl lower. rewrite IH. reflexivity.
Qed.

Lemma substring_all (b : string) : String.substring 0 (String.length b) b = b.
Proof. induction b as [|c b IH]; [reflexivity|]. simpl. rewrite IH. reflexivity. Qed.

Lemma substring_append (a b : string) :
  String.substring (String.length a) (String.length b) (a +:+ b) = b.
Proof.
  induction a as [|c a IH]; [apply substring_all|].
  change (String c a +:+ b) with (String c (a +:+ b)). simpl. exact IH.
Qed.

Lemma endswith_append (a b : string) : endswith (a +:+ b) b = true.
Proof.
  unfold endswith. rewrite PyFacts.length_append.
  replace (String.length a + String.length b - String.length b)%nat
    with (String.length a) by lia.
  rewrite substring_append, String.eqb_refl, andb_true_r.
  apply Nat.leb_le. lia.
Qed.

(** X3.  A record tagged [aws:s3] whose key is [raw/], any name, and an
    extension that reads [.json] in lower case qualifies, whatever the
    case of the extension and whatever else the record holds; an event
    with that record alone is actionable. *)
Theorem any_case_json_under_raw_is_actionable
    (rec : PyVal) (name ext : string) :
  event_source rec = PStr "aws:s3" ->
  object_key rec = Some ("raw/" +:+ name +:+ ext) ->
  lower ext = ".json" ->
  qualifies rec = true /\
  _should_process (PDict [("Records", PList [rec])]) = Ok true.
Proof.
  intros Hsrc Hkey Hext.
  assert (Hq : qualifies rec = true).
  { unfold qualifies. rewrite Hsrc, Hkey. simpl eq_str. cbv beta iota.
    apply andb_true_intro. split; [reflexivity|].
    apply andb_true_intro. split.
    - unfold startswith. apply PyFacts.prefix_append.
    - rewrite <- PyFacts.append_assoc, lower_append, Hext.
      apply endswith_append. }
  split; [exact Hq|].
  unfold _should_process.
  change (scan_event (PDict [("Records", PList [rec])])) with (scan_records [rec]).
  rewrite (scan_qualifying rec [] Hq). reflexivity.
Qed.

Lemma any_case_json_under_raw_is_actionable_witness :
  let rec :=
    PDict [("eventVersion", PStr "2.1"); ("eventSource", PStr "aws:s3");
           ("s3", PDict [("bucket", PDict [("name", PStr "b")]);
                         ("object", PDict [("key", PStr "raw/2024/batch.Json");
                                           ("size", PInt 120)])])] in
  qualifies rec = true /\
  _should_process (PDict [("Records", PList [rec])]) = Ok true.
Proof.
  intros rec.
  apply (any_case_json_under_raw_is_actionable rec "2024/batch" ".Json");
    reflexivity.
Defined.

(** The waiter returns at the first poll that says the instance is
    healthy. *)
Lemma waiter_poll_success (name : string) (ids : list string) (delay : Z) (k : nat) :
  forall (remaining attempt : nat) (w : World),
    (k <= remaining)%nat ->
    (forall j, (j < k)%nat -> ec2_instance_status w (attempt + j) = PollRetry) ->
    ec2_instance_status w (attempt + k) = PollSuccess ->
    waiter_poll name ids delay remaining attempt w =
    (Ok tt, with_trace w (trace w ++ wait_rounds ids delay k)).
Proof.
  induction k as [|k IH]; intros remaining attempt w Hk Hretry Hok;
    rewrite waiter_poll_step; cbv zeta.
  - rewrite Nat.add_0_r in Hok. rewrite Hok. reflexivity.
  - assert (H0 := Hretry 0%nat (Nat.lt_0_succ k)).
    rewrite Nat.add_0_r in H0. rewrite H0.
    destruct remaining as [|r]; [lia|].
    rewrite IH.
    + unfold with_trace. simpl. rewrite <- app_assoc. reflexivity.
    + lia.
    + intros j Hj. simpl. rewrite <- Nat.add_succ_r. apply Hretry. lia.
    + simpl. rewrite <- Nat.add_succ_r. exact Hok.
Qed.

(** X4.  On an actionable event, when the state of the instance can be
    read, a needed start request is accepted and the instance is healthy
    at poll number [k] (counted from 0, [k < 30]) and not before, the
    handler returns [{"ok": True, "instance": id}]; it has asked for the
    state once, started the instance if it was stopped or stopping, and
    polled [k + 1] times with ten seconds between polls. *)
Theorem healthy_instance_is_reported
    (id : string) (event context : PyVal) (w : World) (desc state : PyVal) (k : nat) :
  id <> EmptyString ->
  _should_process event = Ok true ->
  ec2_describe_instances w = Ok desc ->
  instance_state desc = Ok state ->
  (needs_start state = true -> exists v, ec2_start_instances w = Ok v) ->
  (k < 30)%nat ->
  (forall j, (j < k)%nat -> ec2_instance_status w j = PollRetry) ->
  ec2_instance_status w k = PollSuccess ->
  lambda_handler (Some id) event context w =
  (Ok (PDict [("ok", PBool true); ("instance", PStr id)]),
   with_trace w
     (trace w ++ EvDescribeInstances [id]
        :: (if needs_start state then [EvStartInstances [id]] else [])
        ++ wait_rounds [id] 10 k)).
Proof.
  intros Hid Hp Hd Hs Hstart Hk Hretry Hok.
  rewrite (handler_actionable id event context w Hid Hp).
  assert (Hwait : forall w0,
             ec2_instance_status w0 = ec2_instance_status w ->
             (waiter_wait "InstanceStatusOk" [id] 10 30 ;; ret (started id)) w0
             = (Ok (PDict [("ok", PBool true); ("instance", PStr id)]),
                with_trace w0 (trace w0 ++ wait_rounds [id] 10 k))).
  { intros w0 Hw0. unfold bind, waiter_wait. simpl Nat.sub.
    rewrite (waiter_poll_success "InstanceStatusOk" [id] 10 k 29 0 w0).
    - reflexivity.
    - lia.
    - intros j Hj. rewrite Hw0. apply Hretry. exact Hj.
    - rewrite Hw0. exact Hok. }
  unfold try_except_ClientError.
  rewrite (ensure_running_eq id w desc state Hd Hs).
  destruct (needs_start state).
  - destruct (Hstart eq_refl) as [v Hv]. rewrite Hv.
    rewrite Hwait by reflexivity.
    unfold with_trace. simpl. rewrite <- app_assoc. reflexivity.
  - rewrite Hwait by reflexivity.
    unfold with_trace. simpl. rewrite <- app_assoc. reflexivity.
Qed.

Lemma healthy_instance_is_reported_witness :
  let event :=
    PDict [("Records",
            PList [PDict [("eventSource", PStr "aws:s3");
                          ("s3", PDict [("object", PDict [("key", PStr "raw/data.json")])])]])] in
  let desc :=
    PDict [("Reservations",
            PList [PDict [("Instances",
                           PList [PDict [("State", PDict [("Name", PStr "stopped")])]])]])] in
  let w := mkWorld (Ok desc) (Ok (PDict []))
                   (fun n => if (n <? 2)%nat then PollRetry else PollSuccess) [] in
  lambda_handler (Some "i-0abc") event PNone w =
  (Ok (PDict [("ok", PBool true); ("instance", PStr "i-0abc")]),
   with_trace w
     [EvDescribeInstances ["i-0abc"]; EvStartInstances ["i-0abc"];
      EvDescribeInstanceStatus ["i-0abc"]; EvSleep 10;
      EvDescribeInstanceStatus ["i-0abc"]; EvSleep 10;
      EvDescribeInstanceStatus ["i-0abc"]]).
Proof.
  intros event desc w.
  apply (healthy_instance_is_reported "i-0abc" event PNone w desc (PStr "stopped") 2).
  - discriminate.
  - reflexivity.
  - reflexivity.
  - reflexivity.
  - intros _. eexists. reflexivity.
  - lia.
  - intros j Hj. destruct j as [|[|j]]; [reflexivity|reflexivity|lia].
  - reflexivity.
Defined.

Lemma ensure_running_describe_fails (id : string) (w : World) (e : PyExc) :
  ec2_describe_instances w = Err e ->
  ensure_running id w = (Err e, with_trace w (trace w ++ [EvDescribeInstances [id]])).
Proof.
  intros Hd. unfold ensure_running, describe_instances.
  unfold bind at 1. unfold bind at 1. unfold emit at 1. simpl.
  rewrite Hd. reflexivity.
Qed.

Lemma ensure_running_state_fails (id : string) (w : World) (desc : PyVal) (e : PyExc) :
  ec2_describe_instances w = Ok desc ->
  instance_state desc = Err e ->
  ensure_running id w = (Err e, with_trace w (trace w ++ [EvDescribeInstances [id]])).
Proof.
  intros Hd Hs. unfold ensure_running, describe_instances.
  unfold bind at 1. unfold bind at 1. unfold emit at 1. simpl.
  rewrite Hd. unfold bind at 1. unfold lift at 1. rewrite Hs. reflexivity.
Qed.

(** X5.  A [ClientError] of the state request or of the start request is
    logged as one line, [EC2 error: ...], and raised again as it is; the
    handler requests nothing after the failed call, so no wait is
    started. *)
Theorem client_error_is_logged_and_raised_again
    (id : string) (event context : PyVal) (w : World) (e : PyExc) :
  id <> EmptyString ->
  _should_process event = Ok true ->
  is_ClientError e = true ->
  (ec2_describe_instances w = Err e ->
   lambda_handler (Some id) event context w =
   (Err e,
    with_trace w (trace w ++ [EvDescribeInstances [id];
                              EvPrint ("EC2 error: " +:+ exc_msg e)]))) /\
  (forall desc state,
     ec2_describe_instances w = Ok desc ->
     instance_state desc = Ok state ->
     needs_start state = true ->
     ec2_start_instances w = Err e ->
     lambda_handler (Some id) event context w =
     (Err e,
      with_trace w (trace w ++ [EvDescribeInstances [id]; EvStartInstances [id];
                                EvPrint ("EC2 error: " +:+ exc_msg e)]))).
Proof.
  intros Hid Hp He.
  rewrite (handler_actionable id event context w Hid Hp).
  unfold try_except_ClientError. split.
  - intros Hd.
    rewrite (ensure_running_describe_fails id w e Hd), He.
    unfold bind, print, emit, raise, with_trace. simpl.
    rewrite <- app_assoc. reflexivity.
  - intros desc state Hd Hs Hn Hstart.
    rewrite (ensure_running_eq id w desc state Hd Hs), Hn, Hstart, He.
    unfold bind, print, emit, raise, with_trace. simpl.
    rewrite <- app_assoc. reflexivity.
Qed.

Lemma client_error_is_logged_and_raised_again_witness :
  let event :=
    PDict [("Records",
            PList [PDict [("eventSource", PStr "aws:s3");
                          ("s3", PDict [("object", PDict [("key", PStr "raw/data.json")])])]])] in
  let denied :=
    mkExc ClientError
      "An error occurred (UnauthorizedOperation) when calling the DescribeInstances operation" in
  let w := mkWorld (Err denied) (Ok (PDict [])) (fun _ => PollSuccess) [] in
  lambda_handler (Some "i-0abc") event PNone w =
  (Err denied,
   with_trace w [EvDescribeInstances ["i-0abc"];
                 EvPrint ("EC2 error: " +:+ exc_msg denied)]).
Proof.
  intros event denied w.
  apply (proj1 (client_error_is_logged_and_raised_again
                  "i-0abc" event PNone w denied
                  ltac:(discriminate) eq_refl eq_refl)).
  reflexivity.
Defined.

Lemma getitem_str_error_class (v : PyVal) (k : string) (e : PyExc) :
  getitem_str v k = Err e -> exc_class e = KeyError \/ exc_class e = TypeError.
Proof.
  destruct v; simpl; try (intros H; injection H as <-; auto).
  destruct (dict_lookup items k); intros H; [discriminate|].
  injection H as <-. auto.
Qed.

Lemma getitem_0_error_class (v : PyVal) (e : PyExc) :
  getitem_0 v = Err e ->
  exc_class e = KeyError \/ exc_class e = TypeError \/ exc_class e = IndexError.
Proof.
  destruct v as [| | | |s|xs|items]; simpl;
    try (intros H; injection H as <-; auto).
  - destruct s; intros H; [|discriminate]. injection H as <-. auto.
  - destruct xs; intros H; [|discriminate]. injection H as <-. auto.
Qed.

Lemma instance_state_error_class (desc : PyVal) (e : PyExc) :
  instance_state desc = Err e ->
  exc_class e = KeyError \/ exc_class e = TypeError \/ exc_class e = IndexError.
Proof.
  unfold instance_state. intros H.
  destruct (getitem_str desc "Reservations") as [v1|e1] eqn:H1; simpl in H;
    [|injection H as <-; destruct (getitem_str_error_class _ _ _ H1); auto].
  destruct (getitem_0 v1) as [v2|e2] eqn:H2; simpl in H;
    [|injection H as <-; exact (getitem_0_error_class _ _ H2)].
  destruct (getitem_str v2 "Instances") as [v3|e3] eqn:H3; simpl in H;
    [|injection H as <-; destruct (getitem_str_error_class _ _ _ H3); auto].
  destruct (getitem_0 v3) as [v4|e4] eqn:H4; simpl in H;
    [|injection H as <-; exact (getitem_0_error_class _ _ H4)].
  destruct (getitem_str v4 "State") as [v5|e5] eqn:H5; simpl in H;
    [|injection H as <-; destruct (getitem_str_error_class _ _ _ H5); auto].
  destruct (getitem_str_error_class _ _ _ H); auto.
Qed.

(** X6.  When the answer of the state request has not the expected shape,
    no reservation, no instance, a missing member, the lookup raises a
    [KeyError], [IndexError] or [TypeError]; the handler lets it through
    without a log line and requests neither a start nor a wait. *)
Theorem unreadable_state_is_raised_unlogged
    (id : string) (event context : PyVal) (w : World) (desc : PyVal) (e : PyExc) :
  id <> EmptyString ->
  _should_process event = Ok true ->
  ec2_describe_instances w = Ok desc ->
  instance_state desc = Err e ->
  lambda_handler (Some id) event context w =
  (Err e, with_trace w (trace w ++ [EvDescribeInstances [id]])) /\
  (exc_class e = KeyError \/ exc_class e = TypeError \/ exc_class e = IndexError).
Proof.
  intros Hid Hp Hd Hs.
  assert (Hclass := instance_state_error_class desc e Hs).
  split; [|exact Hclass].
  rewrite (handler_actionable id event context w Hid Hp).
  unfold try_except_ClientError.
  rewrite (ensure_running_state_fails id w desc e Hd Hs).
  assert (Hc : is_ClientError e = false).
  { unfold is_ClientError. destruct Hclass as [->|[->| ->]]; reflexivity. }
  rewrite Hc. reflexivity.
Qed.

Lemma unreadable_state_is_raised_unlogged_witness :
  let event :=
    PDict [("Records",
            PList [PDict [("eventSource", PStr "aws:s3");
                          ("s3", PDict [("object", PDict [("key", PStr "raw/data.json")])])]])] in
  let desc := PDict [("Reservations", PList [])] in
  let w := mkWorld (Ok desc) (Ok (PDict [])) (fun _ => PollSuccess) [] in
  lambda_handler (Some "i-0abc") event PNone w =
  (Err (mkExc IndexError "list index out of range"),
   with_trace w [EvDescribeInstances ["i-0abc"]]).
Proof.
  intros event desc w.
  apply (proj1 (unreadable_state_is_raised_unlogged
                  "i-0abc" event PNone w desc
                  (mkExc IndexError "list index out of range")
                  ltac:(discriminate) eq_refl eq_refl eq_refl)).
Defined.

End LambdaSpec.

(** ** Properties of the pipeline runner *)

Module PipelineSpec.
Import Py PyFacts Pipeline.
Local Open Scope pipeline_scope.

(** *** The polling loop, round by round *)

Lemma wait_for_query_eq (fuel : nat) (qid : string) (timeout_sec : Z) (w : World) :
  wait_for_query fuel qid timeout_sec w =
  wait_loop fuel qid timeout_sec (time_readings (env w) (n_time w))
    (mkWorld (env w) (s3_objects w) (S (n_time w)) (n_start w) (n_get w)
             (trace w ++ [EvTimeTime])).
Proof. reflexivity. Qed.

Lemma shows_inv (w : World) (res : GetQueryExecutionOutput) (status : QueryStatus)
    (state : string) :
  shows w res status state ->
  exists info,
    athena_get_answers (env w) (n_get w) = Ok res /\
    QueryExecution res = Some info /\ Status info = Some status /\
    State status = Some state.
Proof.
  intros [Ha [Hs Hst]]. unfold status_of in Hs.
  destruct (QueryExecution res) as [info|] eqn:Hq; [|discriminate].
  exists info. auto.
Qed.

Lemma pending_shows (w : World) :
  is_pending (athena_get_answers (env w) (n_get w)) = true ->
  exists res status state,
    shows w res status state /\ is_terminal state = false.
Proof.
  unfold is_pending, shows. intros H.
  destruct (athena_get_answers (env w) (n_get w)) as [res|e]; [|discriminate].
  destruct (status_of res) as [status|] eqn:Hs; [|discriminate].
  destruct (State status) as [state|] eqn:Hst; [|discriminate].
  exists res, status, state. apply negb_true_iff in H. repeat split; auto.
Qed.

(** One turn of the loop, by what the poll shows. *)
Lemma wait_loop_step (fuel : nat) (qid : string) (timeout_sec : Z) (start : Q)
    (w : World) (res : GetQueryExecutionOutput) (status : QueryStatus)
    (state : string) :
  shows w res status state ->
  wait_loop (S fuel) qid timeout_sec start w =
  let polled :=
    mkWorld (env w) (s3_objects w) (n_time w) (n_start w) (S (n_get w))
            (trace w ++ [EvGetQueryExecution qid]) in
  if is_terminal state then
    if negb (String.eqb state "SUCCEEDED") then
      Some (Err (query_failed qid state (default "Unknown" (StateChangeReason status))),
            polled)
    else Some (Ok res, polled)
  else if Qlt_le_dec (inject_Z timeout_sec)
                     (time_readings (env w) (n_time w) - start) then
    Some (Err (query_timed_out qid),
          mkWorld (env w) (s3_objects w) (S (n_time w)) (n_start w) (S (n_get w))
                  (trace w ++ [EvGetQueryExecution qid; EvTimeTime]))
  else wait_loop fuel qid timeout_sec start (one_round qid w).
Proof.
  intros H. destruct (shows_inv _ _ _ _ H) as [info [Ha [Hq [Hs Hst]]]].
  cbn [wait_loop]. unfold bind at 1. unfold get_query_execution at 1.
  unfold bind at 1. unfold emit at 1. cbn [log env n_get].
  rewrite Ha. unfold bind at 1. unfold lift at 1. rewrite Hq.
  cbn [member]. unfold bind at 1. unfold lift at 1. rewrite Hs.
  cbn [member]. unfold bind at 1. unfold lift at 1. rewrite Hst.
  cbn [member]. cbv zeta.
  destruct (is_terminal state).
  - destruct (negb (String.eqb state "SUCCEEDED")); reflexivity.
  - unfold bind at 1. unfold time_time at 1. unfold bind at 1. unfold emit at 1.
    cbn [log env n_time s3_objects n_start n_get trace].
    destruct (Qlt_le_dec (inject_Z timeout_sec)
                         (time_readings (env w) (n_time w) - start)).
    + unfold raise. rewrite <- app_assoc. reflexivity.
    + unfold bind at 1. unfold time_sleep, emit, log, one_round.
      cbn [env n_time s3_objects n_start n_get trace].
      rewrite <- !app_assoc. reflexivity.
Qed.

(** The round in which the poll shows [SUCCEEDED]. *)
Lemma wait_loop_succeeded (fuel : nat) (qid : string) (timeout_sec : Z) (start : Q)
    (w : World) (res : GetQueryExecutionOutput) (status : QueryStatus) :
  shows w res status "SUCCEEDED" ->
  wait_loop (S fuel) qid timeout_sec start w =
  Some (Ok res,
        mkWorld (env w) (s3_objects w) (n_time w) (n_start w) (S (n_get w))
                (trace w ++ [EvGetQueryExecution qid])).
Proof. intros H. rewrite (wait_loop_step _ _ _ _ _ _ _ _ H). reflexivity. Qed.



(** A round in which the state is not terminal and there is time left:
    the loop sleeps two seconds and goes round again. *)
Lemma wait_loop_round (fuel : nat) (qid : string) (timeout_sec : Z) (start : Q)
    (w : World) :
  is_pending (athena_get_answers (env w) (n_get w)) = true ->
  ~ (inject_Z timeout_sec < time_readings (env w) (n_time w) - start)%Q ->
  wait_loop (S fuel) qid timeout_sec start w =
  wait_loop fuel qid timeout_sec start (one_round qid w).
Proof.
  intros Hp Hintime.
  destruct (pending_shows w Hp) as [res [status [state [H Hterm]]]].
  rewrite (wait_loop_step _ _ _ _ _ _ _ _ H). cbv zeta. rewrite Hterm.
  destruct (Qlt_le_dec (inject_Z timeout_sec)
                       (time_readings (env w) (n_time w) - start)) as [Hlate|_].
  - contradiction.
  - reflexivity.
Qed.

Lemma after_rounds_fields (qid : string) (n : nat) :
  forall w,
    env (after_rounds qid n w) = env w /\
    s3_objects (after_rounds qid n w) = s3_objects w /\
    n_time (after_rounds qid n w) = (n_time w + n)%nat /\
    n_start (after_rounds qid n w) = n_start w /\
    n_get (after_rounds qid n w) = (n_get w + n)%nat /\
    trace (after_rounds qid n w) = trace w ++ rounds qid n.
Proof.
  induction n as [|n IH]; intros w.
  - simpl. rewrite !Nat.add_0_r, app_nil_r. repeat split; reflexivity.
  - simpl after_rounds.
    destruct (IH (one_round qid w)) as [He [Hs [Ht [Hst [Hg Htr]]]]].
    rewrite He, Hs, Ht, Hst, Hg, Htr. simpl.
    rewrite <- app_assoc. repeat split; try reflexivity; lia.
Qed.

(** As long as the polls show a state that is not terminal and the clock
    has not run past the timeout, the loop goes on: [n] such rounds take
    the loop from [w] to [after_rounds qid n w]. *)
Lemma wait_loop_rounds (qid : string) (timeout_sec : Z) (start : Q) (n : nat) :
  forall (fuel : nat) (w : World),
    (forall k, (k < n)%nat ->
       is_pending (athena_get_answers (env w) (n_get w + k)) = true /\
       ~ (inject_Z timeout_sec < time_readings (env w) (n_time w + k) - start)%Q) ->
    wait_loop (n + fuel) qid timeout_sec start w =
    wait_loop fuel qid timeout_sec start (after_rounds qid n w).
Proof.
  induction n as [|n IH]; intros fuel w H; [reflexivity|].
  change (S n + fuel)%nat with (S (n + fuel)).
  destruct (H 0%nat (Nat.lt_0_succ n)) as [Hp Ht].
  rewrite !Nat.add_0_r in *.
  rewrite (wait_loop_round _ _ _ _ _ Hp Ht).
  simpl after_rounds. apply IH.
  intros k Hk. simpl. rewrite <- !Nat.add_succ_r. apply H. lia.
Qed.

(** *** The clock ends the loop *)

(** A turn of the loop either ends the call or, with time left, leads to
    the next turn. *)
Lemma wait_loop_turn (fuel : nat) (qid : string) (timeout_sec : Z) (start : Q)
    (w : World) :
  (exists r w', wait_loop (S fuel) qid timeout_sec start w = Some (r, w')) \/
  (~ (inject_Z timeout_sec < time_readings (env w) (n_time w) - start)%Q /\
   wait_loop (S fuel) qid timeout_sec start w =
   wait_loop fuel qid timeout_sec start (one_round qid w)).
Proof.
  destruct (athena_get_answers (env w) (n_get w)) as [res|e] eqn:Ha.
  - destruct (QueryExecution res) as [info|] eqn:Hq.
    + destruct (Status info) as [status|] eqn:Hs.
      * destruct (State status) as [state|] eqn:Hst.
        -- assert (Hshow : shows w res status state).
           { unfold shows, status_of. rewrite Hq. auto. }
           rewrite (wait_loop_step _ _ _ _ _ _ _ _ Hshow). cbv zeta.
           destruct (is_terminal state).
           ++ left. destruct (negb (String.eqb state "SUCCEEDED")); eauto.
           ++ destruct (Qlt_le_dec (inject_Z timeout_sec)
                                   (time_readings (env w) (n_time w) - start))
                as [Hlate|Hle].
              ** left. eauto.
              ** right. split; [|reflexivity].
                 intros Hlate. exact (Qlt_not_le _ _ Hlate Hle).
        -- left. cbn [wait_loop].
           unfold bind, get_query_execution, bind, emit, lift. cbn [log env n_get].
           rewrite Ha, Hq. cbn [member]. rewrite Hs. cbn [member]. rewrite Hst.
           eauto.
      * left. cbn [wait_loop].
        unfold bind, get_query_execution, bind, emit, lift. cbn [log env n_get].
        rewrite Ha, Hq. cbn [member]. rewrite Hs. eauto.
    + left. cbn [wait_loop].
      unfold bind, get_query_execution, bind, emit, lift. cbn [log env n_get].
      rewrite Ha, Hq. eauto.
  - left. cbn [wait_loop].
    unfold bind, get_query_execution, bind, emit, lift. cbn [log env n_get].
    rewrite Ha. eauto.
Qed.

(** When every reading of the clock in the loop is two seconds or more
    after the one before, as the sleep between them makes it, the loop
    ends within [fuel + 1] turns once [2 * fuel] seconds are more than
    what is left of the timeout, whatever the polls show. *)
Lemma wait_loop_terminates (qid : string) (timeout_sec : Z) (start : Q) (fuel : nat) :
  forall w,
    (forall k, (n_time w <= k)%nat ->
       (time_readings (env w) k + 2 <= time_readings (env w) (S k))%Q) ->
    (inject_Z timeout_sec <
     time_readings (env w) (n_time w) - start + 2 * inject_Z (Z.of_nat fuel))%Q ->
    exists r w', wait_loop (S fuel) qid timeout_sec start w = Some (r, w').
Proof.
  induction fuel as [|fuel IH]; intros w Hclock Hleft.
  - destruct (wait_loop_turn 0 qid timeout_sec start w) as [Hdone|[Hin _]];
      [exact Hdone|].
    exfalso. apply Hin. change (inject_Z (Z.of_nat 0)) with 0%Q in Hleft. lra.
  - destruct (wait_loop_turn (S fuel) qid timeout_sec start w) as [Hdone|[_ Hnext]];
      [exact Hdone|].
    rewrite Hnext. apply IH.
    + intros k Hk. apply (Hclock k). simpl in Hk. lia.
    + assert (Hstep := Hclock (n_time w) (Nat.le_refl _)).
      rewrite Nat2Z.inj_succ in Hleft. unfold Z.succ in Hleft.
      rewrite inject_Z_plus in Hleft.
      change (inject_Z 1) with 1%Q in Hleft.
      change (env (one_round qid w)) with (env w).
      change (n_time (one_round qid w)) with (S (n_time w)).
      lra.
Qed.

(** So [wait_for_query] returns or raises within [fuel + 1] polls as soon
    as [2 * fuel] exceeds the timeout: with the default of 300 seconds,
    within 152 polls. *)
Lemma wait_for_query_terminates (qid : string) (timeout_sec : Z) (w : World)
    (fuel : nat) :
  (time_readings (env w) (n_time w) <= time_readings (env w) (S (n_time w)))%Q ->
  (forall k, (n_time w < k)%nat ->
     (time_readings (env w) k + 2 <= time_readings (env w) (S k))%Q) ->
  (timeout_sec < 2 * Z.of_nat fuel)%Z ->
  exists r w', wait_for_query (S fuel) qid timeout_sec w = Some (r, w').
Proof.
  intros Hfirst Hclock Hfuel. rewrite wait_for_query_eq.
  apply wait_loop_terminates.
  - intros k Hk. simpl in Hk. apply Hclock. lia.
  - cbn [env n_time].
    assert (Hq : (inject_Z timeout_sec < inject_Z (2 * Z.of_nat fuel))%Q).
    { rewrite <- Zlt_Qlt. exact Hfuel. }
    rewrite inject_Z_mult in Hq. change (inject_Z 2) with 2%Q in Hq. lra.
Qed.

(** *** Rules for [triple] *)

Section Rules.
Variable e : Env.
Variable P : Event -> Prop.

Lemma triple_ret {A : Type} (a : A) (Q : A -> Prop) :
  Q a -> triple e P (ret a) Q.
Proof.
  intros HQ w r w' He H. injection H as Hr Hw; subst r w'.
  split; [exact He|]. split.
  - exists []. rewrite app_nil_r. split; [reflexivity|constructor].
  - intros a' Ha. inversion Ha; subst. exact HQ.
Qed.

Lemma triple_lift {A : Type} (x : result A) (Q : A -> Prop) :
  (forall a, x = Ok a -> Q a) -> triple e P (lift x) Q.
Proof.
  intros HQ w r w' He H. injection H as Hr Hw; subst r w'.
  split; [exact He|]. split.
  - exists []. rewrite app_nil_r. split; [reflexivity|constructor].
  - exact HQ.
Qed.

Lemma triple_raise {A : Type} (ex : PyExc) (Q : A -> Prop) :
  triple e P (raise ex) Q.
Proof. apply (triple_lift (Err ex)). intros a H. discriminate. Qed.

Lemma triple_out_of_fuel {A : Type} (Q : A -> Prop) :
  triple e P out_of_fuel Q.
Proof. intros w r w' He H. discriminate. Qed.

Lemma triple_bind {A B : Type} (m : M A) (k : A -> M B)
    (Q : A -> Prop) (R : B -> Prop) :
  triple e P m Q ->
  (forall a, Q a -> triple e P (k a) R) ->
  triple e P (bind m k) R.
Proof.
  intros Hm Hk w r w' He H. unfold bind in H.
  destruct (m w) as [[[a|ex] w1]|] eqn:Hmw; [| |discriminate].
  - destruct (Hm w (Ok a) w1 He Hmw) as [He1 [[tr1 [Ht1 HP1]] HQ]].
    destruct (Hk a (HQ a eq_refl) w1 r w' He1 H) as [He2 [[tr2 [Ht2 HP2]] HR]].
    split; [exact He2|]. split; [|exact HR].
    exists (tr1 ++ tr2). split.
    + rewrite Ht2, Ht1, app_assoc. reflexivity.
    + apply Forall_app. split; assumption.
  - injection H as Hr Hw; subst r w1.
    destruct (Hm w (Err ex) w' He Hmw) as [He1 [Htr _]].
    split; [exact He1|]. split; [exact Htr|].
    intros b Hb. discriminate.
Qed.

Lemma triple_weaken {A : Type} (m : M A) (Q Q' : A -> Prop) :
  triple e P m Q -> (forall a, Q a -> Q' a) -> triple e P m Q'.
Proof.
  intros Hm HQ w r w' He H.
  destruct (Hm w r w' He H) as [He1 [Htr Hr]].
  split; [exact He1|]. split; [exact Htr|].
  intros a Ha. apply HQ, Hr, Ha.
Qed.

Lemma triple_try_except {A : Type} (body : M A) (handler : PyExc -> M A)
    (Q : A -> Prop) :
  triple e P body Q ->
  (forall ex, triple e P (handler ex) Q) ->
  triple e P (try_except_Exception body handler) Q.
Proof.
  intros Hb Hh w r w' He H. unfold try_except_Exception in H.
  destruct (body w) as [[[a|ex] w1]|] eqn:Hbw; [| |discriminate].
  - injection H as Hr Hw; subst r w1. exact (Hb w (Ok a) w' He Hbw).
  - destruct (Hb w (Err ex) w1 He Hbw) as [He1 [[tr1 [Ht1 HP1]] _]].
    destruct (is_Exception ex).
    + destruct (Hh ex w1 r w' He1 H) as [He2 [[tr2 [Ht2 HP2]] HR]].
      split; [exact He2|]. split; [|exact HR].
      exists (tr1 ++ tr2). split.
      * rewrite Ht2, Ht1, app_assoc. reflexivity.
      * apply Forall_app. split; assumption.
    + injection H as Hr Hw; subst r w1.
      split; [exact He1|]. split; [eauto|].
      intros b Hb'. discriminate.
Qed.

(** A request followed by reading its answer off the world. *)
Lemma triple_call {A : Type} (ev : Event) (answer : World -> option (result A * World))
    (Q : A -> Prop) :
  P ev ->
  (forall w r w',
      env w = e -> answer w = Some (r, w') ->
      env w' = e /\ trace w' = trace w /\ (forall a, r = Ok a -> Q a)) ->
  triple e P (bind (emit ev) (fun _ => answer)) Q.
Proof.
  intros HP Hans w r w' He H. unfold bind, emit in H.
  destruct (Hans (log w [ev]) r w' He H) as [He1 [Ht HQ]].
  split; [exact He1|]. split; [|exact HQ].
  exists [ev]. split; [exact Ht|]. repeat constructor. exact HP.
Qed.

Lemma triple_emit (ev : Event) : P ev -> triple e P (emit ev) (fun _ => True).
Proof.
  intros HP w r w' He H. injection H as Hr Hw; subst r w'.
  split; [exact He|]. split; [|auto].
  exists [ev]. split; [reflexivity|]. repeat constructor. exact HP.
Qed.

Lemma triple_time_time : P EvTimeTime -> triple e P time_time (fun _ => True).
Proof.
  intros HP. apply triple_call; [exact HP|].
  intros w r w' He H. injection H as Hr Hw; subst r w'. auto.
Qed.

Lemma triple_utcnow : P EvUtcNow -> triple e P utcnow (fun now => now = utc_clock e).
Proof.
  intros HP. apply triple_call; [exact HP|].
  intros w r w' He H. injection H as Hr Hw; subst r w'.
  split; [exact He|]. split; [reflexivity|].
  intros a Ha. injection Ha as <-. rewrite He. reflexivity.
Qed.

Lemma triple_start_query_execution (req : StartQueryRequest) :
  P (EvStartQueryExecution req) ->
  triple e P (start_query_execution req) (fun _ => True).
Proof.
  intros HP. apply triple_call; [exact HP|].
  intros w r w' He H. injection H as Hr Hw; subst r w'. auto.
Qed.

Lemma triple_get_query_execution (qid : string) :
  P (EvGetQueryExecution qid) ->
  triple e P (get_query_execution qid) (fun _ => True).
Proof.
  intros HP. apply triple_call; [exact HP|].
  intros w r w' He H. injection H as Hr Hw; subst r w'. auto.
Qed.

Lemma triple_copy_object (b sb sk k : string) :
  P (EvCopyObject b sb sk k) ->
  triple e P (copy_object b sb sk k) (fun _ => True).
Proof.
  intros HP. apply triple_call; [exact HP|].
  intros w r w' He H.
  destruct (s3_fault (env w)); [injection H as Hr Hw; subst r w'; auto|].
  destruct (s3_objects w !! (sb, sk)); injection H as Hr Hw; subst r w'; auto.
Qed.

Lemma triple_urlopen (url : string) (timeout : Z) :
  P (EvUrlOpen url timeout) ->
  triple e P (urlopen_read_decode url timeout) (fun _ => True).
Proof.
  intros HP. apply triple_call; [exact HP|].
  intros w r w' He H. injection H as Hr Hw; subst r w'. auto.
Qed.

Lemma triple_terminate_instances (ids : list string) :
  P (EvTerminateInstances ids) ->
  triple e P (terminate_instances ids) (fun _ => True).
Proof.
  intros HP. apply triple_call; [exact HP|].
  intros w r w' He H. injection H as Hr Hw; subst r w'. auto.
Qed.

Lemma triple_wait_loop (qid : string) (timeout_sec : Z) (start : Q) (fuel : nat) :
  P (EvGetQueryExecution qid) -> P EvTimeTime -> P (EvSleep 2) ->
  triple e P (wait_loop fuel qid timeout_sec start) (fun _ => True).
Proof.
  intros Hget Htime Hsleep.
  induction fuel as [|fuel IH]; [apply triple_out_of_fuel|].
  cbn [wait_loop].
  eapply triple_bind; [apply triple_get_query_execution, Hget|].
  intros res _.
  eapply triple_bind; [apply triple_lift; intros; exact I|]. intros info _.
  eapply triple_bind; [apply triple_lift; intros; exact I|]. intros status _.
  eapply triple_bind; [apply triple_lift; intros; exact I|]. intros state _.
  destruct (is_terminal state).
  - destruct (negb (String.eqb state "SUCCEEDED"));
      [apply triple_raise|apply triple_ret; exact I].
  - eapply triple_bind; [apply triple_time_time, Htime|]. intros now _.
    destruct (Qlt_le_dec (inject_Z timeout_sec) (now - start));
      [apply triple_raise|].
    eapply triple_bind; [apply triple_emit, Hsleep|]. intros _ _. exact IH.
Qed.

Lemma triple_wait_for_query (qid : string) (timeout_sec : Z) (fuel : nat) :
  P (EvGetQueryExecution qid) -> P EvTimeTime -> P (EvSleep 2) ->
  triple e P (wait_for_query fuel qid timeout_sec) (fun _ => True).
Proof.
  intros Hget Htime Hsleep. unfold wait_for_query.
  eapply triple_bind; [apply triple_time_time, Htime|]. intros start _.
  apply triple_wait_loop; assumption.
Qed.

End Rules.

(** Every request of [main] is as [request_ok] says, and the surroundings
    are the same at the end of each step. *)
Lemma request_ok_other (cfg : Config) (now : datetime) (ev : Event) :
  match ev with
  | EvStartQueryExecution _ | EvCopyObject _ _ _ _ => True
  | _ => request_ok cfg now ev
  end.
Proof. destruct ev; exact I. Qed.

Lemma triple_run_query (e : Env) (now : datetime) (fuel : nat) (cfg : Config)
    (sql : string) (database : option string) :
  triple e (request_ok cfg now) (run_query fuel cfg sql database) (fun _ => True).
Proof.
  unfold run_query.
  eapply triple_bind; [apply triple_start_query_execution; reflexivity|].
  intros q _.
  eapply triple_bind; [apply triple_lift; intros; exact I|]. intros qid _.
  eapply triple_bind; [apply triple_wait_for_query; exact I|]. intros _ _.
  apply triple_ret. exact I.
Qed.

Lemma triple_produce (e : Env) (fuel : nat) (cfg : Config) :
  triple e (request_ok cfg (utc_clock e)) (produce fuel cfg) (fun _ => True).
Proof.
  unfold produce, print.
  eapply triple_bind; [apply triple_emit; exact I|]. intros _ _.
  eapply triple_bind; [apply triple_emit; exact I|]. intros _ _.
  destruct (String.eqb (BUCKET cfg) sentinel); [apply triple_raise|].
  eapply triple_bind; [apply triple_emit; exact I|]. intros _ _.
  eapply triple_bind; [apply triple_run_query|]. intros _ _.
  eapply triple_bind; [apply triple_emit; exact I|]. intros _ _.
  eapply triple_bind; [apply triple_run_query|]. intros _ _.
  eapply triple_bind; [apply triple_emit; exact I|]. intros _ _.
  eapply triple_bind; [apply triple_run_query|]. intros qid _.
  eapply triple_bind; [apply triple_emit; exact I|]. intros _ _.
  eapply triple_bind; [apply triple_utcnow; exact I|]. intros now ->.
  eapply triple_bind; [apply triple_emit; exact I|]. intros _ _.
  eapply triple_bind.
  { apply triple_copy_object. simpl. repeat split. exists qid. reflexivity. }
  intros _ _.
  eapply triple_bind; [apply triple_emit; exact I|]. intros _ _.
  apply triple_emit. exact I.
Qed.

Lemma triple_terminate_self (e : Env) (P : Event -> Prop) :
  (forall ev, match ev with
              | EvStartQueryExecution _ | EvCopyObject _ _ _ _ => True
              | _ => P ev
              end) ->
  triple e P terminate_self (fun _ => True).
Proof.
  intros HP. unfold terminate_self. apply triple_try_except.
  - eapply triple_bind; [apply triple_urlopen, (HP (EvUrlOpen _ _))|].
    intros iid _. apply triple_terminate_instances, (HP (EvTerminateInstances _)).
  - intros ex. apply triple_emit, (HP (EvPrint _)).
Qed.

(** The requests of a whole run. *)
Lemma main_requests (fuel : nat) (cfg : Config) (w : World) (r : result unit) (w' : World) :
  main fuel cfg w = Some (r, w') ->
  env w' = env w /\
  exists tr, trace w' = trace w ++ tr /\ Forall (request_ok cfg (utc_clock (env w))) tr.
Proof.
  intros H.
  assert (Ht : triple (env w) (request_ok cfg (utc_clock (env w))) (main fuel cfg)
                      (fun _ => True)).
  { unfold main. eapply triple_bind; [apply triple_produce|]. intros _ _.
    apply triple_terminate_self, request_ok_other. }
  destruct (Ht w r w' eq_refl H) as [He [Htr _]]. split; assumption.
Qed.

(** *** Timestamps *)

Lemma digit_code (n : Z) :
  exists k, (48 <= k <= 57)%nat /\ digit n = ascii_of_nat k /\
            Z.of_nat k = (48 + n mod 10)%Z.
Proof.
  exists (Z.to_nat (48 + n mod 10)).
  assert (H := Z.mod_pos_bound n 10 ltac:(lia)).
  split; [lia|]. split; [reflexivity|lia].
Qed.

Lemma is_digit_digit (n : Z) : is_digit (digit n) = true.
Proof.
  destruct (digit_code n) as [k [Hk [-> _]]].
  unfold is_digit. rewrite nat_ascii_embedding by lia.
  apply andb_true_intro. split; apply Nat.leb_le; lia.
Qed.

Lemma digit_value_digit (n : Z) : digit_value (digit n) = (n mod 10)%Z.
Proof.
  destruct (digit_code n) as [k [Hk [-> Hz]]].
  unfold digit_value. rewrite nat_ascii_embedding by lia. lia.
Qed.

Lemma strftime_shape (d : datetime) : is_timestamp (strftime_Ymd_HMS d) = true.
Proof.
  unfold is_timestamp, strftime_Ymd_HMS, pad4, pad2.
  cbv [String.append String.length String.substring all_digits Nat.eqb
       String.eqb Ascii.eqb Bool.eqb].
  rewrite !is_digit_digit. reflexivity.
Qed.

Lemma pad2_number (n : Z) : (0 <= n <= 99)%Z -> number (pad2 n) = n.
Proof.
  intros H. unfold number, pad2. cbv [number_from].
  rewrite !digit_value_digit. Z.div_mod_to_equations. lia.
Qed.

Lemma pad4_number (n : Z) : (0 <= n <= 9999)%Z -> number (pad4 n) = n.
Proof.
  intros H. unfold number, pad4, pad2. cbv [number_from].
  rewrite !digit_value_digit. Z.div_mod_to_equations. lia.
Qed.

Lemma valid_datetime_ranges (d : datetime) :
  valid_datetime d = true ->
  (1 <= year d <= 9999 /\ 1 <= month d <= 12 /\ 1 <= day d <= 31 /\
   0 <= hour d <= 23 /\ 0 <= minute d <= 59 /\ 0 <= second d <= 59)%Z.
Proof.
  unfold valid_datetime. rewrite !andb_true_iff, !Z.leb_le. tauto.
Qed.

(** The fields of a valid date and time can be read back from the
    timestamp, each at its place. *)
Lemma strftime_fields (d : datetime) :
  valid_datetime d = true ->
  let ts := strftime_Ymd_HMS d in
  number (String.substring 0 4 ts) = year d /\
  number (String.substring 4 2 ts) = month d /\
  number (String.substring 6 2 ts) = day d /\
  number (String.substring 9 2 ts) = hour d /\
  number (String.substring 11 2 ts) = minute d /\
  number (String.substring 13 2 ts) = second d.
Proof.
  intros H. apply valid_datetime_ranges in H.
  destruct H as [Hy [Hm [Hd [Hh [Hmi Hs]]]]]. cbv zeta.
  change (String.substring 0 4 (strftime_Ymd_HMS d)) with (pad4 (year d)).
  change (String.substring 4 2 (strftime_Ymd_HMS d)) with (pad2 (month d)).
  change (String.substring 6 2 (strftime_Ymd_HMS d)) with (pad2 (day d)).
  change (String.substring 9 2 (strftime_Ymd_HMS d)) with (pad2 (hour d)).
  change (String.substring 11 2 (strftime_Ymd_HMS d)) with (pad2 (minute d)).
  change (String.substring 13 2 (strftime_Ymd_HMS d)) with (pad2 (second d)).
  rewrite pad4_number by lia. rewrite !pad2_number by lia.
  repeat split; reflexivity.
Qed.

(** *** The source key *)

Lemma bucket_url_not_empty (bucket : string) :
  "s3://" +:+ bucket +:+ "/" <> EmptyString.
Proof. intros H. discriminate H. Qed.

Lemma bucket_url_last (bucket : string) :
  last_char ("s3://" +:+ bucket +:+ "/") = Some "/"%char.
Proof.
  rewrite (last_char_append "s3://"), (last_char_append bucket);
    [reflexivity|discriminate|].
  destruct bucket; discriminate.
Qed.

(** The bucket URL does not occur in the source key unless it occurs in
    the execution id. *)
Lemma bucket_url_absent (bucket qid : string) :
  contains ("s3://" +:+ bucket +:+ "/") qid = false ->
  contains ("s3://" +:+ bucket +:+ "/") ("athena-results/" +:+ qid +:+ ".csv") = false.
Proof.
  intros H.
  transitivity (contains ("s3://" +:+ bucket +:+ "/") (qid +:+ ".csv"));
    [reflexivity|].
  apply contains_append_false; [exact H|reflexivity|].
  intros a q Hsplit Hq.
  destruct (String.prefix q ".csv") eqn:Hp; [|reflexivity].
  exfalso. apply (prefix_of_csv q Hq Hp).
  rewrite <- (last_char_append a q Hq), <- Hsplit. apply bucket_url_last.
Qed.

Lemma src_key_plain (cfg : Config) (qid : string) :
  contains ("s3://" +:+ BUCKET cfg +:+ "/") qid = false ->
  src_key cfg qid = "athena-results/" +:+ qid +:+ ".csv".
Proof.
  intros H. unfold src_key.
  apply replace_absent; [apply bucket_url_not_empty|].
  apply bucket_url_absent. exact H.
Qed.

(** *** The copy and the self-termination *)

Lemma copy_keeps_source (cfg : Config) (qid key : string) (w : World) :
  exists r w',
    copy_athena_csv_to_prod cfg qid key w = Some (r, w') /\
    trace w' = trace w ++ [EvCopyObject (BUCKET cfg) (BUCKET cfg) (src_key cfg qid) key] /\
    s3_objects w' !! (BUCKET cfg, src_key cfg qid)
    = s3_objects w !! (BUCKET cfg, src_key cfg qid).
Proof.
  unfold copy_athena_csv_to_prod, copy_object, bind, emit. simpl.
  destruct (s3_fault (env w)) as [e|]; [eexists; eexists; repeat split|].
  destruct (s3_objects w !! (BUCKET cfg, src_key cfg qid)) as [body|] eqn:Hsrc;
    [|eexists; eexists; repeat split; exact Hsrc].
  eexists. eexists. split; [reflexivity|]. split; [reflexivity|]. simpl.
  destruct (decide ((BUCKET cfg, key) = (BUCKET cfg, src_key cfg qid))) as [Heq|Hne].
  - rewrite Heq, lookup_insert_eq. reflexivity.
  - rewrite lookup_insert_ne by exact Hne. exact Hsrc.
Qed.

Lemma terminate_self_failure (w : World) (e : PyExc) :
  is_Exception e = true ->
  metadata_answer (env w) = Err e \/
  (exists iid, metadata_answer (env w) = Ok iid /\ ec2_terminate_answer (env w) = Err e) ->
  exists before,
    terminate_self w = Some (Ok tt, log w (before ++ [warning e])).
Proof.
  intros Hexc Hfail.
  unfold terminate_self, try_except_Exception, bind, urlopen_read_decode,
    terminate_instances, bind, emit, print, emit. simpl.
  destruct Hfail as [Hm|[iid [Hm Ht]]].
  - rewrite Hm, Hexc. exists [EvUrlOpen metadata_url 2].
    unfold log. simpl. rewrite <- app_assoc. reflexivity.
  - rewrite Hm. simpl. rewrite Ht, Hexc.
    exists [EvUrlOpen metadata_url 2; EvTerminateInstances [iid]].
    unfold log. simpl. rewrite <- !app_assoc. reflexivity.
Qed.

(** *** The claims *)



(** C5.  With the placeholder as the bucket, [main] raises a
    [RuntimeError] after its two opening log lines: nothing was asked of
    the query engine, the object store, the metadata endpoint or the
    compute service, and the store is as it was.  The placeholder is what
    the configuration gets when [BUCKET] is unset or empty. *)
Theorem placeholder_bucket_fails_before_any_call
    (fuel : nat) (cfg : Config) (w : World) :
  BUCKET cfg = sentinel ->
  exists e w',
    main fuel cfg w = Some (Err e, w') /\
    exc_class e = RuntimeError /\
    (exists tr, trace w' = trace w ++ tr /\ List.filter is_service_call tr = []) /\
    s3_objects w' = s3_objects w /\
    n_start w' = n_start w /\ n_get w' = n_get w.
Proof.
  intros H. unfold main, produce, bind, print, emit, raise. simpl.
  rewrite H. simpl.
  eexists. eexists. split; [reflexivity|]. split; [reflexivity|].
  split; [|repeat split].
  eexists. split; [unfold log; simpl; rewrite <- app_assoc; reflexivity|reflexivity].
Qed.

Lemma placeholder_bucket_fails_before_any_call_witness :
  let w := mkWorld (mkEnv (fun _ => 0%Q) (fun _ => Ok (mkStartOutput (Some "q")))
                          (fun _ => Ok (mkGetOutput None))
                          (mkDatetime 2024 3 7 9 5 0) None (Ok "i-0abc") (Ok tt))
                   ∅ 0 0 0 [] in
  exists e w',
    main 5 (load_config ∅) w = Some (Err e, w') /\
    exc_class e = RuntimeError /\
    (exists tr, trace w' = trace w ++ tr /\ List.filter is_service_call tr = []) /\
    s3_objects w' = s3_objects w /\
    n_start w' = n_start w /\ n_get w' = n_get w.
Proof.
  intros w.
  apply (placeholder_bucket_fails_before_any_call 5 (load_config ∅) w).
  reflexivity.
Defined.

(** C6, as stated, fails for the destination key: the production prefix
    is a setting.  With [PROD_PREFIX] set to [archive/] the result of the
    run is copied to [archive/state_counts_20240307_090500.csv], which is
    not under [output/prod/]. *)
Lemma overridden_prefix_changes_destination :
  let cfg := load_config {[ "BUCKET" := "b"; "PROD_PREFIX" := "archive/" ]} in
  let succeeded :=
    mkGetOutput (Some (mkInfo None (Some (mkStatus (Some "SUCCEEDED") None)))) in
  let e :=
    mkEnv (fun k => inject_Z (Z.of_nat k))
          (fun _ => Ok (mkStartOutput (Some "abc123")))
          (fun _ => Ok succeeded)
          (mkDatetime 2024 3 7 9 5 0) None (Ok "i-0abc") (Ok tt) in
  let w := mkWorld e {[ ("b", "athena-results/abc123.csv") := "state,facilities" ]}
                   0 0 0 [] in
  exists w',
    main 5 cfg w = Some (Ok tt, w') /\
    In (EvCopyObject "b" "b" "athena-results/abc123.csv"
                     "archive/state_counts_20240307_090500.csv") (trace w') /\
    startswith "archive/state_counts_20240307_090500.csv" "output/prod/" = false.
Proof.
  cbv zeta. eexists. split; [vm_compute; reflexivity|]. split; [|reflexivity].
  simpl. repeat (first [left; reflexivity | right]).
Qed.

(** C6, amended.  The source key of execution id [abc123] is
    [athena-results/abc123.csv].  The destination key is the configured
    production prefix, [output/prod/] unless [PROD_PREFIX] overrides it,
    followed by [state_counts_], the UTC time of the run as
    [YYYYMMDD_HHMMSS], and [.csv]; every copy request of a run writes that
    key.  The copy leaves the object at the source key as it is. *)
Theorem destination_and_source_keys (cfg : Config) (now : datetime) :
  valid_datetime now = true ->
  let ts := strftime_Ymd_HMS now in
  src_key cfg "abc123" = "athena-results/abc123.csv" /\
  dest_key cfg now = PROD_PREFIX cfg +:+ "state_counts_" +:+ ts +:+ ".csv" /\
  (is_timestamp ts = true /\
   number (String.substring 0 4 ts) = year now /\
   number (String.substring 4 2 ts) = month now /\
   number (String.substring 6 2 ts) = day now /\
   number (String.substring 9 2 ts) = hour now /\
   number (String.substring 11 2 ts) = minute now /\
   number (String.substring 13 2 ts) = second now) /\
  (forall environ : gmap string string,
     environ !! "PROD_PREFIX" = None ->
     PROD_PREFIX (load_config environ) = "output/prod/") /\
  (forall fuel w r w',
     utc_clock (env w) = now ->
     main fuel cfg w = Some (r, w') ->
     exists tr,
       trace w' = trace w ++ tr /\
       forall b sb sk k, In (EvCopyObject b sb sk k) tr -> k = dest_key cfg now) /\
  (forall qid key w,
     exists r w',
       copy_athena_csv_to_prod cfg qid key w = Some (r, w') /\
       trace w' = trace w ++ [EvCopyObject (BUCKET cfg) (BUCKET cfg) (src_key cfg qid) key] /\
       s3_objects w' !! (BUCKET cfg, src_key cfg qid)
       = s3_objects w !! (BUCKET cfg, src_key cfg qid)).
Proof.
  intros Hvalid ts.
  split; [apply src_key_plain; reflexivity|].
  split; [reflexivity|].
  split; [split; [apply strftime_shape|apply strftime_fields; exact Hvalid]|].
  split.
  { intros environ H. unfold load_config, getenv. simpl. rewrite H. reflexivity. }
  split; [|apply copy_keeps_source].
  intros fuel w r w' Hnow Hrun.
  destruct (main_requests fuel cfg w r w' Hrun) as [_ [tr [Htr Hok]]].
  exists tr. split; [exact Htr|].
  intros b sb sk k Hin.
  rewrite List.Forall_forall in Hok. specialize (Hok _ Hin).
  simpl in Hok. rewrite Hnow in Hok. tauto.
Qed.

Lemma destination_and_source_keys_witness :
  let cfg := load_config {[ "BUCKET" := "b" ]} in
  let now := mkDatetime 2024 3 7 9 5 0 in
  src_key cfg "abc123" = "athena-results/abc123.csv" /\
  dest_key cfg now = "output/prod/state_counts_20240307_090500.csv".
Proof.
  intros cfg now.
  destruct (destination_and_source_keys cfg now eq_refl) as [Hsrc [Hdest _]].
  split; [exact Hsrc|]. rewrite Hdest. reflexivity.
Defined.

(** C7.  When the steps before it went through and the self-termination
    fails, be it that the metadata endpoint cannot be read or that the
    terminate request is refused, with an error of class [Exception],
    [main] logs the warning as its last line and ends normally; the store
    is as the copy left it.  A failure of an earlier step, in contrast,
    ends [main] with that error. *)
Theorem self_termination_failure_is_not_fatal
    (fuel : nat) (cfg : Config) (w : World) :
  (forall w1 e,
     produce fuel cfg w = Some (Ok tt, w1) ->
     is_Exception e = true ->
     metadata_answer (env w) = Err e \/
     (exists iid, metadata_answer (env w) = Ok iid /\
                  ec2_terminate_answer (env w) = Err e) ->
     exists w2 before,
       main fuel cfg w = Some (Ok tt, w2) /\
       trace w2 = trace w1 ++ before ++ [warning e] /\
       s3_objects w2 = s3_objects w1) /\
  (forall w1 e,
     produce fuel cfg w = Some (Err e, w1) ->
     main fuel cfg w = Some (Err e, w1)).
Proof.
  split.
  - intros w1 e Hprod Hexc Hfail.
    destruct (triple_produce (env w) fuel cfg w (Ok tt) w1 eq_refl Hprod) as [He _].
    rewrite <- He in Hfail.
    destruct (terminate_self_failure w1 e Hexc Hfail) as [before Hterm].
    exists (log w1 (before ++ [warning e])), before.
    unfold main, bind. rewrite Hprod, Hterm. repeat split.
  - intros w1 e Hprod. unfold main, bind. rewrite Hprod. reflexivity.
Qed.

Lemma self_termination_failure_is_not_fatal_witness :
  let cfg := load_config {[ "BUCKET" := "b" ]} in
  let succeeded :=
    mkGetOutput (Some (mkInfo None (Some (mkStatus (Some "SUCCEEDED") None)))) in
  let timed_out := mkExc URLError "<urlopen error timed out>" in
  let e :=
    mkEnv (fun k => inject_Z (Z.of_nat k))
          (fun _ => Ok (mkStartOutput (Some "abc123")))
          (fun _ => Ok succeeded)
          (mkDatetime 2024 3 7 9 5 0) None (Err timed_out) (Ok tt) in
  let w := mkWorld e {[ ("b", "athena-results/abc123.csv") := "state,facilities" ]}
                   0 0 0 [] in
  exists w1 w2 before,
    produce 5 cfg w = Some (Ok tt, w1) /\
    main 5 cfg w = Some (Ok tt, w2) /\
    trace w2 = trace w1 ++ before ++ [warning timed_out] /\
    s3_objects w2 = s3_objects w1.
Proof.
  intros cfg succeeded timed_out e w.
  destruct (produce 5 cfg w) as [[[[]|ex] w1]|] eqn:Hprod;
    [|vm_compute in Hprod; discriminate|vm_compute in Hprod; discriminate].
  destruct (proj1 (self_termination_failure_is_not_fatal 5 cfg w) w1 timed_out
              Hprod eq_refl (or_introl eq_refl))
    as [w2 [before [Hmain [Htrace Hstore]]]].
  exists w1, w2, before. auto.
Defined.

(** *** Further properties of the polling loop and of [run_query] *)

Lemma bind_ok {A B : Type} (m : M A) (k : A -> M B) (w : World) (b : B) (w' : World) :
  bind m k w = Some (Ok b, w') ->
  exists a w1, m w = Some (Ok a, w1) /\ k a w1 = Some (Ok b, w').
Proof.
  unfold bind. destruct (m w) as [[[a|e] w1]|]; intros H; [|discriminate|discriminate].
  exists a, w1. split; [reflexivity|exact H].
Qed.

(** A turn of the loop that ends the call has polled once and left the
    store and the count of submissions alone. *)
Lemma wait_loop_turn_frame (fuel : nat) (qid : string) (timeout_sec : Z) (start : Q)
    (w : World) :
  (exists r w',
      wait_loop (S fuel) qid timeout_sec start w = Some (r, w') /\
      n_start w' = n_start w /\ s3_objects w' = s3_objects w /\
      n_get w' = S (n_get w)) \/
  wait_loop (S fuel) qid timeout_sec start w =
  wait_loop fuel qid timeout_sec start (one_round qid w).
Proof.
  destruct (athena_get_answers (env w) (n_get w)) as [res|e] eqn:Ha.
  - destruct (QueryExecution res) as [info|] eqn:Hq.
    + destruct (Status info) as [status|] eqn:Hs.
      * destruct (State status) as [state|] eqn:Hst.
        -- assert (Hshow : shows w res status state).
           { unfold shows, status_of. rewrite Hq. auto. }
           rewrite (wait_loop_step _ _ _ _ _ _ _ _ Hshow). cbv zeta.
           destruct (is_terminal state).
           ++ left. destruct (negb (String.eqb state "SUCCEEDED"));
                (eexists; eexists; split; [reflexivity|repeat split]).
           ++ destruct (Qlt_le_dec (inject_Z timeout_sec)
                                   (time_readings (env w) (n_time w) - start)).
              ** left. eexists. eexists. split; [reflexivity|repeat split].
              ** right. reflexivity.
        -- left. cbn [wait_loop].
           unfold bind, get_query_execution, bind, emit, lift. cbn [log env n_get].
           rewrite Ha, Hq. cbn [member]. rewrite Hs. cbn [member]. rewrite Hst.
           eexists. eexists. split; [reflexivity|repeat split].
      * left. cbn [wait_loop].
        unfold bind, get_query_execution, bind, emit, lift. cbn [log env n_get].
        rewrite Ha, Hq. cbn [member]. rewrite Hs.
        eexists. eexists. split; [reflexivity|repeat split].
    + left. cbn [wait_loop].
      unfold bind, get_query_execution, bind, emit, lift. cbn [log env n_get].
      rewrite Ha, Hq.
      eexists. eexists. split; [reflexivity|repeat split].
  - left. cbn [wait_loop].
    unfold bind, get_query_execution, bind, emit, lift. cbn [log env n_get].
    rewrite Ha.
    eexists. eexists. split; [reflexivity|repeat split].
Qed.

Lemma wait_loop_frame (qid : string) (timeout_sec : Z) (start : Q) (fuel : nat) :
  forall w r w',
    wait_loop fuel qid timeout_sec start w = Some (r, w') ->
    n_start w' = n_start w /\ s3_objects w' = s3_objects w /\
    (n_get w < n_get w' <= n_get w + fuel)%nat.
Proof.
  induction fuel as [|fuel IH]; intros w r w' H; [discriminate|].
  destruct (wait_loop_turn_frame fuel qid timeout_sec start w)
    as [[r0 [w0 [H0 [Hn [Hs Hg]]]]]|Hnext].
  - rewrite H0 in H. injection H as <- <-. repeat split; try assumption; lia.
  - rewrite Hnext in H. destruct (IH _ _ _ H) as [Hn [Hs Hg]].
    simpl in Hn, Hs, Hg. repeat split; try assumption; lia.
Qed.

Lemma wait_for_query_frame (fuel : nat) (qid : string) (timeout_sec : Z)
    (w : World) (r : result GetQueryExecutionOutput) (w' : World) :
  wait_for_query fuel qid timeout_sec w = Some (r, w') ->
  n_start w' = n_start w /\ s3_objects w' = s3_objects w /\
  (n_get w < n_get w' <= n_get w + fuel)%nat.
Proof.
  rewrite wait_for_query_eq. intros H.
  destruct (wait_loop_frame _ _ _ _ _ _ _ H) as [Hn [Hs Hg]].
  simpl in Hn, Hs, Hg. auto.
Qed.

(** X7.  With a clock that does not go back and that has moved on by two
    seconds or more at every reading after a sleep, [wait_for_query]
    returns or raises, whatever the polls show and even when no state is
    ever terminal: once [2 * fuel] is more than the timeout, [fuel + 1]
    rounds are enough, and it has polled at least once and at most
    [fuel + 1] times. *)
Theorem wait_for_query_ends_by_the_clock
    (qid : string) (timeout_sec : Z) (w : World) (fuel : nat) :
  (time_readings (env w) (n_time w) <= time_readings (env w) (S (n_time w)))%Q ->
  (forall k, (n_time w < k)%nat ->
     (time_readings (env w) k + 2 <= time_readings (env w) (S k))%Q) ->
  (timeout_sec < 2 * Z.of_nat fuel)%Z ->
  exists r w',
    wait_for_query (S fuel) qid timeout_sec w = Some (r, w') /\
    (n_get w < n_get w' <= n_get w + S fuel)%nat.
Proof.
  intros Hfirst Hclock Hfuel.
  destruct (wait_for_query_terminates qid timeout_sec w fuel Hfirst Hclock Hfuel)
    as [r [w' H]].
  exists r, w'. split; [exact H|].
  apply (wait_for_query_frame _ _ _ _ _ _ H).
Qed.

Lemma wait_for_query_ends_by_the_clock_witness :
  let running :=
    mkGetOutput (Some (mkInfo None (Some (mkStatus (Some "RUNNING") None)))) in
  let e :=
    mkEnv (fun k => inject_Z (2 * Z.of_nat k))
          (fun _ => Ok (mkStartOutput (Some "q-1")))
          (fun _ => Ok running)
          (mkDatetime 2024 3 7 9 5 0) None (Ok "i-0abc") (Ok tt) in
  let w := mkWorld e ∅ 0 0 0 [] in
  exists r w',
    wait_for_query 4 "q-1" 5 w = Some (r, w') /\
    (n_get w < n_get w' <= n_get w + 4)%nat.
Proof.
  intros running e w.
  apply (wait_for_query_ends_by_the_clock "q-1" 5 w 3).
  - vm_compute. discriminate.
  - intros k _. simpl. unfold Qle. simpl. lia.
  - lia.
Defined.

Lemma wait_loop_poll_raises (fuel : nat) (qid : string) (timeout_sec : Z) (start : Q)
    (w : World) (e : PyExc) :
  athena_get_answers (env w) (n_get w) = Err e ->
  wait_loop (S fuel) qid timeout_sec start w = Some (Err e, polled qid w).
Proof.
  intros Ha. cbn [wait_loop].
  unfold bind, get_query_execution, bind, emit, lift. cbn [log env n_get].
  rewrite Ha. reflexivity.
Qed.

Lemma wait_loop_no_state (fuel : nat) (qid : string) (timeout_sec : Z) (start : Q)
    (w : World) (res : GetQueryExecutionOutput) :
  athena_get_answers (env w) (n_get w) = Ok res ->
  status_of res = None \/ (exists status, status_of res = Some status /\ State status = None) ->
  exists e,
    wait_loop (S fuel) qid timeout_sec start w = Some (Err e, polled qid w) /\
    exc_class e = KeyError.
Proof.
  intros Ha Hmiss. cbn [wait_loop].
  unfold bind, get_query_execution, bind, emit, lift. cbn [log env n_get].
  rewrite Ha. unfold status_of in Hmiss.
  destruct (QueryExecution res) as [info|]; cbn [member].
  - destruct Hmiss as [Hs|[status [Hs Hst]]].
    + rewrite Hs. cbn [member]. eexists. split; reflexivity.
    + rewrite Hs. cbn [member]. rewrite Hst. cbn [member].
      eexists. split; reflexivity.
  - eexists. split; reflexivity.
Qed.

(** X8.  After any number of rounds that neither end nor time out, an
    error of the status request ends [wait_for_query] with that error,
    and an answer without a status or without a state ends it with a
    [KeyError]; in both cases that poll is the last request. *)
Theorem wait_for_query_status_errors
    (qid : string) (timeout_sec : Z) (w : World) (n fuel : nat) :
  let start := time_readings (env w) (n_time w) in
  let answer k := athena_get_answers (env w) (n_get w + k) in
  let elapsed k := (time_readings (env w) (S (n_time w + k)) - start)%Q in
  let polls := EvTimeTime :: rounds qid n ++ [EvGetQueryExecution qid] in
  (n < fuel)%nat ->
  (forall k, (k < n)%nat ->
     is_pending (answer k) = true /\ ~ (inject_Z timeout_sec < elapsed k)%Q) ->
  (forall e,
     answer n = Err e ->
     exists w',
       wait_for_query fuel qid timeout_sec w = Some (Err e, w') /\
       trace w' = trace w ++ polls) /\
  (forall res,
     answer n = Ok res ->
     status_of res = None \/
     (exists status, status_of res = Some status /\ State status = None) ->
     exists w' e,
       wait_for_query fuel qid timeout_sec w = Some (Err e, w') /\
       exc_class e = KeyError /\
       trace w' = trace w ++ polls).
Proof.
  intros start answer elapsed polls Hfuel Hrounds.
  set (w0 := mkWorld (env w) (s3_objects w) (S (n_time w)) (n_start w) (n_get w)
                     (trace w ++ [EvTimeTime])).
  assert (Hloop : wait_for_query fuel qid timeout_sec w =
                  wait_loop (S (fuel - S n)) qid timeout_sec start
                            (after_rounds qid n w0)).
  { rewrite wait_for_query_eq. fold start. fold w0.
    replace fuel with (n + S (fuel - S n))%nat at 1 by lia.
    apply wait_loop_rounds. intros k Hk. exact (Hrounds k Hk). }
  destruct (after_rounds_fields qid n w0) as [He [Hs [Ht [Hst [Hg Htr]]]]].
  simpl in He, Hs, Ht, Hst, Hg, Htr.
  assert (Htrace : trace (polled qid (after_rounds qid n w0)) = trace w ++ polls).
  { simpl. rewrite Htr. rewrite <- !app_assoc. reflexivity. }
  split.
  - intros e Ha.
    assert (Ha' : athena_get_answers (env (after_rounds qid n w0))
                                     (n_get (after_rounds qid n w0)) = Err e).
    { rewrite He, Hg. exact Ha. }
    rewrite Hloop, (wait_loop_poll_raises _ _ _ _ _ _ Ha').
    eexists. split; [reflexivity|exact Htrace].
  - intros res Ha Hmiss.
    assert (Ha' : athena_get_answers (env (after_rounds qid n w0))
                                     (n_get (after_rounds qid n w0)) = Ok res).
    { rewrite He, Hg. exact Ha. }
    destruct (wait_loop_no_state (fuel - S n) qid timeout_sec start _ res Ha' Hmiss)
      as [e [Hrun Hclass]].
    rewrite Hloop, Hrun.
    exists (polled qid (after_rounds qid n w0)), e.
    split; [reflexivity|]. split; [exact Hclass|exact Htrace].
Qed.

Lemma wait_for_query_status_errors_witness :
  let throttled := mkExc ClientError "An error occurred (ThrottlingException)" in
  let running :=
    mkGetOutput (Some (mkInfo None (Some (mkStatus (Some "RUNNING") None)))) in
  let e :=
    mkEnv (fun k => inject_Z (2 * Z.of_nat k))
          (fun _ => Ok (mkStartOutput (Some "q-1")))
          (fun k => if (k <? 1)%nat then Ok running else Err throttled)
          (mkDatetime 2024 3 7 9 5 0) None (Ok "i-0abc") (Ok tt) in
  let w := mkWorld e ∅ 0 0 0 [] in
  exists w',
    wait_for_query 5 "q-1" 300 w = Some (Err throttled, w') /\
    trace w' = trace w ++ EvTimeTime :: rounds "q-1" 1 ++ [EvGetQueryExecution "q-1"].
Proof.
  intros throttled running e w.
  assert (Hfuel : (1 < 5)%nat) by lia.
  assert (Hrounds : forall k, (k < 1)%nat ->
            is_pending (athena_get_answers (env w) (n_get w + k)) = true /\
            ~ (inject_Z 300 <
               time_readings (env w) (S (n_time w + k))
               - time_readings (env w) (n_time w))%Q).
  { intros k Hk. destruct k as [|k]; [|lia].
    split; [reflexivity|intros H; vm_compute in H; discriminate]. }
  exact (proj1 (wait_for_query_status_errors "q-1" 300 w 1 5 Hfuel Hrounds)
               throttled eq_refl).
Defined.

(** [run_query], by what the submission answers. *)
Lemma run_query_eq (fuel : nat) (cfg : Config) (sql : string)
    (database : option string) (w : World) :
  run_query fuel cfg sql database w =
  let w1 := submitted_world (query_request cfg sql database) w in
  match athena_start_answers (env w) (n_start w) with
  | Err e => Some (Err e, w1)
  | Ok out =>
      match QueryExecutionId out with
      | None => Some (Err (mkExc KeyError "'QueryExecutionId'"), w1)
      | Some qid =>
          match wait_for_query fuel qid default_timeout_sec w1 with
          | Some (Ok _, w2) => Some (Ok qid, w2)
          | Some (Err e, w2) => Some (Err e, w2)
          | None => None
          end
      end
  end.
Proof.
  unfold run_query. unfold bind at 1. unfold start_query_execution at 1.
  unfold bind at 1. unfold emit at 1.
  cbn [log env n_start s3_objects n_time n_get trace]. cbv zeta.
  fold (query_request cfg sql database).
  change (mkWorld (env w) (s3_objects w) (n_time w) (S (n_start w)) (n_get w)
                  (trace w ++ [EvStartQueryExecution (query_request cfg sql database)]))
    with (submitted_world (query_request cfg sql database) w).
  destruct (athena_start_answers (env w) (n_start w)) as [out|e]; [|reflexivity].
  unfold bind at 1. unfold lift at 1.
  destruct (QueryExecutionId out) as [qid|]; [|reflexivity].
  cbn [member]. unfold bind at 1.
  destruct (wait_for_query fuel qid default_timeout_sec
              (submitted_world (query_request cfg sql database) w))
    as [[[res|e] w2]|]; reflexivity.
Qed.

(** X9.  When the submission fails, or its answer carries no execution
    id, [run_query] raises, the error of the service or a [KeyError],
    right after the one submission: the status is never polled and the
    clock never read. *)
Theorem run_query_submission_errors
    (fuel : nat) (cfg : Config) (sql : string) (database : option string) (w : World) :
  (forall e,
     athena_start_answers (env w) (n_start w) = Err e ->
     run_query fuel cfg sql database w =
     Some (Err e, submitted_world (query_request cfg sql database) w)) /\
  (forall out,
     athena_start_answers (env w) (n_start w) = Ok out ->
     QueryExecutionId out = None ->
     run_query fuel cfg sql database w =
     Some (Err (mkExc KeyError "'QueryExecutionId'"),
           submitted_world (query_request cfg sql database) w)).
Proof.
  split.
  - intros e Ha. rewrite run_query_eq. cbv zeta. rewrite Ha. reflexivity.
  - intros out Ha Hid. rewrite run_query_eq. cbv zeta. rewrite Ha, Hid. reflexivity.
Qed.

Lemma run_query_submission_errors_witness :
  let denied := mkExc ClientError "An error occurred (AccessDeniedException)" in
  let e :=
    mkEnv (fun _ => 0%Q) (fun _ => Err denied) (fun _ => Ok (mkGetOutput None))
          (mkDatetime 2024 3 7 9 5 0) None (Ok "i-0abc") (Ok tt) in
  let w := mkWorld e ∅ 0 0 0 [] in
  let cfg := load_config {[ "BUCKET" := "b" ]} in
  run_query 5 cfg "SELECT 1" None w =
  Some (Err denied, submitted_world (query_request cfg "SELECT 1" None) w).
Proof.
  intros denied e w cfg.
  apply (proj1 (run_query_submission_errors 5 cfg "SELECT 1" None w) denied).
  reflexivity.
Defined.

Lemma is_wait_for_other (qid : string) (ev : Event) :
  is_wait_for qid ev ->
  match ev with
  | EvGetQueryExecution q => q = qid
  | EvStartQueryExecution _ | EvCopyObject _ _ _ _ => False
  | _ => True
  end.
Proof. destruct ev; simpl; auto. Qed.

(** What a [run_query] that returns leaves of the world. *)
Lemma run_query_frame
    (fuel : nat) (cfg : Config) (sql : string) (database : option string)
    (w : World) (qid : string) (w' : World) :
  run_query fuel cfg sql database w = Some (Ok qid, w') ->
  (exists out,
      athena_start_answers (env w) (n_start w) = Ok out /\
      QueryExecutionId out = Some qid) /\
  env w' = env w /\ n_start w' = S (n_start w) /\ s3_objects w' = s3_objects w.
Proof.
  rewrite run_query_eq. cbv zeta. intros H.
  destruct (athena_start_answers (env w) (n_start w)) as [out|e]; [|discriminate].
  destruct (QueryExecutionId out) as [q|] eqn:Hid; [|discriminate].
  destruct (wait_for_query fuel q default_timeout_sec
              (submitted_world (query_request cfg sql database) w))
    as [[[res|e] w2]|] eqn:Hwait; try discriminate.
  injection H as -> ->.
  split; [exists out; auto|].
  destruct (triple_wait_for_query (env w) (fun _ => True) qid default_timeout_sec fuel
              I I I
              (submitted_world (query_request cfg sql database) w) _ _ eq_refl Hwait)
    as [He _].
  destruct (wait_for_query_frame _ _ _ _ _ _ Hwait) as [Hn [Hs _]].
  auto.
Qed.

(** X10.  When [run_query] returns, it returns the execution id that the
    answer to its submission carried.  It has submitted one query, first:
    the given text with the configured output location, workgroup and
    catalog, and with the database only when one is given and not empty.
    After that it has only polled that id, read the clock and slept two
    seconds at a time; the store is untouched. *)
Theorem run_query_returns_the_submitted_id
    (fuel : nat) (cfg : Config) (sql : string) (database : option string)
    (w : World) (qid : string) (w' : World) :
  run_query fuel cfg sql database w = Some (Ok qid, w') ->
  (exists out,
      athena_start_answers (env w) (n_start w) = Ok out /\
      QueryExecutionId out = Some qid) /\
  (exists tr,
      trace w' = trace w ++ EvStartQueryExecution (query_request cfg sql database) :: tr /\
      Forall (is_wait_for qid) tr) /\
  env w' = env w /\ n_start w' = S (n_start w) /\ s3_objects w' = s3_objects w.
Proof.
  intros H.
  destruct (run_query_frame _ _ _ _ _ _ _ H) as [Hout Hframe].
  split; [exact Hout|]. split; [|exact Hframe].
  rewrite run_query_eq in H. cbv zeta in H.
  destruct (athena_start_answers (env w) (n_start w)) as [out|e]; [|discriminate].
  destruct (QueryExecutionId out) as [q|] eqn:Hid; [|discriminate].
  destruct (wait_for_query fuel q default_timeout_sec
              (submitted_world (query_request cfg sql database) w))
    as [[[res|e] w2]|] eqn:Hwait; try discriminate.
  injection H as -> ->.
  destruct (triple_wait_for_query (env w) (is_wait_for qid) qid default_timeout_sec fuel
              eq_refl I eq_refl
              (submitted_world (query_request cfg sql database) w) _ _ eq_refl Hwait)
    as [_ [[tr [Htr HP]] _]].
  exists tr. split; [|exact HP].
  rewrite Htr. simpl. rewrite <- app_assoc. reflexivity.
Qed.

Lemma run_query_returns_the_submitted_id_witness :
  let succeeded :=
    mkGetOutput (Some (mkInfo None (Some (mkStatus (Some "SUCCEEDED") None)))) in
  let e :=
    mkEnv (fun k => inject_Z (Z.of_nat k))
          (fun _ => Ok (mkStartOutput (Some "abc123")))
          (fun _ => Ok succeeded)
          (mkDatetime 2024 3 7 9 5 0) None (Ok "i-0abc") (Ok tt) in
  let w := mkWorld e ∅ 0 0 0 [] in
  let cfg := load_config {[ "BUCKET" := "b"; "DATABASE" := EmptyString ]} in
  exists w' tr,
    run_query 5 cfg "SELECT 1" (Some (DATABASE cfg)) w = Some (Ok "abc123", w') /\
    trace w' = trace w ++ EvStartQueryExecution
                            (mkStartQuery "SELECT 1" "s3://b/athena-results/"
                                          "primary" "AwsDataCatalog" None) :: tr /\
    Forall (is_wait_for "abc123") tr.
Proof.
  intros succeeded e w cfg.
  destruct (run_query 5 cfg "SELECT 1" (Some (DATABASE cfg)) w)
    as [[[qid|ex] w']|] eqn:Hrun;
    [|vm_compute in Hrun; discriminate|vm_compute in Hrun; discriminate].
  assert (Hq : qid = "abc123").
  { vm_compute in Hrun. injection Hrun as Hq _. symmetry. exact Hq. }
  subst qid.
  destruct (run_query_returns_the_submitted_id 5 cfg "SELECT 1" (Some (DATABASE cfg))
              w "abc123" w' Hrun) as [_ [[tr [Htr HP]] _]].
  exists w', tr. split; [reflexivity|]. split; [exact Htr|exact HP].
Defined.

(** *** Further properties of the self-termination and of [main] *)

(** X11.  [terminate_self] reads the instance id from the metadata
    endpoint with a timeout of two seconds and asks to terminate exactly
    the instance so named; when that is accepted nothing is logged.  When
    the id cannot be read no terminate request is made.  An error outside
    [Exception] is not caught. *)
Theorem terminate_self_requests (w : World) :
  (forall iid,
     metadata_answer (env w) = Ok iid ->
     ec2_terminate_answer (env w) = Ok tt ->
     terminate_self w =
     Some (Ok tt, log w [EvUrlOpen metadata_url 2; EvTerminateInstances [iid]])) /\
  (forall e,
     metadata_answer (env w) = Err e ->
     is_Exception e = true ->
     terminate_self w =
     Some (Ok tt, log w [EvUrlOpen metadata_url 2; warning e])) /\
  (forall e,
     metadata_answer (env w) = Err e ->
     is_Exception e = false ->
     terminate_self w = Some (Err e, log w [EvUrlOpen metadata_url 2])).
Proof.
  unfold terminate_self, try_except_Exception, bind, urlopen_read_decode,
    terminate_instances, bind, emit, print, emit. simpl.
  split; [|split].
  - intros iid Hm Ht. rewrite Hm. simpl. rewrite Ht.
    unfold log. simpl. rewrite <- app_assoc. reflexivity.
  - intros e Hm Hexc. rewrite Hm, Hexc.
    unfold log. simpl. rewrite <- app_assoc. reflexivity.
  - intros e Hm Hexc. rewrite Hm, Hexc. reflexivity.
Qed.

Lemma terminate_self_requests_witness :
  let e :=
    mkEnv (fun _ => 0%Q) (fun _ => Ok (mkStartOutput None)) (fun _ => Ok (mkGetOutput None))
          (mkDatetime 2024 3 7 9 5 0) None (Ok "i-0abc1234") (Ok tt) in
  let w := mkWorld e ∅ 0 0 0 [] in
  terminate_self w =
  Some (Ok tt, log w [EvUrlOpen metadata_url 2; EvTerminateInstances ["i-0abc1234"]]).
Proof.
  intros e w.
  apply (proj1 (terminate_self_requests w) "i-0abc1234"); reflexivity.
Defined.

Lemma triple_run_query_any (e : Env) (P : Event -> Prop) (fuel : nat) (cfg : Config)
    (sql : string) (database : option string) :
  (forall ev, is_shutdown ev = false -> P ev) ->
  triple e P (run_query fuel cfg sql database) (fun _ => True).
Proof.
  intros HP. unfold run_query.
  eapply triple_bind; [apply triple_start_query_execution, HP; reflexivity|].
  intros q _.
  eapply triple_bind; [apply triple_lift; intros; exact I|]. intros qid _.
  eapply triple_bind;
    [apply triple_wait_for_query; apply HP; reflexivity|].
  intros _ _. apply triple_ret. exact I.
Qed.

Lemma triple_produce_any (e : Env) (P : Event -> Prop) (fuel : nat) (cfg : Config) :
  (forall ev, is_shutdown ev = false -> P ev) ->
  triple e P (produce fuel cfg) (fun _ => True).
Proof.
  intros HP. unfold produce, print.
  eapply triple_bind; [apply triple_emit, HP; reflexivity|]. intros _ _.
  eapply triple_bind; [apply triple_emit, HP; reflexivity|]. intros _ _.
  destruct (String.eqb (BUCKET cfg) sentinel); [apply triple_raise|].
  eapply triple_bind; [apply triple_emit, HP; reflexivity|]. intros _ _.
  eapply triple_bind; [apply triple_run_query_any, HP|]. intros _ _.
  eapply triple_bind; [apply triple_emit, HP; reflexivity|]. intros _ _.
  eapply triple_bind; [apply triple_run_query_any, HP|]. intros _ _.
  eapply triple_bind; [apply triple_emit, HP; reflexivity|]. intros _ _.
  eapply triple_bind; [apply triple_run_query_any, HP|]. intros qid _.
  eapply triple_bind; [apply triple_emit, HP; reflexivity|]. intros _ _.
  eapply triple_bind.
  { apply (triple_weaken e P utcnow (fun now => now = utc_clock e));
      [apply triple_utcnow, HP; reflexivity|intros; exact I]. }
  intros now _.
  eapply triple_bind; [apply triple_emit, HP; reflexivity|]. intros _ _.
  eapply triple_bind; [apply triple_copy_object, HP; reflexivity|]. intros _ _.
  eapply triple_bind; [apply triple_emit, HP; reflexivity|]. intros _ _.
  apply triple_emit, HP. reflexivity.
Qed.

(** X12.  When a step before the self-termination fails, [main] ends
    with that error and has neither read the metadata endpoint nor asked
    to terminate an instance: after a failed run the instance is still
    up. *)
Theorem failed_run_leaves_the_instance_up
    (fuel : nat) (cfg : Config) (w : World) (e : PyExc) (w1 : World) :
  produce fuel cfg w = Some (Err e, w1) ->
  main fuel cfg w = Some (Err e, w1) /\
  exists tr, trace w1 = trace w ++ tr /\ List.filter is_shutdown tr = [].
Proof.
  intros Hprod. split.
  - unfold main, bind. rewrite Hprod. reflexivity.
  - destruct (triple_produce_any (env w) (fun ev => is_shutdown ev = false) fuel cfg
                (fun ev H => H) w (Err e) w1 eq_refl Hprod) as [_ [[tr [Htr HP]] _]].
    exists tr. split; [exact Htr|].
    clear Htr. induction HP as [|ev tr Hev _ IH]; [reflexivity|].
    simpl. rewrite Hev. exact IH.
Qed.

Lemma failed_run_leaves_the_instance_up_witness :
  let cfg := load_config {[ "BUCKET" := "b" ]} in
  let succeeded :=
    mkGetOutput (Some (mkInfo None (Some (mkStatus (Some "SUCCEEDED") None)))) in
  let e :=
    mkEnv (fun k => inject_Z (Z.of_nat k))
          (fun _ => Ok (mkStartOutput (Some "abc123")))
          (fun _ => Ok succeeded)
          (mkDatetime 2024 3 7 9 5 0) None (Ok "i-0abc") (Ok tt) in
  let w := mkWorld e ∅ 0 0 0 [] in
  exists w1,
    main 5 cfg w = Some (Err no_such_key, w1) /\
    exists tr, trace w1 = trace w ++ tr /\ List.filter is_shutdown tr = [].
Proof.
  intros cfg succeeded e w.
  destruct (produce 5 cfg w) as [[[[]|ex] w1]|] eqn:Hprod;
    [vm_compute in Hprod; discriminate| |vm_compute in Hprod; discriminate].
  assert (Hex : ex = no_such_key).
  { vm_compute in Hprod. injection Hprod as Hex _. symmetry. exact Hex. }
  subst ex. exists w1.
  exact (failed_run_leaves_the_instance_up 5 cfg w no_such_key w1 Hprod).
Defined.

(** *** The order of the queries *)

Lemma submitted_app (a b : list Event) : submitted (a ++ b) = submitted a ++ submitted b.
Proof.
  induction a as [|ev a IH]; [reflexivity|].
  destruct ev; simpl; rewrite IH; reflexivity.
Qed.

Lemma submits_ret {A : Type} (a : A) : submits (ret a) [].
Proof.
  intros w r w' H. injection H as <- <-. exists []. rewrite app_nil_r.
  split; [reflexivity|]. split; [exists []; reflexivity|reflexivity].
Qed.

Lemma submits_lift {A : Type} (x : result A) : submits (lift x) [].
Proof.
  intros w r w' H. injection H as <- <-. exists []. rewrite app_nil_r.
  split; [reflexivity|]. split; [exists []; reflexivity|reflexivity].
Qed.

(** A computation that raises submits a first part of any list. *)
Lemma submits_raise {A : Type} (e : PyExc) (l : list StartQueryRequest) :
  submits (@raise A e) l.
Proof.
  intros w r w' H. injection H as <- <-. exists []. rewrite app_nil_r.
  split; [reflexivity|]. split; [exists l; reflexivity|discriminate].
Qed.

Lemma submits_bind {A B : Type} (m : M A) (k : A -> M B) (l1 l2 : list StartQueryRequest) :
  submits m l1 ->
  (forall a, submits (k a) l2) ->
  submits (bind m k) (l1 ++ l2).
Proof.
  intros Hm Hk w r w' H. unfold bind in H.
  destruct (m w) as [[[a|e] w1]|] eqn:Hmw; [| |discriminate].
  - destruct (Hm w (Ok a) w1 Hmw) as [tr1 [Ht1 [_ Hl1]]].
    destruct (Hk a w1 r w' H) as [tr2 [Ht2 [[rest Hrest] Hl2]]].
    exists (tr1 ++ tr2). split; [rewrite Ht2, Ht1, app_assoc; reflexivity|].
    rewrite submitted_app, (Hl1 a eq_refl). split.
    + exists rest. rewrite Hrest, app_assoc. reflexivity.
    + intros b Hb. rewrite (Hl2 b Hb). reflexivity.
  - injection H as <- <-.
    destruct (Hm w (Err e) w1 Hmw) as [tr1 [Ht1 [[rest Hrest] _]]].
    exists tr1. split; [exact Ht1|]. split; [|discriminate].
    exists (rest ++ l2). rewrite Hrest, app_assoc. reflexivity.
Qed.

(** A request followed by reading its answer off the world. *)
Lemma submits_call {A : Type} (ev : Event) (answer : World -> option (result A * World)) :
  (forall w r w', answer w = Some (r, w') -> trace w' = trace w) ->
  submits (bind (emit ev) (fun _ => answer)) (submitted [ev]).
Proof.
  intros Hans w r w' H. unfold bind, emit in H.
  exists [ev]. split; [exact (Hans _ _ _ H)|].
  split; [exists []; rewrite app_nil_r; reflexivity|reflexivity].
Qed.

Lemma submits_emit (ev : Event) : submits (emit ev) (submitted [ev]).
Proof.
  intros w r w' H. injection H as <- <-. exists [ev].
  split; [reflexivity|]. split; [exists []; rewrite app_nil_r; reflexivity|reflexivity].
Qed.

Lemma submits_time_time : submits time_time [].
Proof.
  apply (submits_call EvTimeTime). intros w r w' H. injection H as <- <-. reflexivity.
Qed.

Lemma submits_wait_loop (qid : string) (timeout_sec : Z) (start : Q) (fuel : nat) :
  submits (wait_loop fuel qid timeout_sec start) [].
Proof.
  induction fuel as [|fuel IH]; [intros w r w' H; discriminate|].
  cbn [wait_loop].
  apply (submits_bind _ _ [] []).
  { apply (submits_call (EvGetQueryExecution qid)).
    intros w r w' H. injection H as <- <-. reflexivity. }
  intros res.
  apply (submits_bind _ _ [] []); [apply submits_lift|]. intros info.
  apply (submits_bind _ _ [] []); [apply submits_lift|]. intros status.
  apply (submits_bind _ _ [] []); [apply submits_lift|]. intros state.
  destruct (is_terminal state).
  - destruct (negb (String.eqb state "SUCCEEDED"));
      [apply submits_raise|apply submits_ret].
  - apply (submits_bind _ _ [] []); [apply submits_time_time|]. intros now.
    destruct (Qlt_le_dec (inject_Z timeout_sec) (now - start));
      [apply submits_raise|].
    apply (submits_bind _ _ [] []); [apply (submits_emit (EvSleep 2))|].
    intros _. exact IH.
Qed.

Lemma submits_run_query (fuel : nat) (cfg : Config) (sql : string)
    (database : option string) :
  submits (run_query fuel cfg sql database) [query_request cfg sql database].
Proof.
  unfold run_query.
  apply (submits_bind _ _ [query_request cfg sql database] []).
  { apply (submits_call (EvStartQueryExecution (query_request cfg sql database))).
    intros w r w' H. injection H as <- <-. reflexivity. }
  intros q.
  apply (submits_bind _ _ [] []); [apply submits_lift|]. intros qid.
  apply (submits_bind _ _ [] []); [|intros _; apply submits_ret].
  unfold wait_for_query.
  apply (submits_bind _ _ [] []); [apply submits_time_time|]. intros start.
  apply submits_wait_loop.
Qed.

Lemma submits_terminate_self : submits terminate_self [].
Proof.
  intros w r w' H.
  assert (Htr : exists tr, trace w' = trace w ++ tr /\ submitted tr = []).
  { revert H.
    unfold terminate_self, try_except_Exception, bind, urlopen_read_decode,
      terminate_instances, bind, emit, print, emit. simpl.
    destruct (metadata_answer (env w)) as [iid|e]; simpl.
    - destruct (ec2_terminate_answer (env w)) as [[]|e].
      + intros H. injection H as <- <-. simpl. rewrite <- app_assoc.
        eexists. split; [reflexivity|reflexivity].
      + destruct (is_Exception e); intros H; injection H as <- <-; simpl;
          rewrite <- ?app_assoc; eexists; (split; [reflexivity|reflexivity]).
    - destruct (is_Exception e); intros H; injection H as <- <-; simpl;
        rewrite <- ?app_assoc; eexists; (split; [reflexivity|reflexivity]). }
  destruct Htr as [tr [Htr Hs]]. exists tr. split; [exact Htr|].
  rewrite Hs. split; [exists []; reflexivity|reflexivity].
Qed.

Lemma submits_main (fuel : nat) (cfg : Config) : submits (main fuel cfg) (statements cfg).
Proof.
  unfold main.
  apply (submits_bind _ _ (statements cfg) []); [|intros _; apply submits_terminate_self].
  unfold produce, print, statements.
  apply (submits_bind _ _ [] _); [apply (submits_emit (EvPrint _))|]. intros _.
  apply (submits_bind _ _ [] _); [apply (submits_emit (EvPrint _))|]. intros _.
  destruct (String.eqb (BUCKET cfg) sentinel); [apply submits_raise|].
  apply (submits_bind _ _ [] _); [apply (submits_emit (EvPrint _))|]. intros _.
  apply (submits_bind _ _ [_] _); [apply submits_run_query|]. intros _.
  apply (submits_bind _ _ [] _); [apply (submits_emit (EvPrint _))|]. intros _.
  apply (submits_bind _ _ [_] _); [apply submits_run_query|]. intros _.
  apply (submits_bind _ _ [] _); [apply (submits_emit (EvPrint _))|]. intros _.
  apply (submits_bind _ _ [_] []); [apply submits_run_query|]. intros qid.
  apply (submits_bind _ _ [] []); [apply (submits_emit (EvPrint _))|]. intros _.
  apply (submits_bind _ _ [] []).
  { apply (submits_call EvUtcNow). intros w r w' H. injection H as <- <-. reflexivity. }
  intros now.
  apply (submits_bind _ _ [] []); [apply (submits_emit (EvPrint _))|]. intros _.
  apply (submits_bind _ _ [] []).
  { apply (submits_call (EvCopyObject _ _ _ _)). intros w r w' H.
    destruct (s3_fault (env w)); [injection H as <- <-; reflexivity|].
    destruct (s3_objects w !! _); injection H as <- <-; reflexivity. }
  intros _.
  apply (submits_bind _ _ [] []); [apply (submits_emit (EvPrint _))|]. intros _.
  apply (submits_emit (EvPrint _)).
Qed.

(** X13.  A run submits its queries in the order of the script: create
    the database, without a database in the request, then create the
    table, then the count per state.  A run that ends normally has
    submitted exactly these three; a run that fails has submitted a first
    part of them and nothing else. *)
Theorem queries_are_submitted_in_order
    (fuel : nat) (cfg : Config) (w : World) (r : result unit) (w' : World) :
  main fuel cfg w = Some (r, w') ->
  exists tr,
    trace w' = trace w ++ tr /\
    (exists rest, statements cfg = submitted tr ++ rest) /\
    (r = Ok tt -> submitted tr = statements cfg).
Proof.
  intros H. destruct (submits_main fuel cfg w r w' H) as [tr [Htr [Hpre Hall]]].
  exists tr. split; [exact Htr|]. split; [exact Hpre|].
  intros Hr. exact (Hall tt Hr).
Qed.

Lemma queries_are_submitted_in_order_witness :
  let cfg := load_config {[ "BUCKET" := "b" ]} in
  let succeeded :=
    mkGetOutput (Some (mkInfo None (Some (mkStatus (Some "SUCCEEDED") None)))) in
  let failed :=
    mkGetOutput (Some (mkInfo None (Some (mkStatus (Some "FAILED") None)))) in
  let e :=
    mkEnv (fun k => inject_Z (Z.of_nat k))
          (fun _ => Ok (mkStartOutput (Some "abc123")))
          (fun k => Ok (if (k <? 1)%nat then succeeded else failed))
          (mkDatetime 2024 3 7 9 5 0) None (Ok "i-0abc") (Ok tt) in
  let w := mkWorld e ∅ 0 0 0 [] in
  exists r w' tr,
    main 5 cfg w = Some (r, w') /\
    trace w' = trace w ++ tr /\
    submitted tr = [query_request cfg (CREATE_DB_SQL cfg) None;
                    query_request cfg (CREATE_TABLE_SQL cfg) (Some (DATABASE cfg))].
Proof.
  intros cfg succeeded failed e w.
  destruct (main 5 cfg w) as [[r w']|] eqn:Hrun; [|vm_compute in Hrun; discriminate].
  destruct (queries_are_submitted_in_order 5 cfg w r w' Hrun) as [tr [Htr _]].
  exists r, w', tr. split; [reflexivity|]. split; [exact Htr|].
  assert (Hw : trace w' = trace w ++ tr) by exact Htr.
  vm_compute in Hrun. injection Hrun as _ Hw'. subst w'.
  simpl in Hw. subst tr. reflexivity.
Defined.

(** *** What a run that ends normally has copied *)

Lemma emit_ok (ev : Event) (w : World) (u : unit) (w' : World) :
  emit ev w = Some (Ok u, w') -> w' = log w [ev].
Proof. intros H. injection H as _ <-. reflexivity. Qed.

Lemma terminate_self_frame (w : World) (r : result unit) (w' : World) :
  terminate_self w = Some (r, w') ->
  s3_objects w' = s3_objects w /\ exists tr, trace w' = trace w ++ tr.
Proof.
  unfold terminate_self, try_except_Exception, bind, urlopen_read_decode,
    terminate_instances, bind, emit, print, emit. simpl.
  destruct (metadata_answer (env w)) as [iid|e]; simpl.
  - destruct (ec2_terminate_answer (env w)) as [[]|e].
    + intros H. injection H as <- <-. simpl. rewrite <- app_assoc. eauto.
    + destruct (is_Exception e); intros H; injection H as <- <-; simpl;
        rewrite <- ?app_assoc; eauto.
  - destruct (is_Exception e); intros H; injection H as <- <-; simpl;
      rewrite <- ?app_assoc; eauto.
Qed.

Lemma copy_ok (cfg : Config) (qid key : string) (w w' : World) :
  copy_athena_csv_to_prod cfg qid key w = Some (Ok tt, w') ->
  exists body,
    s3_objects w !! (BUCKET cfg, src_key cfg qid) = Some body /\
    s3_objects w' = <[(BUCKET cfg, key) := body]> (s3_objects w) /\
    trace w' = trace w ++ [EvCopyObject (BUCKET cfg) (BUCKET cfg) (src_key cfg qid) key] /\
    env w' = env w.
Proof.
  unfold copy_athena_csv_to_prod, copy_object, bind, emit. simpl.
  destruct (s3_fault (env w)); [discriminate|].
  destruct (s3_objects w !! (BUCKET cfg, src_key cfg qid)) as [body|]; [|discriminate].
  intros H. injection H as <-. exists body. repeat split.
Qed.

(** The steps of [main] before the self-termination, when they all go
    through. *)
Lemma produce_ok (fuel : nat) (cfg : Config) (w w' : World) :
  produce fuel cfg w = Some (Ok tt, w') ->
  exists out qid body,
    athena_start_answers (env w) (n_start w + 2) = Ok out /\
    QueryExecutionId out = Some qid /\
    s3_objects w !! (BUCKET cfg, src_key cfg qid) = Some body /\
    s3_objects w' = <[(BUCKET cfg, dest_key cfg (utc_clock (env w))) := body]> (s3_objects w) /\
    In (EvCopyObject (BUCKET cfg) (BUCKET cfg) (src_key cfg qid)
                     (dest_key cfg (utc_clock (env w)))) (trace w').
Proof.
  unfold produce, print. intros H.
  apply bind_ok in H as [u1 [w1 [H1 H]]]. apply emit_ok in H1. subst w1.
  apply bind_ok in H as [u2 [w2 [H2 H]]]. apply emit_ok in H2. subst w2.
  destruct (String.eqb (BUCKET cfg) sentinel); [discriminate|].
  apply bind_ok in H as [u3 [w3 [H3 H]]]. apply emit_ok in H3. subst w3.
  apply bind_ok in H as [q1 [w4 [Hq1 H]]].
  destruct (run_query_frame _ _ _ _ _ _ _ Hq1) as [_ [He4 [Hn4 Hs4]]].
  simpl in He4, Hn4, Hs4.
  apply bind_ok in H as [u5 [w5 [H5 H]]]. apply emit_ok in H5. subst w5.
  apply bind_ok in H as [q2 [w6 [Hq2 H]]].
  destruct (run_query_frame _ _ _ _ _ _ _ Hq2) as [_ [He6 [Hn6 Hs6]]].
  simpl in He6, Hn6, Hs6.
  apply bind_ok in H as [u7 [w7 [H7 H]]]. apply emit_ok in H7. subst w7.
  apply bind_ok in H as [qid [w8 [Hq3 H]]].
  destruct (run_query_frame _ _ _ _ _ _ _ Hq3)
    as [[out [Hout Hid]] [He8 [Hn8 Hs8]]].
  simpl in Hout, He8, Hn8, Hs8.
  apply bind_ok in H as [u9 [w9 [H9 H]]]. apply emit_ok in H9. subst w9.
  apply bind_ok in H as [now [w10 [Hnow H]]].
  unfold utcnow, bind, emit in Hnow. injection Hnow as <- <-.
  apply bind_ok in H as [u11 [w11 [H11 H]]]. apply emit_ok in H11. subst w11.
  apply bind_ok in H as [u12 [w12 [Hcopy H]]]. destruct u12.
  destruct (copy_ok _ _ _ _ _ Hcopy) as [body [Hsrc [Hstore [Htrace Henv]]]].
  simpl in Hsrc, Hstore, Htrace, Henv.
  apply bind_ok in H as [u13 [w13 [H13 H]]]. apply emit_ok in H13. subst w13.
  apply emit_ok in H. subst w'.
  assert (Henv8 : env w8 = env w) by congruence.
  assert (Hstore8 : s3_objects w8 = s3_objects w) by congruence.
  exists out, qid, body.
  rewrite He6, He4 in Hout.
  replace (n_start w + 2)%nat with (n_start w6) by lia.
  split; [exact Hout|]. split; [exact Hid|].
  rewrite Hstore8 in Hsrc, Hstore. rewrite Henv8 in Hstore, Htrace.
  split; [exact Hsrc|]. split; [exact Hstore|].
  simpl. rewrite Htrace. rewrite !in_app_iff. left. left. right. left. reflexivity.
Qed.

(** X14.  A run that ends normally has copied the result of its third
    query, the count per state: the copy read the source key of the
    execution id that the third submission returned, and the store is the
    one before the run with the object found there written under the
    destination key of the run's UTC time; no other object was written or
    removed. *)
Theorem normal_run_copies_the_stage3_result
    (fuel : nat) (cfg : Config) (w w' : World) :
  main fuel cfg w = Some (Ok tt, w') ->
  exists out qid body,
    athena_start_answers (env w) (n_start w + 2) = Ok out /\
    QueryExecutionId out = Some qid /\
    s3_objects w !! (BUCKET cfg, src_key cfg qid) = Some body /\
    s3_objects w' = <[(BUCKET cfg, dest_key cfg (utc_clock (env w))) := body]> (s3_objects w) /\
    In (EvCopyObject (BUCKET cfg) (BUCKET cfg) (src_key cfg qid)
                     (dest_key cfg (utc_clock (env w)))) (trace w').
Proof.
  unfold main. intros H.
  apply bind_ok in H as [[] [w1 [Hprod Hterm]]].
  destruct (produce_ok fuel cfg w w1 Hprod)
    as [out [qid [body [Hout [Hid [Hsrc [Hstore Hin]]]]]]].
  destruct (terminate_self_frame w1 _ w' Hterm) as [Hs [tr Htr]].
  exists out, qid, body. rewrite Hs, Htr.
  repeat split; try assumption.
  apply in_app_iff. left. exact Hin.
Qed.

Lemma normal_run_copies_the_stage3_result_witness :
  let cfg := load_config {[ "BUCKET" := "b" ]} in
  let succeeded :=
    mkGetOutput (Some (mkInfo None (Some (mkStatus (Some "SUCCEEDED") None)))) in
  let e :=
    mkEnv (fun k => inject_Z (Z.of_nat k))
          (fun k => Ok (mkStartOutput
                          (Some (if (k =? 2)%nat then "abc123" else "ddl"))))
          (fun _ => Ok succeeded)
          (mkDatetime 2024 3 7 9 5 0) None (Ok "i-0abc") (Ok tt) in
  let w := mkWorld e {[ ("b", "athena-results/abc123.csv") := "state,facilities" ]}
                   0 0 0 [] in
  exists w' out qid body,
    main 5 cfg w = Some (Ok tt, w') /\
    athena_start_answers (env w) (n_start w + 2) = Ok out /\
    QueryExecutionId out = Some qid /\
    s3_objects w !! (BUCKET cfg, src_key cfg qid) = Some body /\
    s3_objects w' = <[(BUCKET cfg, dest_key cfg (utc_clock (env w))) := body]> (s3_objects w).
Proof.
  intros cfg succeeded e w.
  destruct (main 5 cfg w) as [[[[]|ex] w']|] eqn:Hrun;
    [|vm_compute in Hrun; discriminate|vm_compute in Hrun; discriminate].
  destruct (normal_run_copies_the_stage3_result 5 cfg w w' Hrun)
    as [out [qid [body [Hout [Hid [Hsrc [Hstore _]]]]]]].
  exists w', out, qid, body. auto.
Defined.

(** *** Keys and settings *)

Lemma append_inv_head (a b c : string) : a +:+ b = a +:+ c -> b = c.
Proof.
  induction a as [|x a IH]; [auto|].
  rewrite !append_cons. intros H. injection H as H. exact (IH H).
Qed.

(** X15.  Two runs with the same configuration write the same
    destination key exactly when their UTC times agree to the second:
    the timestamp in the key tells the second, and two runs within one
    second write to the same key. *)
Theorem destination_key_tells_the_second (cfg : Config) (d1 d2 : datetime) :
  valid_datetime d1 = true ->
  valid_datetime d2 = true ->
  (dest_key cfg d1 = dest_key cfg d2 <-> d1 = d2).
Proof.
  intros H1 H2. split; [|intros ->; reflexivity].
  unfold dest_key. intros H.
  apply append_inv_head, append_inv_head, append_inv_tail in H.
  destruct (strftime_fields d1 H1) as [Y1 [M1 [D1 [h1 [m1 s1]]]]].
  destruct (strftime_fields d2 H2) as [Y2 [M2 [D2 [h2 [m2 s2]]]]].
  cbv zeta in *. rewrite H in Y1, M1, D1, h1, m1, s1.
  destruct d1, d2. simpl in *. congruence.
Qed.

Lemma destination_key_tells_the_second_witness :
  let cfg := load_config {[ "BUCKET" := "b" ]} in
  dest_key cfg (mkDatetime 2024 3 7 9 5 0) = dest_key cfg (mkDatetime 2024 3 7 9 5 1)
  <-> mkDatetime 2024 3 7 9 5 0 = mkDatetime 2024 3 7 9 5 1.
Proof.
  intros cfg.
  apply (destination_key_tells_the_second cfg); reflexivity.
Defined.

(** X16.  When [ATHENA_OUTPUT] is unset or empty, the output location
    sent with the queries is [s3://<bucket>/athena-results/], and the
    place the copy reads from is that location followed by the execution
    id and [.csv]: by default the two agree. *)
Theorem default_output_location_is_where_the_copy_reads
    (environ : gmap string string) (qid : string) :
  let cfg := load_config environ in
  environ !! "ATHENA_OUTPUT" = None \/ environ !! "ATHENA_OUTPUT" = Some EmptyString ->
  contains ("s3://" +:+ BUCKET cfg +:+ "/") qid = false ->
  ATHENA_OUTPUT cfg = "s3://" +:+ BUCKET cfg +:+ "/athena-results/" /\
  ATHENA_OUTPUT cfg +:+ qid +:+ ".csv" = "s3://" +:+ BUCKET cfg +:+ "/" +:+ src_key cfg qid.
Proof.
  intros cfg Hout Hqid.
  assert (Ho : ATHENA_OUTPUT cfg = "s3://" +:+ BUCKET cfg +:+ "/athena-results/").
  { unfold cfg, load_config. simpl. destruct Hout as [-> | ->]; reflexivity. }
  split; [exact Ho|].
  rewrite Ho, (src_key_plain cfg qid Hqid), !append_assoc. reflexivity.
Qed.

Lemma default_output_location_is_where_the_copy_reads_witness :
  let cfg := load_config {[ "BUCKET" := "b"; "ATHENA_OUTPUT" := EmptyString ]} in
  ATHENA_OUTPUT cfg = "s3://b/athena-results/" /\
  ATHENA_OUTPUT cfg +:+ "abc123" +:+ ".csv" = "s3://b/" +:+ src_key cfg "abc123".
Proof.
  intros cfg.
  destruct (default_output_location_is_where_the_copy_reads
              {[ "BUCKET" := "b"; "ATHENA_OUTPUT" := EmptyString ]} "abc123")
    as [Ho Hsrc].
  - right. reflexivity.
  - reflexivity.
  - vm_compute in Ho, Hsrc. vm_compute. split; [exact Ho|exact Hsrc].
Defined.

(** X17.  An empty [BUCKET] counts as none: with [BUCKET] unset or empty
    the configuration carries the placeholder, and the run fails with a
    [RuntimeError] before any request to a service. *)
Theorem unset_or_empty_bucket_fails
    (environ : gmap string string) (fuel : nat) (w : World) :
  environ !! "BUCKET" = None \/ environ !! "BUCKET" = Some EmptyString ->
  BUCKET (load_config environ) = sentinel /\
  exists e w',
    main fuel (load_config environ) w = Some (Err e, w') /\
    exc_class e = RuntimeError /\
    exists tr, trace w' = trace w ++ tr /\ List.filter is_service_call tr = [].
Proof.
  intros Hb.
  assert (Hs : BUCKET (load_config environ) = sentinel).
  { unfold load_config. simpl. destruct Hb as [-> | ->]; reflexivity. }
  split; [exact Hs|].
  unfold main, produce, bind, print, emit, raise. simpl BUCKET. 
  rewrite Hs. simpl.
  eexists. eexists. split; [reflexivity|]. split; [reflexivity|].
  eexists. split; [unfold log; simpl; rewrite <- app_assoc; reflexivity|reflexivity].
Qed.

Lemma unset_or_empty_bucket_fails_witness :
  let w := mkWorld (mkEnv (fun _ => 0%Q) (fun _ => Ok (mkStartOutput (Some "q")))
                          (fun _ => Ok (mkGetOutput None))
                          (mkDatetime 2024 3 7 9 5 0) None (Ok "i-0abc") (Ok tt))
                   ∅ 0 0 0 [] in
  let environ : gmap string string := {[ "BUCKET" := EmptyString ]} in
  BUCKET (load_config environ) = sentinel /\
  exists e w',
    main 5 (load_config environ) w = Some (Err e, w') /\
    exc_class e = RuntimeError /\
    exists tr, trace w' = trace w ++ tr /\ List.filter is_service_call tr = [].
Proof.
  intros w environ.
  apply (unset_or_empty_bucket_fails environ 5 w).
  right. reflexivity.
Defined.

(** *** A run in which every service answers well *)

Lemma bind_emit {B : Type} (ev : Event) (k : unit -> M B) (w : World) :
  bind (emit ev) k w = k tt (log w [ev]).
Proof. reflexivity. Qed.

Lemma bind_utcnow {B : Type} (k : datetime -> M B) (w : World) :
  bind utcnow k w = k (utc_clock (env w)) (log w [EvUtcNow]).
Proof. reflexivity. Qed.

Lemma bind_returns {A B : Type} (m : M A) (k : A -> M B) (w : World) (a : A) (w1 : World) :
  m w = Some (Ok a, w1) -> bind m k w = k a w1.
Proof. intros H. unfold bind. rewrite H. reflexivity. Qed.

Lemma run_query_answered_at_once (fuel : nat) (cfg : Config) (sql : string)
    (database : option string) (w : World) (qid : string) :
  athena_start_answers (env w) (n_start w) = Ok (mkStartOutput (Some qid)) ->
  shows_succeeded (athena_get_answers (env w) (n_get w)) ->
  run_query (S fuel) cfg sql database w =
  Some (Ok qid, answered_at_once (query_request cfg sql database) qid w).
Proof.
  intros Hstart [res [status [Ha [Hs Hst]]]].
  rewrite run_query_eq. cbv zeta. rewrite Hstart. cbn [QueryExecutionId].
  rewrite wait_for_query_eq.
  rewrite (wait_loop_succeeded fuel qid default_timeout_sec _ _ res status).
  - unfold answered_at_once, submitted_world. simpl.
    rewrite <- !app_assoc. reflexivity.
  - unfold shows. simpl. auto.
Qed.

Lemma copy_taken (cfg : Config) (qid key body : string) (w : World) :
  s3_fault (env w) = None ->
  s3_objects w !! (BUCKET cfg, src_key cfg qid) = Some body ->
  copy_athena_csv_to_prod cfg qid key w =
  Some (Ok tt, copied (BUCKET cfg) (src_key cfg qid) key body w).
Proof.
  intros Hf Hsrc. unfold copy_athena_csv_to_prod, copy_object, bind, emit. simpl.
  rewrite Hf, Hsrc. reflexivity.
Qed.

Lemma produce_goes_through
    (fuel : nat) (cfg : Config) (w : World) (q1 q2 q3 body : string) :
  BUCKET cfg <> sentinel ->
  athena_start_answers (env w) (n_start w) = Ok (mkStartOutput (Some q1)) ->
  athena_start_answers (env w) (S (n_start w)) = Ok (mkStartOutput (Some q2)) ->
  athena_start_answers (env w) (S (S (n_start w))) = Ok (mkStartOutput (Some q3)) ->
  (forall j, (j < 3)%nat -> shows_succeeded (athena_get_answers (env w) (n_get w + j))) ->
  s3_fault (env w) = None ->
  s3_objects w !! (BUCKET cfg, src_key cfg q3) = Some body ->
  exists w1 tr,
    produce (S fuel) cfg w = Some (Ok tt, w1) /\
    env w1 = env w /\
    trace w1 = trace w ++ tr /\
    submitted tr = statements cfg /\
    s3_objects w1 = <[(BUCKET cfg, dest_key cfg (utc_clock (env w))) := body]> (s3_objects w).
Proof.
  intros Hb H1 H2 H3 Hpolls Hfault Hsrc.
  apply String.eqb_neq in Hb.
  assert (P0 := Hpolls 0%nat ltac:(lia)).
  assert (P1 := Hpolls 1%nat ltac:(lia)).
  assert (P2 := Hpolls 2%nat ltac:(lia)).
  rewrite Nat.add_0_r in P0.
  replace (n_get w + 1)%nat with (S (n_get w)) in P1 by lia.
  replace (n_get w + 2)%nat with (S (S (n_get w))) in P2 by lia.
  unfold produce, print.
  rewrite bind_emit. cbv beta. rewrite bind_emit. cbv beta. rewrite Hb.
  rewrite bind_emit. cbv beta.
  erewrite bind_returns by (apply run_query_answered_at_once; [exact H1|exact P0]).
  cbv beta. rewrite bind_emit. cbv beta.
  erewrite bind_returns by (apply run_query_answered_at_once; [exact H2|exact P1]).
  cbv beta. rewrite bind_emit. cbv beta.
  erewrite bind_returns by (apply run_query_answered_at_once; [exact H3|exact P2]).
  cbv beta. rewrite bind_emit. cbv beta. rewrite bind_utcnow. cbv beta.
  rewrite bind_emit. cbv beta.
  erewrite bind_returns by (apply copy_taken with (body := body); [exact Hfault|exact Hsrc]).
  cbv beta. rewrite bind_emit. cbv beta.
  eexists. eexists. split; [reflexivity|].
  split; [reflexivity|].
  split; [simpl; rewrite <- !app_assoc; simpl; reflexivity|].
  split; reflexivity.
Qed.

(** X18.  With a real bucket name, when the three submissions are
    accepted, each query is found [SUCCEEDED] at its first poll, the
    result of the third is in the store, the store takes the copy, the
    metadata endpoint names the instance and the terminate request is
    accepted, [main] ends normally: it has submitted the three queries,
    written the destination object, and its last request asks to
    terminate that instance. *)
Theorem run_with_willing_services_goes_through
    (fuel : nat) (cfg : Config) (w : World) (q1 q2 q3 body iid : string) :
  BUCKET cfg <> sentinel ->
  athena_start_answers (env w) (n_start w) = Ok (mkStartOutput (Some q1)) ->
  athena_start_answers (env w) (S (n_start w)) = Ok (mkStartOutput (Some q2)) ->
  athena_start_answers (env w) (S (S (n_start w))) = Ok (mkStartOutput (Some q3)) ->
  (forall j, (j < 3)%nat -> shows_succeeded (athena_get_answers (env w) (n_get w + j))) ->
  s3_fault (env w) = None ->
  s3_objects w !! (BUCKET cfg, src_key cfg q3) = Some body ->
  metadata_answer (env w) = Ok iid ->
  ec2_terminate_answer (env w) = Ok tt ->
  exists w' tr,
    main (S fuel) cfg w = Some (Ok tt, w') /\
    trace w' = trace w ++ tr ++ [EvUrlOpen metadata_url 2; EvTerminateInstances [iid]] /\
    submitted tr = statements cfg /\
    s3_objects w' = <[(BUCKET cfg, dest_key cfg (utc_clock (env w))) := body]> (s3_objects w).
Proof.
  intros Hb H1 H2 H3 Hpolls Hfault Hsrc Hmeta Hterm.
  destruct (produce_goes_through fuel cfg w q1 q2 q3 body Hb H1 H2 H3 Hpolls Hfault Hsrc)
    as [w1 [tr [Hprod [Henv [Htr [Hsub Hstore]]]]]].
  rewrite <- Henv in Hmeta, Hterm.
  assert (Hself : terminate_self w1 =
                  Some (Ok tt, log w1 [EvUrlOpen metadata_url 2; EvTerminateInstances [iid]])).
  { unfold terminate_self, try_except_Exception, bind, urlopen_read_decode,
      terminate_instances, bind, emit. simpl.
    rewrite Hmeta. simpl. rewrite Hterm.
    unfold log. simpl. rewrite <- app_assoc. reflexivity. }
  exists (log w1 [EvUrlOpen metadata_url 2; EvTerminateInstances [iid]]), tr.
  split; [unfold main; rewrite (bind_returns _ _ _ _ _ Hprod); exact Hself|].
  split; [simpl; rewrite Htr, <- app_assoc; reflexivity|].
  split; [exact Hsub|exact Hstore].
Qed.

Lemma run_with_willing_services_goes_through_witness :
  let cfg := load_config {[ "BUCKET" := "b" ]} in
  let succeeded :=
    mkGetOutput (Some (mkInfo None (Some (mkStatus (Some "SUCCEEDED") None)))) in
  let e :=
    mkEnv (fun k => inject_Z (Z.of_nat k))
          (fun k => Ok (mkStartOutput
                          (Some (if (k =? 2)%nat then "abc123" else "ddl"))))
          (fun _ => Ok succeeded)
          (mkDatetime 2024 3 7 9 5 0) None (Ok "i-0abc") (Ok tt) in
  let w := mkWorld e {[ ("b", "athena-results/abc123.csv") := "state,facilities" ]}
                   0 0 0 [] in
  exists w' tr,
    main 1 cfg w = Some (Ok tt, w') /\
    trace w' = trace w ++ tr ++ [EvUrlOpen metadata_url 2; EvTerminateInstances ["i-0abc"]] /\
    submitted tr = statements cfg /\
    s3_objects w' = <[(BUCKET cfg, dest_key cfg (utc_clock (env w))) := "state,facilities"]>
                      (s3_objects w).
Proof.
  intros cfg succeeded e w.
  apply (run_with_willing_services_goes_through
           0 cfg w "ddl" "ddl" "abc123" "state,facilities" "i-0abc").
  - discriminate.
  - reflexivity.
  - reflexivity.
  - reflexivity.
  - intros j _. exists succeeded, (mkStatus (Some "SUCCEEDED") None). repeat split.
  - reflexivity.
  - reflexivity.
  - reflexivity.
  - reflexivity.
Defined.

(** *** The output location of the queries and the source of the copy *)

Lemma bind_raises {A B : Type} (m : M A) (k : A -> M B) (w : World) (e : PyExc)
    (w1 : World) :
  m w = Some (Err e, w1) -> bind m k w = Some (Err e, w1).
Proof. intros H. unfold bind. rewrite H. reflexivity. Qed.

(** Whatever becomes of it, a [run_query] that ends has first submitted
    its query. *)
Lemma run_query_first_request
    (fuel : nat) (cfg : Config) (sql : string) (database : option string)
    (w : World) (r : result string) (w' : World) :
  run_query fuel cfg sql database w = Some (r, w') ->
  exists tr,
    trace w' = trace w ++ EvStartQueryExecution (query_request cfg sql database) :: tr.
Proof.
  rewrite run_query_eq. cbv zeta. intros H.
  destruct (athena_start_answers (env w) (n_start w)) as [out|e];
    [|injection H as _ <-; exists []; reflexivity].
  destruct (QueryExecutionId out) as [q|];
    [|injection H as _ <-; exists []; reflexivity].
  destruct (wait_for_query fuel q default_timeout_sec
              (submitted_world (query_request cfg sql database) w))
    as [[res w2]|] eqn:Hwait; [|discriminate].
  destruct (triple_wait_for_query (env w) (fun _ => True) q default_timeout_sec fuel
              I I I
              (submitted_world (query_request cfg sql database) w) _ _ eq_refl Hwait)
    as [_ [[tr [Htr _]] _]].
  exists tr.
  assert (Hw : w' = w2) by (destruct res; injection H as _ <-; reflexivity).
  rewrite Hw, Htr. simpl. rewrite <- app_assoc. reflexivity.
Qed.

Lemma copy_missing (cfg : Config) (qid key : string) (w : World) :
  s3_fault (env w) = None ->
  s3_objects w !! (BUCKET cfg, src_key cfg qid) = None ->
  copy_athena_csv_to_prod cfg qid key w =
  Some (Err no_such_key,
        log w [EvCopyObject (BUCKET cfg) (BUCKET cfg) (src_key cfg qid) key]).
Proof.
  intros Hf Hsrc. unfold copy_athena_csv_to_prod, copy_object, bind, emit. simpl.
  rewrite Hf, Hsrc. reflexivity.
Qed.

(** A run whose three queries succeed at once and which finds nothing
    under the source key of the third ends at the copy. *)
Lemma produce_copy_fails
    (fuel : nat) (cfg : Config) (w : World) (q1 q2 q3 : string) :
  BUCKET cfg <> sentinel ->
  athena_start_answers (env w) (n_start w) = Ok (mkStartOutput (Some q1)) ->
  athena_start_answers (env w) (S (n_start w)) = Ok (mkStartOutput (Some q2)) ->
  athena_start_answers (env w) (S (S (n_start w))) = Ok (mkStartOutput (Some q3)) ->
  (forall j, (j < 3)%nat -> shows_succeeded (athena_get_answers (env w) (n_get w + j))) ->
  s3_fault (env w) = None ->
  s3_objects w !! (BUCKET cfg, src_key cfg q3) = None ->
  exists w0 tr,
    produce (S fuel) cfg w =
    Some (Err no_such_key,
          log w0 [EvCopyObject (BUCKET cfg) (BUCKET cfg) (src_key cfg q3)
                               (dest_key cfg (utc_clock (env w)))]) /\
    trace w0 = trace w ++ tr /\
    submitted tr = statements cfg /\
    s3_objects w0 = s3_objects w.
Proof.
  intros Hb H1 H2 H3 Hpolls Hfault Hsrc.
  apply String.eqb_neq in Hb.
  assert (P0 := Hpolls 0%nat ltac:(lia)).
  assert (P1 := Hpolls 1%nat ltac:(lia)).
  assert (P2 := Hpolls 2%nat ltac:(lia)).
  rewrite Nat.add_0_r in P0.
  replace (n_get w + 1)%nat with (S (n_get w)) in P1 by lia.
  replace (n_get w + 2)%nat with (S (S (n_get w))) in P2 by lia.
  unfold produce, print.
  rewrite bind_emit. cbv beta. rewrite bind_emit. cbv beta. rewrite Hb.
  rewrite bind_emit. cbv beta.
  erewrite bind_returns by (apply run_query_answered_at_once; [exact H1|exact P0]).
  cbv beta. rewrite bind_emit. cbv beta.
  erewrite bind_returns by (apply run_query_answered_at_once; [exact H2|exact P1]).
  cbv beta. rewrite bind_emit. cbv beta.
  erewrite bind_returns by (apply run_query_answered_at_once; [exact H3|exact P2]).
  cbv beta. rewrite bind_emit. cbv beta. rewrite bind_utcnow. cbv beta.
  rewrite bind_emit. cbv beta.
  erewrite bind_raises by (apply copy_missing; [exact Hfault|exact Hsrc]).
  eexists. eexists. split; [reflexivity|].
  split; [simpl; rewrite <- !app_assoc; simpl; reflexivity|].
  split; reflexivity.
Qed.

(** The copy step does not look at the output location. *)
Lemma copy_with_output (cfg : Config) (output qid key : string) :
  copy_athena_csv_to_prod (with_output cfg output) qid key
  = copy_athena_csv_to_prod cfg qid key.
Proof.
  unfold copy_athena_csv_to_prod, src_key, with_output. cbn [BUCKET]. reflexivity.
Qed.

Lemma src_key_with_output (cfg : Config) (output qid : string) :
  src_key (with_output cfg output) qid = src_key cfg qid.
Proof. unfold src_key, with_output. cbn [BUCKET]. reflexivity. Qed.

(** C10.  For an execution id in which the bucket URL does not occur, the
    copy step asks the store for [athena-results/<id>.csv] in the
    configured bucket, whatever the output location of the query engine is
    set to: with [ATHENA_OUTPUT] set, [copy_athena_csv_to_prod] does
    exactly what it does without.  The setting changes the output location
    that [run_query] sends with every query, and nothing else.  So a run
    whose queries all succeed, with the result of the third not under
    [athena-results/] of the bucket, ends at the copy with the store's
    [NoSuchKey] error; and unless the setting is
    [s3://<bucket>/athena-results/], the place the query engine was told
    to write to is another than the place the copy reads from. *)
Theorem source_key_ignores_output_location
    (environ : gmap string string) (output qid : string) :
  let cfg := load_config environ in
  let cfg' := load_config (<["ATHENA_OUTPUT" := output]> environ) in
  output <> EmptyString ->
  contains ("s3://" +:+ BUCKET cfg +:+ "/") qid = false ->
  cfg' = with_output cfg output /\
  (forall key w,
     exists r w',
       copy_athena_csv_to_prod cfg' qid key w = Some (r, w') /\
       trace w' = trace w ++
         [EvCopyObject (BUCKET cfg) (BUCKET cfg)
                       ("athena-results/" +:+ qid +:+ ".csv") key] /\
       copy_athena_csv_to_prod cfg qid key w = Some (r, w')) /\
  (forall fuel sql database w r w',
     run_query fuel cfg' sql database w = Some (r, w') ->
     exists tr,
       trace w' = trace w ++
         EvStartQueryExecution
           (mkStartQuery sql output (WORKGROUP cfg) (CATALOG cfg)
                         (if truthy database then database else None)) :: tr) /\
  (forall fuel w r w',
     main fuel cfg' w = Some (r, w') ->
     exists tr,
       trace w' = trace w ++ tr /\
       (forall req, In (EvStartQueryExecution req) tr -> OutputLocation req = output) /\
       (forall b sb sk k, In (EvCopyObject b sb sk k) tr ->
          sb = BUCKET cfg /\ exists q, sk = src_key cfg q)) /\
  (forall fuel w q1 q2,
     BUCKET cfg <> sentinel ->
     athena_start_answers (env w) (n_start w) = Ok (mkStartOutput (Some q1)) ->
     athena_start_answers (env w) (S (n_start w)) = Ok (mkStartOutput (Some q2)) ->
     athena_start_answers (env w) (S (S (n_start w))) = Ok (mkStartOutput (Some qid)) ->
     (forall j, (j < 3)%nat ->
                shows_succeeded (athena_get_answers (env w) (n_get w + j))) ->
     s3_fault (env w) = None ->
     s3_objects w !! (BUCKET cfg, "athena-results/" +:+ qid +:+ ".csv") = None ->
     exists w' tr,
       main (S fuel) cfg' w = Some (Err no_such_key, w') /\
       trace w' = trace w ++ tr ++
         [EvCopyObject (BUCKET cfg) (BUCKET cfg)
                       ("athena-results/" +:+ qid +:+ ".csv")
                       (dest_key cfg (utc_clock (env w)))] /\
       map QueryString (submitted tr)
       = [CREATE_DB_SQL cfg; CREATE_TABLE_SQL cfg; STAGE3_SQL cfg] /\
       map OutputLocation (submitted tr) = [output; output; output] /\
       s3_objects w' = s3_objects w) /\
  (output <> "s3://" +:+ BUCKET cfg +:+ "/athena-results/" ->
   output +:+ qid +:+ ".csv" <> "s3://" +:+ BUCKET cfg +:+ "/" +:+ src_key cfg qid).
Proof.
  intros cfg cfg' Hout Hqid.
  assert (Hcfg : cfg' = with_output cfg output).
  { unfold cfg', cfg, load_config, with_output, getenv. simpl.
    rewrite lookup_insert_eq.
    rewrite !lookup_insert_ne by discriminate.
    destruct output; [congruence|reflexivity]. }
  assert (Hsrc : src_key cfg qid = "athena-results/" +:+ qid +:+ ".csv").
  { apply src_key_plain. exact Hqid. }
  clearbody cfg'. subst cfg'. clearbody cfg.
  split; [reflexivity|].
  split; [|split; [|split; [|split]]].
  - intros key w.
    destruct (copy_keeps_source (with_output cfg output) qid key w)
      as [r [w' [Hc [Ht _]]]].
    exists r, w'. split; [exact Hc|].
    rewrite copy_with_output in Hc. split; [|exact Hc].
    rewrite Ht, src_key_with_output, Hsrc. reflexivity.
  - intros fuel sql database w r w' Hrun.
    destruct (run_query_first_request _ _ _ _ _ _ _ Hrun) as [tr Htr].
    exists tr. exact Htr.
  - intros fuel w r w' Hrun.
    destruct (main_requests fuel _ w r w' Hrun) as [_ [tr [Htr Hok]]].
    exists tr. split; [exact Htr|].
    rewrite List.Forall_forall in Hok. split.
    + intros req Hin. exact (Hok _ Hin).
    + intros b sb sk k Hin. specialize (Hok _ Hin).
      destruct Hok as [_ [Hsb [_ [q Hq]]]].
      split; [exact Hsb|]. exists q.
      rewrite src_key_with_output in Hq. exact Hq.
  - intros fuel w q1 q2 Hb H1 H2 H3 Hpolls Hfault Hnone.
    rewrite <- Hsrc, <- (src_key_with_output cfg output) in Hnone.
    destruct (produce_copy_fails fuel (with_output cfg output) w q1 q2 qid
                Hb H1 H2 H3 Hpolls Hfault Hnone)
      as [w0 [tr [Hprod [Htr [Hsub Hstore]]]]].
    eexists. exists tr.
    split; [unfold main; apply bind_raises; exact Hprod|].
    split; [|split; [|split]].
    + cbn [log trace]. rewrite Htr, <- app_assoc, src_key_with_output, Hsrc.
      reflexivity.
    + rewrite Hsub. reflexivity.
    + rewrite Hsub. reflexivity.
    + exact Hstore.
  - intros Hother Heq. apply Hother.
    rewrite Hsrc in Heq.
    apply (append_inv_tail _ _ (qid +:+ ".csv")).
    rewrite Heq, !append_assoc. reflexivity.
Qed.

Lemma source_key_ignores_output_location_witness :
  let environ : gmap string string := {[ "BUCKET" := "b" ]} in
  let cfg' := load_config (<["ATHENA_OUTPUT" := "s3://b/elsewhere/"]> environ) in
  let succeeded :=
    mkGetOutput (Some (mkInfo None (Some (mkStatus (Some "SUCCEEDED") None)))) in
  let e :=
    mkEnv (fun k => inject_Z (Z.of_nat k))
          (fun k => Ok (mkStartOutput
                          (Some (if (k =? 2)%nat then "abc123" else "ddl"))))
          (fun _ => Ok succeeded)
          (mkDatetime 2024 3 7 9 5 0) None (Ok "i-0abc") (Ok tt) in
  let w := mkWorld e {[ ("b", "elsewhere/abc123.csv") := "state,facilities" ]}
                   0 0 0 [] in
  ATHENA_OUTPUT cfg' = "s3://b/elsewhere/" /\
  exists w' tr,
    main 1 cfg' w = Some (Err no_such_key, w') /\
    trace w' = tr ++ [EvCopyObject "b" "b" "athena-results/abc123.csv"
                                   "output/prod/state_counts_20240307_090500.csv"] /\
    map OutputLocation (submitted tr)
    = ["s3://b/elsewhere/"; "s3://b/elsewhere/"; "s3://b/elsewhere/"].
Proof.
  intros environ cfg' succeeded e w.
  destruct (source_key_ignores_output_location environ "s3://b/elsewhere/" "abc123")
    as [Hcfg [_ [_ [_ [Hrun _]]]]].
  - discriminate.
  - reflexivity.
  - split; [reflexivity|].
    destruct (Hrun 0%nat w "ddl" "ddl") as [w' [tr [Hmain [Htr [_ [Hloc _]]]]]].
    + vm_compute. discriminate.
    + reflexivity.
    + reflexivity.
    + reflexivity.
    + intros j _. exists succeeded, (mkStatus (Some "SUCCEEDED") None). repeat split.
    + reflexivity.
    + vm_compute. reflexivity.
    + exists w', tr. split; [exact Hmain|].
      split; [vm_compute in Htr; vm_compute; exact Htr|exact Hloc].
Defined.

End PipelineSpec.
